(** * ARM64NICDriver: a shallow embedding of the ARM64 user-space NIC driver

    The development follows the class [ull_nic::ARM64NICDriver]
    (arm64_nic_driver.hpp, the [__aarch64__] build): its constants, the two
    descriptor layouts, the member fields, and the member functions
    [initialize], [receive_packet], [send_packet], [neon_memcpy],
    [reset_device], [allocate_rings], [reclaim_tx_descriptors],
    [get_physical_addr] and [cleanup].

    Conventions.
    - A [uintN_t] is a [Z] and every wrap-around is written out
      ([wrap32], [wrap64]).
    - A pointer is the [Z] of its address; [nullptr] is [0] and [MAP_FAILED]
      is [(void * )-1].
    - The descriptor arrays behind [rx_ring_] and [tx_ring_] are lists of
      records; packet buffers and caller data live in one byte-addressed
      memory, so that aliasing between a source and a destination pointer
      is visible.
    - Everything the driver does to the outside (register accesses, libc
      calls) is appended to a trace; what the outside answers comes from an
      environment record, indexed by how many such calls were made. *)

From Stdlib Require Import ZArith Lia ZifyBool Bool List String.
From Stdlib Require Import Strings.Byte.
From stdpp Require Import base tactics option list numbers.

Local Open Scope Z_scope.

(* ===================================================================== *)
(** ** Fixed-width arithmetic *)

Definition wrap32 (x : Z) : Z := x mod 2 ^ 32.
Definition wrap64 (x : Z) : Z := x mod 2 ^ 64.

(* ===================================================================== *)
(** ** Constants of the class *)

Definition REG_CTRL            : Z := 0x0000.
Definition REG_STATUS          : Z := 0x0008.
Definition REG_RX_CTRL         : Z := 0x0100.
Definition REG_TX_CTRL         : Z := 0x0400.

Definition REG_RX_DESC_BASE_LO : Z := 0x2800.
Definition REG_RX_DESC_BASE_HI : Z := 0x2804.
Definition REG_RX_DESC_LEN     : Z := 0x2808.
Definition REG_RX_DESC_HEAD    : Z := 0x2810.
Definition REG_RX_DESC_TAIL    : Z := 0x2818.

Definition REG_TX_DESC_BASE_LO : Z := 0x3800.
Definition REG_TX_DESC_BASE_HI : Z := 0x3804.
Definition REG_TX_DESC_LEN     : Z := 0x3808.
Definition REG_TX_DESC_HEAD    : Z := 0x3810.
Definition REG_TX_DESC_TAIL    : Z := 0x3818.

Definition CTRL_RESET          : Z := Z.shiftl 1 26.
Definition CTRL_RX_ENABLE      : Z := Z.shiftl 1 1.
Definition CTRL_TX_ENABLE      : Z := Z.shiftl 1 0.

Definition DESC_STATUS_DD      : Z := Z.shiftl 1 0.
Definition DESC_STATUS_EOP     : Z := Z.shiftl 1 1.

Definition MAX_PACKET_SIZE     : Z := 9216.

(** [sizeof(RxDescriptor)] and [sizeof(TxDescriptor)]: both are
    [alignas(64)] and padded to one cache line. *)
Definition sizeof_RxDescriptor : Z := 64.
Definition sizeof_TxDescriptor : Z := 64.

Definition nullptr    : Z := 0.
Definition MAP_FAILED : Z := 2 ^ 64 - 1.

(* ===================================================================== *)
(** ** Descriptors *)

Record RxDescriptor := mkRxDescriptor {
  rxd_buffer_addr : Z;   (* uint64_t buffer_addr *)
  rxd_length      : Z;   (* uint16_t length      *)
  rxd_checksum    : Z;   (* uint16_t checksum    *)
  rxd_status      : Z;   (* uint32_t status      *)
  rxd_rss_hash    : Z;   (* uint32_t rss_hash    *)
  rxd_timestamp   : Z    (* uint64_t timestamp   *)
}.

Record TxDescriptor := mkTxDescriptor {
  txd_buffer_addr  : Z;  (* uint64_t buffer_addr  *)
  txd_cmd_type_len : Z;  (* uint32_t cmd_type_len *)
  txd_status       : Z   (* uint32_t status       *)
}.

(** What [std::memset(ring, 0, ...)] leaves in every slot. *)
Definition zero_RxDescriptor : RxDescriptor := mkRxDescriptor 0 0 0 0 0 0.
Definition zero_TxDescriptor : TxDescriptor := mkTxDescriptor 0 0 0.

(* ===================================================================== *)
(** ** Outcomes

    [Ok a] is a defined result.  [OutOfBounds] stands for an access behind
    the end of a descriptor array (undefined in the source);
    [FuelExhausted] for a loop of the model that ran out of its iteration
    budget.  Neither occurs on a well-formed device, which is proved
    below. *)

Inductive result (A : Type) : Type :=
| Ok (a : A)
| OutOfBounds
| FuelExhausted.

Arguments Ok {A} a.
Arguments OutOfBounds {A}.
Arguments FuelExhausted {A}.

Definition bind {A B} (m : result A) (k : A -> result B) : result B :=
  match m with
  | Ok a => k a
  | OutOfBounds => OutOfBounds
  | FuelExhausted => FuelExhausted
  end.

Notation "'let*' x ':=' m 'in' k" := (bind m (fun x => k))
  (at level 10, x pattern, m at level 100, k at level 200).

(** [ring[i]] for an array held as a list. *)
Definition at_index {A} (ring : list A) (i : Z) : result A :=
  if i <? 0 then OutOfBounds
  else match ring !! Z.to_nat i with
       | Some d => Ok d
       | None => OutOfBounds
       end.

(* ===================================================================== *)
(** ** Byte memory and the two copy routines *)

Definition memory := Z -> byte.

Definition store (m : memory) (a : Z) (b : byte) : memory :=
  fun a' => if a' =? a then b else m a'.

(** [uint8x16_t]: sixteen lanes. [vld1q_u8 s] reads them from [s .. s+15],
    [vst1q_u8 d v] writes them to [d .. d+15]. *)
Fixpoint load_bytes (m : memory) (s : Z) (n : nat) : list byte :=
  match n with
  | O => []
  | S k => m s :: load_bytes m (s + 1) k
  end.

Fixpoint store_bytes (m : memory) (d : Z) (v : list byte) : memory :=
  match v with
  | [] => m
  | b :: v' => store_bytes (store m d b) (d + 1) v'
  end.

Definition vld1q_u8 (m : memory) (s : Z) : list byte := load_bytes m s 16.
Definition vst1q_u8 (m : memory) (d : Z) (v : list byte) : memory := store_bytes m d v.

(** [while (n--) { *d++ = *s++; }]: the tail loop of [neon_memcpy], and the
    plain byte-wise copy that [std::memcpy] stands for on regions that do
    not overlap. *)
Fixpoint bytewise_copy (m : memory) (d s : Z) (n : nat) : memory :=
  match n with
  | O => m
  | S k => bytewise_copy (store m d (m s)) (d + 1) (s + 1) k
  end.

Definition memcpy (m : memory) (d s n : Z) : memory :=
  bytewise_copy m d s (Z.to_nat n).

(** The body of [while (n >= 64)]: four vector loads, then four vector
    stores.  All loads precede all stores, as in the source. *)
Definition neon_block (m : memory) (d s : Z) : memory :=
  let v0 := vld1q_u8 m s in
  let v1 := vld1q_u8 m (s + 16) in
  let v2 := vld1q_u8 m (s + 32) in
  let v3 := vld1q_u8 m (s + 48) in
  let m := vst1q_u8 m d v0 in
  let m := vst1q_u8 m (d + 16) v1 in
  let m := vst1q_u8 m (d + 32) v2 in
  let m := vst1q_u8 m (d + 48) v3 in
  m.

(** [while (n >= 64) { body; s += 64; d += 64; n -= 64; }] *)
Fixpoint neon_blocks (fuel : nat) (m : memory) (d s n : Z)
  : result (memory * Z * Z * Z) :=
  if n <? 64 then Ok (m, d, s, n)
  else match fuel with
       | O => FuelExhausted
       | S fuel' => neon_blocks fuel' (neon_block m d s) (d + 64) (s + 64) (n - 64)
       end.

Definition neon_memcpy (m : memory) (d s n : Z) : result memory :=
  let* (m', d', s', n') := neon_blocks (Z.to_nat n) m d s n in
  Ok (bytewise_copy m' d' s' (Z.to_nat n')).

(* ===================================================================== *)
(** ** The outside world

    [Event] lists the calls that leave the driver.  [CallHandler] is a call
    into caller-supplied packet-handling code; the class has no member or
    parameter of that kind, so none of the functions below emits it.  It is
    declared so that statements about a trace can speak of it. *)

Inductive Event : Type :=
| RegWrite (offset value : Z)            (* str  to bar0_base_ + offset *)
| RegRead (offset value : Z)             (* ldr from bar0_base_ + offset *)
| Usleep (usec : Z)
| Open (path : string) (fd : Z)
| Lseek (fd offset whence : Z)
| Mmap (size addr : Z)
| Close (fd : Z)
| Munmap (addr size : Z)
| AlignedAlloc (alignment size addr : Z)
| Free (addr : Z)
| CallHandler (buffer len : Z).

Definition SEEK_SET : Z := 0.
Definition SEEK_END : Z := 2.

Definition is_AlignedAlloc (e : Event) : bool :=
  match e with AlignedAlloc _ _ _ => true | _ => false end.
Definition is_CallHandler (e : Event) : bool :=
  match e with CallHandler _ _ => true | _ => false end.

Definition count_events (p : Event -> bool) (tr : list Event) : nat :=
  length (List.filter p tr).

(** What the outside answers.  Register reads are volatile: the value of
    the [k]-th read is whatever the device shows then, whatever was written
    before. *)
Record Env := mkEnv {
  env_open          : Z;              (* open(): a descriptor, or negative *)
  env_lseek_end     : Z;              (* lseek(fd, 0, SEEK_END)            *)
  env_mmap          : Z;              (* mmap(): an address, or MAP_FAILED *)
  env_reg_read      : nat -> Z -> Z;  (* k-th register read, at an offset  *)
  env_aligned_alloc : nat -> Z        (* k-th aligned_alloc: address or 0  *)
}.

(* ===================================================================== *)
(** ** The driver object and the memory it points into *)

Record State := mkState {
  pci_address_      : string;                (* const char* pci_address_ *)
  bar0_base_        : Z;                     (* volatile uint8_t* bar0_base_ *)
  bar0_size_        : Z;                     (* size_t bar0_size_ *)
  rx_ring_          : Z;                     (* RxDescriptor* rx_ring_ *)
  tx_ring_          : Z;                     (* TxDescriptor* tx_ring_ *)
  rx_buffers_       : Z;                     (* uint8_t* rx_buffers_ *)
  tx_buffers_       : Z;                     (* uint8_t* tx_buffers_ *)
  rx_head_          : Z;                     (* uint32_t rx_head_ *)
  tx_head_          : Z;                     (* uint32_t tx_head_ *)
  tx_tail_          : Z;                     (* uint32_t tx_tail_ *)
  packets_received_ : Z;                     (* uint64_t packets_received_ *)
  packets_sent_     : Z;                     (* uint64_t packets_sent_ *)
  initialized_      : bool;                  (* bool initialized_ *)
  rx_descs          : list RxDescriptor;     (* the array rx_ring_ points to *)
  tx_descs          : list TxDescriptor;     (* the array tx_ring_ points to *)
  bytes             : memory;                (* packet buffers and caller data *)
  trace             : list Event;            (* calls made so far, oldest first *)
  n_reads           : nat;                   (* register reads made so far *)
  n_allocs          : nat                    (* aligned_alloc calls made so far *)
}.

Definition set_bar0_base (v : Z) (s : State) : State :=
  mkState (pci_address_ s) v (bar0_size_ s) (rx_ring_ s) (tx_ring_ s) (rx_buffers_ s) (tx_buffers_ s)
    (rx_head_ s) (tx_head_ s) (tx_tail_ s) (packets_received_ s) (packets_sent_ s) (initialized_ s)
    (rx_descs s) (tx_descs s) (bytes s) (trace s) (n_reads s) (n_allocs s).

Definition set_bar0_size (v : Z) (s : State) : State :=
  mkState (pci_address_ s) (bar0_base_ s) v (rx_ring_ s) (tx_ring_ s) (rx_buffers_ s) (tx_buffers_ s)
    (rx_head_ s) (tx_head_ s) (tx_tail_ s) (packets_received_ s) (packets_sent_ s) (initialized_ s)
    (rx_descs s) (tx_descs s) (bytes s) (trace s) (n_reads s) (n_allocs s).

Definition set_rx_ring (v : Z) (s : State) : State :=
  mkState (pci_address_ s) (bar0_base_ s) (bar0_size_ s) v (tx_ring_ s) (rx_buffers_ s) (tx_buffers_ s)
    (rx_head_ s) (tx_head_ s) (tx_tail_ s) (packets_received_ s) (packets_sent_ s) (initialized_ s)
    (rx_descs s) (tx_descs s) (bytes s) (trace s) (n_reads s) (n_allocs s).

Definition set_tx_ring (v : Z) (s : State) : State :=
  mkState (pci_address_ s) (bar0_base_ s) (bar0_size_ s) (rx_ring_ s) v (rx_buffers_ s) (tx_buffers_ s)
    (rx_head_ s) (tx_head_ s) (tx_tail_ s) (packets_received_ s) (packets_sent_ s) (initialized_ s)
    (rx_descs s) (tx_descs s) (bytes s) (trace s) (n_reads s) (n_allocs s).

Definition set_rx_buffers (v : Z) (s : State) : State :=
  mkState (pci_address_ s) (bar0_base_ s) (bar0_size_ s) (rx_ring_ s) (tx_ring_ s) v (tx_buffers_ s)
    (rx_head_ s) (tx_head_ s) (tx_tail_ s) (packets_received_ s) (packets_sent_ s) (initialized_ s)
    (rx_descs s) (tx_descs s) (bytes s) (trace s) (n_reads s) (n_allocs s).

Definition set_tx_buffers (v : Z) (s : State) : State :=
  mkState (pci_address_ s) (bar0_base_ s) (bar0_size_ s) (rx_ring_ s) (tx_ring_ s) (rx_buffers_ s) v
    (rx_head_ s) (tx_head_ s) (tx_tail_ s) (packets_received_ s) (packets_sent_ s) (initialized_ s)
    (rx_descs s) (tx_descs s) (bytes s) (trace s) (n_reads s) (n_allocs s).

Definition set_rx_head (v : Z) (s : State) : State :=
  mkState (pci_address_ s) (bar0_base_ s) (bar0_size_ s) (rx_ring_ s) (tx_ring_ s) (rx_buffers_ s) (tx_buffers_ s)
    v (tx_head_ s) (tx_tail_ s) (packets_received_ s) (packets_sent_ s) (initialized_ s)
    (rx_descs s) (tx_descs s) (bytes s) (trace s) (n_reads s) (n_allocs s).

Definition set_tx_head (v : Z) (s : State) : State :=
  mkState (pci_address_ s) (bar0_base_ s) (bar0_size_ s) (rx_ring_ s) (tx_ring_ s) (rx_buffers_ s) (tx_buffers_ s)
    (rx_head_ s) v (tx_tail_ s) (packets_received_ s) (packets_sent_ s) (initialized_ s)
    (rx_descs s) (tx_descs s) (bytes s) (trace s) (n_reads s) (n_allocs s).

Definition set_tx_tail (v : Z) (s : State) : State :=
  mkState (pci_address_ s) (bar0_base_ s) (bar0_size_ s) (rx_ring_ s) (tx_ring_ s) (rx_buffers_ s) (tx_buffers_ s)
    (rx_head_ s) (tx_head_ s) v (packets_received_ s) (packets_sent_ s) (initialized_ s)
    (rx_descs s) (tx_descs s) (bytes s) (trace s) (n_reads s) (n_allocs s).

Definition set_packets_received (v : Z) (s : State) : State :=
  mkState (pci_address_ s) (bar0_base_ s) (bar0_size_ s) (rx_ring_ s) (tx_ring_ s) (rx_buffers_ s) (tx_buffers_ s)
    (rx_head_ s) (tx_head_ s) (tx_tail_ s) v (packets_sent_ s) (initialized_ s)
    (rx_descs s) (tx_descs s) (bytes s) (trace s) (n_reads s) (n_allocs s).

Definition set_packets_sent (v : Z) (s : State) : State :=
  mkState (pci_address_ s) (bar0_base_ s) (bar0_size_ s) (rx_ring_ s) (tx_ring_ s) (rx_buffers_ s) (tx_buffers_ s)
    (rx_head_ s) (tx_head_ s) (tx_tail_ s) (packets_received_ s) v (initialized_ s)
    (rx_descs s) (tx_descs s) (bytes s) (trace s) (n_reads s) (n_allocs s).

Definition set_initialized (v : bool) (s : State) : State :=
  mkState (pci_address_ s) (bar0_base_ s) (bar0_size_ s) (rx_ring_ s) (tx_ring_ s) (rx_buffers_ s) (tx_buffers_ s)
    (rx_head_ s) (tx_head_ s) (tx_tail_ s) (packets_received_ s) (packets_sent_ s) v
    (rx_descs s) (tx_descs s) (bytes s) (trace s) (n_reads s) (n_allocs s).

Definition set_rx_descs (v : list RxDescriptor) (s : State) : State :=
  mkState (pci_address_ s) (bar0_base_ s) (bar0_size_ s) (rx_ring_ s) (tx_ring_ s) (rx_buffers_ s) (tx_buffers_ s)
    (rx_head_ s) (tx_head_ s) (tx_tail_ s) (packets_received_ s) (packets_sent_ s) (initialized_ s)
    v (tx_descs s) (bytes s) (trace s) (n_reads s) (n_allocs s).

Definition set_tx_descs (v : list TxDescriptor) (s : State) : State :=
  mkState (pci_address_ s) (bar0_base_ s) (bar0_size_ s) (rx_ring_ s) (tx_ring_ s) (rx_buffers_ s) (tx_buffers_ s)
    (rx_head_ s) (tx_head_ s) (tx_tail_ s) (packets_received_ s) (packets_sent_ s) (initialized_ s)
    (rx_descs s) v (bytes s) (trace s) (n_reads s) (n_allocs s).

Definition set_bytes (v : memory) (s : State) : State :=
  mkState (pci_address_ s) (bar0_base_ s) (bar0_size_ s) (rx_ring_ s) (tx_ring_ s) (rx_buffers_ s) (tx_buffers_ s)
    (rx_head_ s) (tx_head_ s) (tx_tail_ s) (packets_received_ s) (packets_sent_ s) (initialized_ s)
    (rx_descs s) (tx_descs s) v (trace s) (n_reads s) (n_allocs s).

Definition set_trace (v : list Event) (s : State) : State :=
  mkState (pci_address_ s) (bar0_base_ s) (bar0_size_ s) (rx_ring_ s) (tx_ring_ s) (rx_buffers_ s) (tx_buffers_ s)
    (rx_head_ s) (tx_head_ s) (tx_tail_ s) (packets_received_ s) (packets_sent_ s) (initialized_ s)
    (rx_descs s) (tx_descs s) (bytes s) v (n_reads s) (n_allocs s).

Definition set_n_reads (v : nat) (s : State) : State :=
  mkState (pci_address_ s) (bar0_base_ s) (bar0_size_ s) (rx_ring_ s) (tx_ring_ s) (rx_buffers_ s) (tx_buffers_ s)
    (rx_head_ s) (tx_head_ s) (tx_tail_ s) (packets_received_ s) (packets_sent_ s) (initialized_ s)
    (rx_descs s) (tx_descs s) (bytes s) (trace s) v (n_allocs s).

Definition set_n_allocs (v : nat) (s : State) : State :=
  mkState (pci_address_ s) (bar0_base_ s) (bar0_size_ s) (rx_ring_ s) (tx_ring_ s) (rx_buffers_ s) (tx_buffers_ s)
    (rx_head_ s) (tx_head_ s) (tx_tail_ s) (packets_received_ s) (packets_sent_ s) (initialized_ s)
    (rx_descs s) (tx_descs s) (bytes s) (trace s) (n_reads s) v.

Definition emit (e : Event) (s : State) : State :=
  set_trace (trace s ++ [e]) s.

(** The constructor: every pointer null, every cursor and counter zero.
    [mem] is the process memory the object is created in. *)
Definition construct (pci_addr : string) (mem : memory) : State :=
  mkState pci_addr nullptr 0 nullptr nullptr nullptr nullptr
    0 0 0 0 0 false
    [] [] mem [] 0%nat 0%nat.

(* ===================================================================== *)
(** ** Register access *)

(** [read_reg(offset)]: a 32-bit load; the device decides the value. *)
Definition read_reg (env : Env) (offset : Z) (s : State) : Z * State :=
  let v := wrap32 (env_reg_read env (n_reads s) offset) in
  (v, set_n_reads (S (n_reads s)) (emit (RegRead offset v) s)).

(** [write_reg(offset, value)]: a 32-bit store. *)
Definition write_reg (offset value : Z) (s : State) : State :=
  emit (RegWrite offset (wrap32 value)) s.

(** [reinterpret_cast<uint64_t>(virt_addr)]. *)
Definition get_physical_addr (virt_addr : Z) : Z := wrap64 virt_addr.

(** [is_link_up()]: bit 1 of [REG_STATUS]. *)
Definition is_link_up (env : Env) (s : State) : bool * State :=
  let '(status, s) := read_reg env REG_STATUS s in
  (negb (Z.land status 0x02 =? 0), s).

(** [get_packets_received()] and [get_packets_sent()]. *)
Definition get_packets_received (s : State) : Z := packets_received_ s.
Definition get_packets_sent (s : State) : Z := packets_sent_ s.

(* ===================================================================== *)
(** ** Bring-up *)

Definition resource0_path (pci_addr : string) : string :=
  ("/sys/bus/pci/devices/" ++ pci_addr ++ "/resource0")%string.

Definition map_bar0 (env : Env) (s : State) : bool * State :=
  let fd := env_open env in
  let s := emit (Open (resource0_path (pci_address_ s)) fd) s in
  if fd <? 0 then (false, s)
  else
    let s := emit (Lseek fd 0 SEEK_END) s in
    let s := set_bar0_size (wrap64 (env_lseek_end env)) s in
    let s := emit (Lseek fd 0 SEEK_SET) s in
    let s := emit (Mmap (bar0_size_ s) (env_mmap env)) s in
    let s := set_bar0_base (env_mmap env) s in
    let s := emit (Close fd) s in
    (negb (bar0_base_ s =? MAP_FAILED), s).

(** [for (int i = 0; i < 1000; i++) { if (!(read_reg(REG_CTRL) & CTRL_RESET))
    return true; usleep(1); } return false;] with [budget] iterations left. *)
Fixpoint reset_poll (env : Env) (budget : nat) (s : State) : bool * State :=
  match budget with
  | O => (false, s)
  | S budget' =>
      let '(v, s) := read_reg env REG_CTRL s in
      if Z.land v CTRL_RESET =? 0 then (true, s)
      else reset_poll env budget' (emit (Usleep 1) s)
  end.

Definition RESET_RETRIES : nat := 1000.

Definition reset_device (env : Env) (s : State) : bool * State :=
  let s := write_reg REG_CTRL CTRL_RESET s in
  reset_poll env RESET_RETRIES s.

Definition set_rxd_buffer_addr (v : Z) (d : RxDescriptor) : RxDescriptor :=
  mkRxDescriptor v (rxd_length d) (rxd_checksum d) (rxd_status d)
    (rxd_rss_hash d) (rxd_timestamp d).

Definition set_rxd_status (v : Z) (d : RxDescriptor) : RxDescriptor :=
  mkRxDescriptor (rxd_buffer_addr d) (rxd_length d) (rxd_checksum d) v
    (rxd_rss_hash d) (rxd_timestamp d).

Definition set_txd_status (v : Z) (d : TxDescriptor) : TxDescriptor :=
  mkTxDescriptor (txd_buffer_addr d) (txd_cmd_type_len d) v.

(** One call of [aligned_alloc]: the environment picks the address. *)
Definition aligned_alloc (env : Env) (alignment size : Z) (s : State) : Z * State :=
  let p := env_aligned_alloc env (n_allocs s) in
  (p, set_n_allocs (S (n_allocs s)) (emit (AlignedAlloc alignment size p) s)).

Section Driver.

(** [RX_RING_SIZE] and [TX_RING_SIZE] are compile-time constants of the
    class (both 2048, see [RING_SIZE] below); the functions are written
    over them so that the same code can be read at another size. *)
Variable RX_RING_SIZE : Z.
Variable TX_RING_SIZE : Z.

(** [for (uint32_t i = 0; i < RX_RING_SIZE; i++)
      rx_ring_[i].buffer_addr = get_physical_addr(rx_buffers_ + i * MAX_PACKET_SIZE);] *)
Definition setup_rx_descriptors (rx_buffers : Z) (ring : list RxDescriptor)
  : list RxDescriptor :=
  foldl (fun ring i =>
           alter (set_rxd_buffer_addr
                    (get_physical_addr (rx_buffers + wrap32 (i * MAX_PACKET_SIZE))))
                 (Z.to_nat i) ring)
        ring (seqZ 0 RX_RING_SIZE).

Definition allocate_rings (env : Env) (s : State) : bool * State :=
  let '(p, s) := aligned_alloc env 64 (wrap64 (sizeof_RxDescriptor * RX_RING_SIZE)) s in
  let s := set_rx_ring p s in
  if rx_ring_ s =? nullptr then (false, s)
  else
    let s := set_rx_descs (replicate (Z.to_nat RX_RING_SIZE) zero_RxDescriptor) s in
    let '(p, s) := aligned_alloc env 64 (wrap64 (sizeof_TxDescriptor * TX_RING_SIZE)) s in
    let s := set_tx_ring p s in
    if tx_ring_ s =? nullptr then (false, s)
    else
      let s := set_tx_descs (replicate (Z.to_nat TX_RING_SIZE) zero_TxDescriptor) s in
      let '(p, s) := aligned_alloc env 4096 (wrap32 (RX_RING_SIZE * MAX_PACKET_SIZE)) s in
      let s := set_rx_buffers p s in
      if rx_buffers_ s =? nullptr then (false, s)
      else
        let '(p, s) := aligned_alloc env 4096 (wrap32 (TX_RING_SIZE * MAX_PACKET_SIZE)) s in
        let s := set_tx_buffers p s in
        if tx_buffers_ s =? nullptr then (false, s)
        else
          let s := set_rx_descs (setup_rx_descriptors (rx_buffers_ s) (rx_descs s)) s in
          (true, s).

Definition initialize (env : Env) (s : State) : bool * State :=
  let '(ok, s) := map_bar0 env s in
  if negb ok then (false, s) else
  let '(ok, s) := reset_device env s in
  if negb ok then (false, s) else
  let '(ok, s) := allocate_rings env s in
  if negb ok then (false, s) else
  (* Configure RX ring *)
  let s := write_reg REG_RX_DESC_BASE_LO (Z.land (get_physical_addr (rx_ring_ s)) 0xFFFFFFFF) s in
  let s := write_reg REG_RX_DESC_BASE_HI (Z.shiftr (get_physical_addr (rx_ring_ s)) 32) s in
  let s := write_reg REG_RX_DESC_LEN (RX_RING_SIZE * sizeof_RxDescriptor) s in
  let s := write_reg REG_RX_DESC_HEAD 0 s in
  let s := write_reg REG_RX_DESC_TAIL (RX_RING_SIZE - 1) s in
  (* Configure TX ring *)
  let s := write_reg REG_TX_DESC_BASE_LO (Z.land (get_physical_addr (tx_ring_ s)) 0xFFFFFFFF) s in
  let s := write_reg REG_TX_DESC_BASE_HI (Z.shiftr (get_physical_addr (tx_ring_ s)) 32) s in
  let s := write_reg REG_TX_DESC_LEN (TX_RING_SIZE * sizeof_TxDescriptor) s in
  let s := write_reg REG_TX_DESC_HEAD 0 s in
  let s := write_reg REG_TX_DESC_TAIL 0 s in
  (* Enable RX and TX *)
  let '(rx_ctrl, s) := read_reg env REG_RX_CTRL s in
  let rx_ctrl := Z.lor rx_ctrl CTRL_RX_ENABLE in
  let s := write_reg REG_RX_CTRL rx_ctrl s in
  let '(tx_ctrl, s) := read_reg env REG_TX_CTRL s in
  let tx_ctrl := Z.lor tx_ctrl CTRL_TX_ENABLE in
  let s := write_reg REG_TX_CTRL tx_ctrl s in
  let s := set_initialized true s in
  (true, s).

(* =================================================================== *)
(** ** The hot path *)

(** [receive_packet(&packet_out, &len_out)]: [Some (packet, len)] when the
    function returns [true], with the two values it stored through its
    out-parameters; [None] when it returns [false]. *)
Definition receive_packet (s : State) : result (option (Z * Z) * State) :=
  let* desc := at_index (rx_descs s) (rx_head_ s) in
  (* ldapr: load-acquire of desc->status *)
  let status := rxd_status desc in
  if Z.land status DESC_STATUS_DD =? 0 then Ok (None, s)
  else
    (* prfm: prefetch of rx_ring_[(rx_head_ + 1) & (RX_RING_SIZE - 1)], no effect *)
    let packet_out := rx_buffers_ s + wrap32 (rx_head_ s * MAX_PACKET_SIZE) in
    let len_out := rxd_length desc in
    let s := set_rx_descs (<[Z.to_nat (rx_head_ s) := set_rxd_status 0 desc]> (rx_descs s)) s in
    let s := set_rx_head (Z.land (wrap32 (rx_head_ s + 1)) (RX_RING_SIZE - 1)) s in
    let s := write_reg REG_RX_DESC_TAIL (Z.land (wrap32 (rx_head_ s - 1)) (RX_RING_SIZE - 1)) s in
    let s := set_packets_received (wrap64 (packets_received_ s + 1)) s in
    Ok (Some (packet_out, len_out), s).

(** [while (tx_head_ != tx_tail_) { if (!(tx_ring_[tx_head_].status & DD)) break;
    tx_head_ = (tx_head_ + 1) & (TX_RING_SIZE - 1); }] *)
Fixpoint reclaim_loop (fuel : nat) (s : State) : result State :=
  if tx_head_ s =? tx_tail_ s then Ok s
  else match fuel with
       | O => FuelExhausted
       | S fuel' =>
           let* desc := at_index (tx_descs s) (tx_head_ s) in
           if Z.land (txd_status desc) DESC_STATUS_DD =? 0 then Ok s
           else reclaim_loop fuel'
                  (set_tx_head (Z.land (wrap32 (tx_head_ s + 1)) (TX_RING_SIZE - 1)) s)
       end.

Definition reclaim_tx_descriptors (s : State) : result State :=
  reclaim_loop (Z.to_nat TX_RING_SIZE) s.

(** [send_packet(data, length)]; [length] is a [uint16_t]. *)
Definition send_packet (data length : Z) (s : State) : result (bool * State) :=
  let next_tail := Z.land (wrap32 (tx_tail_ s + 1)) (TX_RING_SIZE - 1) in
  let* (full, s) :=
    if next_tail =? tx_head_ s then
      let* s := reclaim_tx_descriptors s in
      Ok (next_tail =? tx_head_ s, s)
    else Ok (false, s) in
  if (full : bool) then Ok (false, s)
  else
    let* desc := at_index (tx_descs s) (tx_tail_ s) in
    let tx_buffer := tx_buffers_ s + wrap32 (tx_tail_ s * MAX_PACKET_SIZE) in
    let* mem :=
      if 64 <=? length then neon_memcpy (bytes s) tx_buffer data length
      else Ok (memcpy (bytes s) tx_buffer data length) in
    let s := set_bytes mem s in
    (* Setup descriptor *)
    let desc := mkTxDescriptor (get_physical_addr tx_buffer)
                               (Z.lor length DESC_STATUS_EOP)
                               (txd_status desc) in
    (* stlr: store-release of 0 to desc->status, then dmb ish *)
    let desc := set_txd_status 0 desc in
    let s := set_tx_descs (<[Z.to_nat (tx_tail_ s) := desc]> (tx_descs s)) s in
    (* Update tail pointer *)
    let s := set_tx_tail next_tail s in
    let s := write_reg REG_TX_DESC_TAIL (tx_tail_ s) s in
    let s := set_packets_sent (wrap64 (packets_sent_ s + 1)) s in
    Ok (true, s).

(** [send_packet] called once per element of [pkts], in order; the
    answers are collected. *)
Fixpoint send_all (pkts : list (Z * Z)) (s : State) : result (list bool * State) :=
  match pkts with
  | [] => Ok ([], s)
  | (data, length) :: rest =>
      let* (ok, s) := send_packet data length s in
      let* (oks, s) := send_all rest s in
      Ok (ok :: oks, s)
  end.

End Driver.

(** The ring sizes the class is compiled with. *)
Definition RING_SIZE : Z := 2048.

(* ===================================================================== *)
(** ** Tear-down *)

Definition cleanup (s : State) : State :=
  let s := if initialized_ s
           then write_reg REG_TX_CTRL 0 (write_reg REG_RX_CTRL 0 s)
           else s in
  let s := if negb (bar0_base_ s =? nullptr) && negb (bar0_base_ s =? MAP_FAILED)
           then emit (Munmap (bar0_base_ s) (bar0_size_ s)) s
           else s in
  let s := if negb (rx_ring_ s =? nullptr) then emit (Free (rx_ring_ s)) s else s in
  let s := if negb (tx_ring_ s =? nullptr) then emit (Free (tx_ring_ s)) s else s in
  let s := if negb (rx_buffers_ s =? nullptr) then emit (Free (rx_buffers_ s)) s else s in
  let s := if negb (tx_buffers_ s =? nullptr) then emit (Free (tx_buffers_ s)) s else s in
  s.

(** [~ARM64NICDriver() { cleanup(); }] *)
Definition destroy (s : State) : State := cleanup s.

(* ===================================================================== *)
(** * Vocabulary for the statements *)

(** ** Rings *)

(** A ring size the masks work for: a power of two that fits a
    [uint32_t]. *)
Definition ring_size (N : Z) : Prop := exists k : Z, 0 <= k < 32 /\ N = 2 ^ k.

(** The TX side of a device whose ring has [N] descriptors. *)
Definition tx_wf (N : Z) (s : State) : Prop :=
  length (tx_descs s) = Z.to_nat N /\
  0 <= tx_head_ s < N /\
  0 <= tx_tail_ s < N.

(** The RX side of a device whose ring has [N] descriptors. *)
Definition rx_wf (N : Z) (s : State) : Prop :=
  length (rx_descs s) = Z.to_nat N /\
  0 <= rx_head_ s < N.

(** The completion (DD) bit of a status word. *)
Definition dd_set (status : Z) : bool := negb (Z.land status DESC_STATUS_DD =? 0).

(** The status word of TX descriptor [i], [0] behind the end. *)
Definition tx_status_at (s : State) (i : Z) : Z :=
  match tx_descs s !! Z.to_nat i with
  | Some d => txd_status d
  | None => 0
  end.

(** The device has completed none of the TX descriptors. *)
Definition no_tx_completion (s : State) : Prop :=
  Forall (fun d => dd_set (txd_status d) = false) (tx_descs s).

(** The TX side of a device that was initialized and has since sent [n]
    packets, none of which the device has completed. *)
Definition tx_fresh_after (N n : Z) (s : State) : Prop :=
  tx_wf N s /\ tx_head_ s = 0 /\ tx_tail_ s = n /\ packets_sent_ s = n /\
  no_tx_completion s.

(** The buffer slot that belongs to ring position [i]. *)
Definition tx_slot (s : State) (i : Z) : Z :=
  tx_buffers_ s + wrap32 (i * MAX_PACKET_SIZE).

(** ** The device's side of the rings

    These two steps are taken by the hardware (or by a test harness in its
    place), never by the driver. *)

(** The device has sent the frame of TX descriptor [i]: it sets DD. *)
Definition hw_complete_tx (i : Z) (s : State) : State :=
  set_tx_descs
    (alter (fun d => set_txd_status (Z.lor (txd_status d) DESC_STATUS_DD) d)
           (Z.to_nat i) (tx_descs s)) s.

(** The device delivers a frame of [len] bytes into RX slot [i]: it writes
    the length and sets DD. *)
Definition hw_complete_rx (i len : Z) (s : State) : State :=
  set_rx_descs
    (alter (fun d => mkRxDescriptor (rxd_buffer_addr d) len (rxd_checksum d)
                       (Z.lor (rxd_status d) DESC_STATUS_DD)
                       (rxd_rss_hash d) (rxd_timestamp d))
           (Z.to_nat i) (rx_descs s)) s.

(** ** Copies *)

Definition in_range (base len a : Z) : Prop := base <= a < base + len.

(** What a copy of [n] bytes from [s] to [d] leaves when every byte is read
    before anything overwrites it. *)
Definition copied (m : memory) (d s n : Z) : memory :=
  fun a => if (d <=? a) && (a <? d + n) then m (s + (a - d)) else m a.

(** The destination does not start inside the source: a forward copy then
    never overwrites a byte it has yet to read. *)
Definition forward_safe (d s n : Z) : Prop := d <= s \/ s + n <= d.

(** ** What the hot path leaves alone *)

(** Fields that neither [send_packet] nor [receive_packet] assigns. *)
Definition same_object (s s' : State) : Prop :=
  pci_address_ s' = pci_address_ s /\
  bar0_base_ s' = bar0_base_ s /\ bar0_size_ s' = bar0_size_ s /\
  rx_ring_ s' = rx_ring_ s /\ tx_ring_ s' = tx_ring_ s /\
  rx_buffers_ s' = rx_buffers_ s /\ tx_buffers_ s' = tx_buffers_ s /\
  initialized_ s' = initialized_ s.

(** The receive side of the state. *)
Definition same_rx (s s' : State) : Prop :=
  rx_head_ s' = rx_head_ s /\
  packets_received_ s' = packets_received_ s /\
  rx_descs s' = rx_descs s.

(** The transmit side of the state. *)
Definition same_tx (s s' : State) : Prop :=
  tx_head_ s' = tx_head_ s /\ tx_tail_ s' = tx_tail_ s /\
  packets_sent_ s' = packets_sent_ s /\ tx_descs s' = tx_descs s.

(** What a successful [send_packet data length] changes, apart from
    [tx_head_]: [s] is the state before, [s'] the state after. *)
Definition send_effect (N data length : Z) (s s' : State) : Prop :=
  tx_tail_ s' = (tx_tail_ s + 1) mod N /\
  packets_sent_ s' = wrap64 (packets_sent_ s + 1) /\
  tx_descs s' =
    <[Z.to_nat (tx_tail_ s) :=
        mkTxDescriptor (get_physical_addr (tx_slot s (tx_tail_ s)))
                       (Z.lor length DESC_STATUS_EOP) 0]> (tx_descs s) /\
  trace s' = trace s ++ [RegWrite REG_TX_DESC_TAIL ((tx_tail_ s + 1) mod N)] /\
  (forall a, ~ in_range (tx_slot s (tx_tail_ s)) length a -> bytes s' a = bytes s a) /\
  (0 <= length -> forward_safe (tx_slot s (tx_tail_ s)) data length ->
   forall a, bytes s' a = copied (bytes s) (tx_slot s (tx_tail_ s)) data length a) /\
  same_object s s' /\ same_rx s s'.

(** ** Traces and resources *)

(** A poll of the reset bit: a read of [REG_CTRL]. *)
Definition is_poll (e : Event) : bool :=
  match e with RegRead offset _ => offset =? REG_CTRL | _ => false end.

(** Register accesses and pauses: the only events [reset_device] makes. *)
Definition is_register_traffic (e : Event) : bool :=
  match e with
  | RegWrite _ _ | RegRead _ _ | Usleep _ => true
  | _ => false
  end.

(** The reset bit never clears: every read of [REG_CTRL] shows it set. *)
Definition reset_never_clears (env : Env) : Prop :=
  forall k : nat, Z.land (wrap32 (env_reg_read env k REG_CTRL)) CTRL_RESET <> 0.

(** Releases and successful acquisitions of the region at [p]. *)
Definition is_Free_of (p : Z) (e : Event) : bool :=
  match e with Free q => q =? p | _ => false end.

Definition is_Alloc_of (p : Z) (e : Event) : bool :=
  match e with AlignedAlloc _ _ q => (q =? p) && negb (q =? nullptr) | _ => false end.

Definition is_Mmap_of (p : Z) (e : Event) : bool :=
  match e with Mmap _ q => (q =? p) && negb (q =? MAP_FAILED) | _ => false end.

Definition is_Munmap_of (p : Z) (e : Event) : bool :=
  match e with Munmap q _ => q =? p | _ => false end.

(** Every region is released exactly as often as it was obtained. *)
Definition balanced (tr : list Event) : Prop :=
  forall p : Z,
    count_events (is_Free_of p) tr = count_events (is_Alloc_of p) tr /\
    count_events (is_Munmap_of p) tr = count_events (is_Mmap_of p) tr.

(** The allocator hands out each address once: two successful calls of
    [aligned_alloc] never give the same block while both are live, and
    nothing is released before [cleanup]. *)
Definition fresh_allocator (env : Env) : Prop :=
  forall i j : nat,
    i <> j -> env_aligned_alloc env i <> nullptr ->
    env_aligned_alloc env i <> env_aligned_alloc env j.

(** The calls [cleanup] makes on a state, in order. *)
Definition cleanup_events (s : State) : list Event :=
  (if initialized_ s
   then [RegWrite REG_RX_CTRL (wrap32 0); RegWrite REG_TX_CTRL (wrap32 0)]
   else []) ++
  (if negb (bar0_base_ s =? nullptr) && negb (bar0_base_ s =? MAP_FAILED)
   then [Munmap (bar0_base_ s) (bar0_size_ s)]
   else []) ++
  (if negb (rx_ring_ s =? nullptr) then [Free (rx_ring_ s)] else []) ++
  (if negb (tx_ring_ s =? nullptr) then [Free (tx_ring_ s)] else []) ++
  (if negb (rx_buffers_ s =? nullptr) then [Free (rx_buffers_ s)] else []) ++
  (if negb (tx_buffers_ s =? nullptr) then [Free (tx_buffers_ s)] else []).

(** ** Concrete inputs *)

(** A memory whose byte at address [a] is [a mod 256]. *)
Definition pattern_memory : memory :=
  fun a => default Byte.x00 (Byte.of_N (Z.to_N (a mod 256))).

(** An environment in which everything works: the resource opens and
    maps, the reset bit is clear at the first poll, and the allocator
    returns blocks 64 MiB apart. *)
Definition env_ok : Env :=
  mkEnv 3 0x4000 0x7f0000000000
        (fun _ _ => 0)
        (fun k => 0x10000000 + 0x4000000 * Z.of_nat k).

(** The same, with a device that never leaves reset. *)
Definition env_stuck_reset : Env :=
  mkEnv 3 0x4000 0x7f0000000000
        (fun _ offset => if offset =? REG_CTRL then CTRL_RESET else 0)
        (fun k => 0x10000000 + 0x4000000 * Z.of_nat k).

(** A device brought up in [env_ok], with rings of 8 descriptors and with
    the rings the class is compiled with. *)
Definition device8 : State :=
  snd (initialize 8 8 env_ok (construct "0000:01:00.0" pattern_memory)).

Definition device2048 : State :=
  snd (initialize RING_SIZE RING_SIZE env_ok (construct "0000:01:00.0" pattern_memory)).

(** [device8] after seven sends of a 64-byte packet found at address
    [0x1000]. *)
Definition device8_full : State :=
  match send_all 8 (replicate 7 (0x1000, 64)) device8 with
  | Ok (_, s) => s
  | _ => device8
  end.

(** ** Workloads

    A caller of the driver interleaves [send_packet] and [receive_packet];
    between the calls the device completes TX descriptors and delivers RX
    frames. *)

Inductive Call : Type :=
| CallSend (data length : Z)
| CallReceive
| HwCompleteTx (i : Z)
| HwDeliverRx (i len : Z).

Inductive Answer : Type :=
| Sent (ok : bool)
| Received (packet : option (Z * Z))
| HwStep.

Definition step (RX TX : Z) (c : Call) (s : State) : result (Answer * State) :=
  match c with
  | CallSend data length =>
      let* (ok, s) := send_packet TX data length s in Ok (Sent ok, s)
  | CallReceive =>
      let* (packet, s) := receive_packet RX s in Ok (Received packet, s)
  | HwCompleteTx i => Ok (HwStep, hw_complete_tx i s)
  | HwDeliverRx i len => Ok (HwStep, hw_complete_rx i len s)
  end.

Fixpoint run (RX TX : Z) (cs : list Call) (s : State) : result (list Answer * State) :=
  match cs with
  | [] => Ok ([], s)
  | c :: cs' =>
      let* (a, s) := step RX TX c s in
      let* (answers, s) := run RX TX cs' s in
      Ok (a :: answers, s)
  end.

Definition is_sent_ok (a : Answer) : bool :=
  match a with Sent true => true | _ => false end.

Definition is_received_packet (a : Answer) : bool :=
  match a with Received (Some _) => true | _ => false end.

Definition count_answers (p : Answer -> bool) (answers : list Answer) : Z :=
  Z.of_nat (length (List.filter p answers)).

(** A caller that drains the RX ring: [receive_packet] is called until it
    reports no packet, at most [n] times. *)
Fixpoint receive_burst (RX : Z) (n : nat) (s : State) : result (list (Z * Z) * State) :=
  match n with
  | O => Ok ([], s)
  | S n' =>
      let* (packet, s) := receive_packet RX s in
      match packet with
      | None => Ok ([], s)
      | Some p =>
          let* (ps, s) := receive_burst RX n' s in
          Ok (p :: ps, s)
      end
  end.

(** The buffer slot that belongs to RX ring position [i]. *)
Definition rx_slot (s : State) (i : Z) : Z :=
  rx_buffers_ s + wrap32 (i * MAX_PACKET_SIZE).

(** The device has delivered frames of the lengths [lens] into the slots
    from [rx_head_] on, in ring order, and nothing behind them. *)
Definition rx_pending (N : Z) (s : State) (lens : list Z) : Prop :=
  (forall (j : nat) (l : Z),
     lens !! j = Some l ->
     exists d, rx_descs s !! Z.to_nat ((rx_head_ s + Z.of_nat j) mod N) = Some d /\
               dd_set (rxd_status d) = true /\ rxd_length d = l) /\
  (Z.of_nat (length lens) < N ->
   exists d, rx_descs s !! Z.to_nat ((rx_head_ s + Z.of_nat (length lens)) mod N) = Some d /\
             dd_set (rxd_status d) = false).

(** The packets a drain of [lens] pending frames hands out, the first of
    them found at ring position [h]. *)
Fixpoint expected_packets (N : Z) (s : State) (h : Z) (lens : list Z) : list (Z * Z) :=
  match lens with
  | [] => []
  | l :: lens' => (rx_slot s (h mod N), l) :: expected_packets N s (h + 1) lens'
  end.

(** What a successful [receive_packet] changes: [s] is the state before,
    [s'] the state after. *)
Definition receive_effect (N : Z) (s s' : State) : Prop :=
  rx_head_ s' = (rx_head_ s + 1) mod N /\
  packets_received_ s' = wrap64 (packets_received_ s + 1) /\
  (exists desc,
     rx_descs s !! Z.to_nat (rx_head_ s) = Some desc /\
     rx_descs s' = <[Z.to_nat (rx_head_ s) := set_rxd_status 0 desc]> (rx_descs s)) /\
  trace s' = trace s ++ [RegWrite REG_RX_DESC_TAIL (rx_head_ s)] /\
  bytes s' = bytes s /\ same_object s s' /\ same_tx s s'.

(** The value of the newest write to the register at [offset]. *)
Fixpoint last_write (offset : Z) (tr : list Event) : option Z :=
  match tr with
  | [] => None
  | e :: tr' =>
      match last_write offset tr' with
      | Some v => Some v
      | None =>
          match e with
          | RegWrite o v => if o =? offset then Some v else None
          | _ => None
          end
      end
  end.

(** The two tail registers show what the cursors say. *)
Definition doorbells_in_step (RX : Z) (s : State) : Prop :=
  last_write REG_TX_DESC_TAIL (trace s) = Some (tx_tail_ s) /\
  last_write REG_RX_DESC_TAIL (trace s) = Some ((rx_head_ s - 1) mod RX).

(** Both statistics counters hold a [uint64_t]. *)
Definition counters_in_range (s : State) : Prop :=
  0 <= packets_sent_ s < 2 ^ 64 /\ 0 <= packets_received_ s < 2 ^ 64.

(** A workload on rings of 8 descriptors. *)
Definition workload8 : list Call :=
  [CallReceive; CallSend 0x1000 60; HwDeliverRx 0 128; CallReceive;
   HwCompleteTx 0; CallSend 0x2000 1500; CallReceive].

(** Kinds of events. *)
Definition is_Open_ok (e : Event) : bool :=
  match e with Open _ fd => negb (fd <? 0) | _ => false end.
Definition is_Close (e : Event) : bool :=
  match e with Close _ => true | _ => false end.
Definition is_Usleep (e : Event) : bool :=
  match e with Usleep _ => true | _ => false end.
Definition is_enable_write (e : Event) : bool :=
  match e with
  | RegWrite o _ => (o =? REG_RX_CTRL) || (o =? REG_TX_CTRL)
  | _ => false
  end.

(** Polls and pauses: the events of the reset wait. *)
Definition is_poll_or_pause (e : Event) : bool := is_poll e || is_Usleep e.

(** The register accesses at the end of a successful [initialize], in
    order: RX ring geometry, TX ring geometry, then the two enables, each
    a read of the control register followed by the write. [v] and [w] are
    the values the two reads return. *)
Definition bringup_sequence (RX TX : Z) (s0 : State) (v w : Z) : list Event :=
  [ RegWrite REG_RX_DESC_BASE_LO (wrap32 (Z.land (get_physical_addr (rx_ring_ s0)) 0xFFFFFFFF));
    RegWrite REG_RX_DESC_BASE_HI (wrap32 (Z.shiftr (get_physical_addr (rx_ring_ s0)) 32));
    RegWrite REG_RX_DESC_LEN (wrap32 (RX * sizeof_RxDescriptor));
    RegWrite REG_RX_DESC_HEAD (wrap32 0);
    RegWrite REG_RX_DESC_TAIL (wrap32 (RX - 1));
    RegWrite REG_TX_DESC_BASE_LO (wrap32 (Z.land (get_physical_addr (tx_ring_ s0)) 0xFFFFFFFF));
    RegWrite REG_TX_DESC_BASE_HI (wrap32 (Z.shiftr (get_physical_addr (tx_ring_ s0)) 32));
    RegWrite REG_TX_DESC_LEN (wrap32 (TX * sizeof_TxDescriptor));
    RegWrite REG_TX_DESC_HEAD (wrap32 0);
    RegWrite REG_TX_DESC_TAIL (wrap32 0);
    RegRead REG_RX_CTRL v;
    RegWrite REG_RX_CTRL (wrap32 (Z.lor v CTRL_RX_ENABLE));
    RegRead REG_TX_CTRL w;
    RegWrite REG_TX_CTRL (wrap32 (Z.lor w CTRL_TX_ENABLE)) ].

(** The reset bit as the [k]-th register read shows it. *)
Definition reset_bit_at (env : Env) (k : nat) : bool :=
  negb (Z.land (wrap32 (env_reg_read env k REG_CTRL)) CTRL_RESET =? 0).

(** An environment whose device leaves reset at the third poll. *)
Definition env_slow_reset : Env :=
  mkEnv 3 0x4000 0x7f0000000000
        (fun k offset => if (offset =? REG_CTRL) && (Nat.ltb k 2) then CTRL_RESET else 0)
        (fun k => 0x10000000 + 0x4000000 * Z.of_nat k).

(** What bring-up in [env_stuck_reset] leaves, with rings of 8. *)
Definition device8_stuck : State :=
  snd (initialize 8 8 env_stuck_reset (construct "0000:01:00.0" pattern_memory)).

(** An environment in which the resource file cannot be opened. *)
Definition env_no_device : Env :=
  mkEnv (-1) 0 0 (fun _ _ => 0) (fun _ => 0).

(** What bring-up leaves when the resource file cannot be opened. *)
Definition device8_absent : State :=
  snd (initialize 8 8 env_no_device (construct "0000:01:00.0" pattern_memory)).

(** The calls the destructor makes on a device that was brought up: both
    rings disabled, the register window unmapped, the four regions freed. *)
Definition teardown_sequence (s0 : State) : list Event :=
  [ RegWrite REG_RX_CTRL 0; RegWrite REG_TX_CTRL 0;
    Munmap (bar0_base_ s0) (bar0_size_ s0);
    Free (rx_ring_ s0); Free (tx_ring_ s0);
    Free (rx_buffers_ s0); Free (tx_buffers_ s0) ].

(** Every RX descriptor holds the address of the buffer slot of its own
    ring position. *)
Definition rx_ring_points_at_slots (s : State) : Prop :=
  forall (i : nat) (d : RxDescriptor),
    rx_descs s !! i = Some d ->
    rxd_buffer_addr d = get_physical_addr (rx_slot s (Z.of_nat i)).

(** [device8] after the device has delivered a frame of 100 bytes into
    slot 0 and one of 200 bytes into slot 1. *)
Definition device8_two_frames : State :=
  hw_complete_rx 1 200 (hw_complete_rx 0 100 device8).

(** ** The transmit window

    The descriptors in flight are those the driver has handed to the device
    and not taken back: the ring positions from [tx_head_] up to, not
    including, [tx_tail_]. *)

Definition tx_in_flight (N : Z) (s : State) : Z := (tx_tail_ s - tx_head_ s) mod N.

(** Ring position [i] is in flight and the device has completed it. *)
Definition is_completed_in_flight (N : Z) (s : State) (i : Z) : bool :=
  ((i - tx_head_ s) mod N <? tx_in_flight N s) && dd_set (tx_status_at s i).

Definition count_in (p : Z -> bool) (l : list Z) : Z :=
  Z.of_nat (length (List.filter p l)).

(** How many descriptors in flight the device has completed. *)
Definition tx_completed_in_flight (N : Z) (s : State) : Z :=
  count_in (is_completed_in_flight N s) (seqZ 0 N).

(** The completions the device signals in a workload. *)
Definition is_tx_completion (c : Call) : bool :=
  match c with HwCompleteTx _ => true | _ => false end.

Definition count_calls (p : Call -> bool) (cs : list Call) : Z :=
  Z.of_nat (length (List.filter p cs)).

(* ===================================================================== *)
(** * Properties *)

(** ** Copy routines *)

Lemma store_eq (m : memory) (a a' : Z) (b : byte) :
  store m a b a' = if a' =? a then b else m a'.
Proof. reflexivity. Qed.

Lemma load_bytes_length (n : nat) : forall m s, length (load_bytes m s n) = n.
Proof. induction n; intros; simpl; [|rewrite IHn]; reflexivity. Qed.

Lemma load_bytes_nth (n : nat) :
  forall m s (i : nat), (i < n)%nat ->
    nth i (load_bytes m s n) Byte.x00 = m (s + Z.of_nat i).
Proof.
  induction n as [|n IH]; intros m s i Hi; [lia|].
  destruct i as [|i]; simpl.
  - f_equal. lia.
  - rewrite IH by lia. f_equal. lia.
Qed.

Lemma store_bytes_spec (v : list byte) :
  forall m d a,
    store_bytes m d v a =
    if (d <=? a) && (a <? d + Z.of_nat (length v))
    then nth (Z.to_nat (a - d)) v Byte.x00
    else m a.
Proof.
  induction v as [|b v IH]; intros m d a; simpl store_bytes.
  - destruct (d <=? a) eqn:E1, (a <? d + Z.of_nat (length (@nil byte))) eqn:E2;
      simpl in *; try reflexivity; lia.
  - rewrite IH, store_eq.
    replace (Z.of_nat (length (b :: v))) with (1 + Z.of_nat (length v))
      by (simpl length; lia).
    destruct (Z.eq_dec a d) as [->|Hne].
    + replace (d + 1 <=? d) with false by lia.
      replace (d <=? d) with true by lia.
      replace (d <? d + (1 + Z.of_nat (length v))) with true by lia.
      rewrite Z.eqb_refl, Z.sub_diag. reflexivity.
    + replace (a =? d) with false by lia.
      destruct (d + 1 <=? a) eqn:E1, (a <? d + 1 + Z.of_nat (length v)) eqn:E2;
        simpl.
      * replace (d <=? a) with true by lia.
        replace (a <? d + (1 + Z.of_nat (length v))) with true by lia.
        simpl. replace (Z.to_nat (a - d)) with (S (Z.to_nat (a - (d + 1)))) by lia.
        reflexivity.
      * replace (a <? d + (1 + Z.of_nat (length v))) with false by lia.
        rewrite andb_false_r. reflexivity.
      * replace (d <=? a) with false by lia. reflexivity.
      * replace (d <=? a) with false by lia. reflexivity.
Qed.

(** One 16-byte lane group moved from [s] to [d], read from [m0] and written
    into [m]. *)
Lemma vst1q_vld1q (m m0 : memory) (d s a : Z) :
  vst1q_u8 m d (vld1q_u8 m0 s) a =
  if (d <=? a) && (a <? d + 16) then m0 (s + (a - d)) else m a.
Proof.
  unfold vst1q_u8, vld1q_u8. rewrite store_bytes_spec, load_bytes_length.
  change (Z.of_nat 16) with 16.
  destruct ((d <=? a) && (a <? d + 16)) eqn:E; [|reflexivity].
  apply andb_prop in E as [E1 E2].
  rewrite load_bytes_nth by lia. f_equal. lia.
Qed.

(** A block is an exact 64-byte move, whatever the overlap. *)
Lemma neon_block_spec (m : memory) (d s a : Z) :
  neon_block m d s a = copied m d s 64 a.
Proof.
  unfold neon_block, copied. rewrite !vst1q_vld1q.
  destruct (d <=? a) eqn:E0; simpl.
  - destruct (a <? d + 64) eqn:E1.
    + destruct (d + 48 <=? a) eqn:E48;
        [ replace (a <? d + 48 + 16) with true by lia; simpl; f_equal; lia |].
      simpl.
      destruct (d + 32 <=? a) eqn:E32;
        [ replace (a <? d + 32 + 16) with true by lia; simpl; f_equal; lia |].
      simpl.
      destruct (d + 16 <=? a) eqn:E16;
        [ replace (a <? d + 16 + 16) with true by lia; simpl; f_equal; lia |].
      simpl. replace (a <? d + 16) with true by lia. reflexivity.
    + replace (a <? d + 48 + 16) with false by lia. rewrite andb_false_r.
      replace (a <? d + 32 + 16) with false by lia. rewrite andb_false_r.
      replace (a <? d + 16 + 16) with false by lia. rewrite andb_false_r.
      replace (a <? d + 16) with false by lia. reflexivity.
  - replace (d + 48 <=? a) with false by lia.
    replace (d + 32 <=? a) with false by lia.
    replace (d + 16 <=? a) with false by lia. reflexivity.
Qed.

Lemma copied_outside (m : memory) (d s n a : Z) :
  ~ in_range d n a -> copied m d s n a = m a.
Proof.
  unfold in_range, copied. intros H.
  destruct (d <=? a) eqn:E1, (a <? d + n) eqn:E2; simpl; try reflexivity. lia.
Qed.

Lemma copied_inside (m : memory) (d s n a : Z) :
  in_range d n a -> copied m d s n a = m (s + (a - d)).
Proof.
  unfold in_range, copied. intros H.
  replace (d <=? a) with true by lia. replace (a <? d + n) with true by lia.
  reflexivity.
Qed.

(** The byte loop writes [d .. d+n) and nothing else. *)
Lemma bytewise_copy_frame (n : nat) :
  forall m d s a, ~ in_range d (Z.of_nat n) a -> bytewise_copy m d s n a = m a.
Proof.
  induction n as [|n IH]; intros m d s a Ha; simpl; [reflexivity|].
  unfold in_range in *. rewrite IH by lia. rewrite store_eq.
  replace (a =? d) with false by lia. reflexivity.
Qed.

(** On a forward-safe pair of regions the byte loop leaves [copied]. *)
Lemma bytewise_copy_spec (n : nat) :
  forall m d s a, forward_safe d s (Z.of_nat n) ->
    bytewise_copy m d s n a = copied m d s (Z.of_nat n) a.
Proof.
  induction n as [|n IH]; intros m d s a Hs; simpl bytewise_copy.
  - rewrite copied_outside; [reflexivity | unfold in_range; lia].
  - assert (Hs' : forward_safe (d + 1) (s + 1) (Z.of_nat n))
      by (unfold forward_safe in *; lia).
    rewrite (IH _ _ _ a Hs'). unfold copied.
    destruct (Z.eq_dec a d) as [->|Hne].
    + replace (d + 1 <=? d) with false by lia.
      replace (d <=? d) with true by lia.
      replace (d <? d + Z.of_nat (S n)) with true by lia.
      simpl. rewrite store_eq, Z.eqb_refl. f_equal. lia.
    + destruct (d + 1 <=? a) eqn:E1, (a <? d + 1 + Z.of_nat n) eqn:E2; simpl.
      * replace (d <=? a) with true by lia.
        replace (a <? d + Z.of_nat (S n)) with true by lia. simpl.
        rewrite store_eq.
        replace (s + 1 + (a - (d + 1)) =? d) with false
          by (unfold forward_safe in Hs; lia).
        f_equal. lia.
      * replace (a <? d + Z.of_nat (S n)) with false by lia.
        rewrite andb_false_r, store_eq.
        replace (a =? d) with false by lia. reflexivity.
      * replace (d <=? a) with false by lia. simpl. rewrite store_eq.
        replace (a =? d) with false by lia. reflexivity.
      * replace (d <=? a) with false by lia. simpl. rewrite store_eq.
        replace (a =? d) with false by lia. reflexivity.
Qed.

(** The block loop never runs out of its budget, stops with fewer than 64
    bytes left, and has then moved the first [q] bytes. *)
Lemma neon_blocks_spec (fuel : nat) :
  forall m d s n, (Z.to_nat n <= fuel)%nat ->
    exists m' q,
      neon_blocks fuel m d s n = Ok (m', d + q, s + q, n - q) /\
      0 <= q <= Z.max 0 n /\ n - q < 64 /\
      (forall a, ~ in_range d q a -> m' a = m a) /\
      (forward_safe d s n -> forall a, m' a = copied m d s q a).
Proof.
  induction fuel as [|fuel IH]; intros m d s n Hfuel.
  - assert (Hn : n < 64) by lia.
    exists m, 0. simpl. replace (n <? 64) with true by lia.
    rewrite !Z.add_0_r, Z.sub_0_r. repeat split; try lia; try reflexivity.
    intros _ a. rewrite copied_outside; [reflexivity | unfold in_range; lia].
  - simpl. destruct (n <? 64) eqn:E.
    + exists m, 0.
      rewrite !Z.add_0_r, Z.sub_0_r. repeat split; try lia; try reflexivity.
      intros _ a. rewrite copied_outside; [reflexivity | unfold in_range; lia].
    + destruct (IH (neon_block m d s) (d + 64) (s + 64) (n - 64)) as
        (m' & q & Heq & Hq0 & Hrest & Hframe & Hcopy); [lia|].
      exists m', (64 + q). rewrite Heq.
      repeat split; try lia.
      * replace (d + (64 + q)) with (d + 64 + q) by lia.
        replace (s + (64 + q)) with (s + 64 + q) by lia.
        replace (n - (64 + q)) with (n - 64 - q) by lia. reflexivity.
      * intros a Ha. unfold in_range in *.
        rewrite Hframe by lia. rewrite neon_block_spec.
        apply copied_outside. unfold in_range. lia.
      * intros Hs a.
        assert (Hs' : forward_safe (d + 64) (s + 64) (n - 64))
          by (unfold forward_safe in *; lia).
        rewrite (Hcopy Hs' a). unfold copied at 1.
        destruct ((d + 64 <=? a) && (a <? d + 64 + q)) eqn:Ein.
        -- rewrite neon_block_spec, copied_outside
             by (unfold in_range, forward_safe in *; lia).
           rewrite copied_inside by (unfold in_range; lia). f_equal. lia.
        -- rewrite neon_block_spec.
           destruct (Z_lt_dec a (d + 64)) as [Hlt|Hge].
           ++ destruct (Z_le_dec d a).
              ** rewrite !copied_inside by (unfold in_range; lia). reflexivity.
              ** rewrite !copied_outside by (unfold in_range; lia). reflexivity.
           ++ rewrite !copied_outside by (unfold in_range; lia). reflexivity.
Qed.

(** [neon_memcpy] always returns, and writes [d .. d+n) only. *)
Lemma neon_memcpy_frame (m : memory) (d s n : Z) :
  exists m', neon_memcpy m d s n = Ok m' /\
             forall a, ~ in_range d n a -> m' a = m a.
Proof.
  destruct (neon_blocks_spec (Z.to_nat n) m d s n (le_n _)) as
    (m' & q & Heq & Hq0 & Hrest & Hframe & _).
  unfold neon_memcpy. rewrite Heq. simpl. eexists. split; [reflexivity|].
  intros a Ha. unfold in_range in *.
  rewrite bytewise_copy_frame by (unfold in_range; lia).
  apply Hframe. lia.
Qed.

(** On forward-safe regions [neon_memcpy] leaves [copied]. *)
Lemma neon_memcpy_spec (m : memory) (d s n : Z) :
  0 <= n -> forward_safe d s n ->
  exists m', neon_memcpy m d s n = Ok m' /\ forall a, m' a = copied m d s n a.
Proof.
  intros Hn Hs.
  destruct (neon_blocks_spec (Z.to_nat n) m d s n (le_n _)) as
    (m' & q & Heq & Hq0 & Hrest & _ & Hcopy).
  unfold neon_memcpy. rewrite Heq. simpl. eexists. split; [reflexivity|].
  intros a.
  assert (Hs' : forward_safe (d + q) (s + q) (Z.of_nat (Z.to_nat (n - q))))
    by (unfold forward_safe in *; lia).
  rewrite (bytewise_copy_spec _ _ _ _ a Hs').
  unfold copied at 1.
  destruct ((d + q <=? a) && (a <? d + q + Z.of_nat (Z.to_nat (n - q)))) eqn:Ein.
  - rewrite (Hcopy Hs), copied_outside by (unfold in_range, forward_safe in *; lia).
    rewrite copied_inside by (unfold in_range; lia). f_equal. lia.
  - rewrite (Hcopy Hs).
    destruct (Z_lt_dec a (d + q)) as [Hlt|Hge].
    + destruct (Z_le_dec d a).
      * rewrite !copied_inside by (unfold in_range; lia). reflexivity.
      * rewrite !copied_outside by (unfold in_range; lia). reflexivity.
    + rewrite !copied_outside by (unfold in_range; lia). reflexivity.
Qed.

Lemma memcpy_frame (m : memory) (d s n a : Z) :
  ~ in_range d n a -> memcpy m d s n a = m a.
Proof.
  intros Ha. unfold memcpy. apply bytewise_copy_frame. unfold in_range in *. lia.
Qed.

Lemma memcpy_spec (m : memory) (d s n a : Z) :
  0 <= n -> forward_safe d s n -> memcpy m d s n a = copied m d s n a.
Proof.
  intros Hn Hs. unfold memcpy.
  rewrite bytewise_copy_spec by (unfold forward_safe in *; lia).
  rewrite Z2Nat.id by lia. reflexivity.
Qed.

(** ** Ring arithmetic *)

Lemma ring_size_pos (N : Z) : ring_size N -> 1 <= N <= 2 ^ 31.
Proof.
  intros (k & Hk & ->). split.
  - pose proof (Z.pow_pos_nonneg 2 k). lia.
  - apply Z.pow_le_mono_r; lia.
Qed.

Lemma mask_is_mod (N x : Z) : ring_size N -> Z.land x (N - 1) = x mod N.
Proof.
  intros (k & Hk & ->).
  replace (2 ^ k - 1) with (Z.ones k) by (rewrite Z.ones_equiv; lia).
  apply Z.land_ones. lia.
Qed.

(** The masked increment of a cursor is the increment modulo the ring size. *)
Lemma advance_mod (N i : Z) :
  ring_size N -> 0 <= i < N -> Z.land (wrap32 (i + 1)) (N - 1) = (i + 1) mod N.
Proof.
  intros HN Hi. pose proof (ring_size_pos N HN).
  rewrite mask_is_mod by assumption. unfold wrap32.
  rewrite (Z.mod_small (i + 1) (2 ^ 32)) by lia. reflexivity.
Qed.

Lemma retreat_mod (N i : Z) :
  ring_size N -> 0 <= i < N -> Z.land (wrap32 (i - 1)) (N - 1) = (i - 1) mod N.
Proof.
  intros HN Hi. pose proof (ring_size_pos N HN).
  rewrite mask_is_mod by assumption. unfold wrap32.
  destruct HN as (k & Hk & ->).
  replace (2 ^ 32) with (2 ^ k * 2 ^ (32 - k))
    by (rewrite <- Z.pow_add_r by lia; f_equal; lia).
  rewrite Z.rem_mul_r by (try apply Z.pow_pos_nonneg; lia).
  rewrite Z.mul_comm, Z.mod_add by lia. apply Z.mod_mod. lia.
Qed.

Lemma wrap32_small (x : Z) : 0 <= x < 2 ^ 32 -> wrap32 x = x.
Proof. intros. apply Z.mod_small. assumption. Qed.

Lemma wrap64_small (x : Z) : 0 <= x < 2 ^ 64 -> wrap64 x = x.
Proof. intros. apply Z.mod_small. assumption. Qed.

Lemma mod_range (N x : Z) : 0 < N -> 0 <= x mod N < N.
Proof. intros. apply Z.mod_pos_bound. lia. Qed.

Lemma succ_mod (N i : Z) :
  0 <= i < N -> (i + 1) mod N = if i + 1 =? N then 0 else i + 1.
Proof.
  intros Hi. destruct (i + 1 =? N) eqn:E.
  - assert (i + 1 = N) as -> by lia. apply Z.mod_same. lia.
  - apply Z.mod_small. lia.
Qed.

Lemma add_mod_cases (N h j : Z) :
  0 <= h < N -> 0 <= j <= N ->
  (h + j) mod N = if h + j <? N then h + j else h + j - N.
Proof.
  intros Hh Hj. destruct (h + j <? N) eqn:E.
  - apply Z.mod_small. lia.
  - symmetry. apply Z.mod_unique_pos with (q := 1); lia.
Qed.

Lemma sub_mod_cases (N t h : Z) :
  0 <= h < N -> 0 <= t < N ->
  (t - h) mod N = if h <=? t then t - h else t - h + N.
Proof.
  intros Hh Ht. destruct (h <=? t) eqn:E.
  - apply Z.mod_small. lia.
  - symmetry. apply Z.mod_unique_pos with (q := -1); lia.
Qed.

(** ** Reclamation *)

Lemma set_tx_head_same (s : State) : set_tx_head (tx_head_ s) s = s.
Proof. destruct s; reflexivity. Qed.

Lemma set_tx_head_twice (x y : Z) (s : State) :
  set_tx_head x (set_tx_head y s) = set_tx_head x s.
Proof. reflexivity. Qed.

Lemma at_index_in_range {A} (ring : list A) (i : Z) :
  0 <= i < Z.of_nat (length ring) ->
  exists d, ring !! Z.to_nat i = Some d /\ at_index ring i = Ok d.
Proof.
  intros Hi. unfold at_index. replace (i <? 0) with false by lia.
  destruct (lookup_lt_is_Some_2 ring (Z.to_nat i)) as [d Hd]; [lia|].
  exists d. rewrite Hd. split; reflexivity.
Qed.

Lemma tx_wf_index (N : Z) (s : State) (i : Z) :
  tx_wf N s -> 0 <= i < N -> 0 <= i < Z.of_nat (length (tx_descs s)).
Proof. intros (Hlen & _) Hi. rewrite Hlen. lia. Qed.

(** The loop of [reclaim_tx_descriptors] stops within its budget. It moves
    [tx_head_] forward by [r] positions, where the [r] descriptors passed
    all have DD set and the walk ended either at [tx_tail_] or at a
    descriptor with DD clear. *)
Lemma reclaim_loop_spec (N : Z) (HN : ring_size N) (fuel : nat) :
  forall s, tx_wf N s ->
    (Z.to_nat ((tx_tail_ s - tx_head_ s) mod N) <= fuel)%nat ->
    exists r,
      0 <= r <= (tx_tail_ s - tx_head_ s) mod N /\
      reclaim_loop N fuel s = Ok (set_tx_head ((tx_head_ s + r) mod N) s) /\
      (forall j, 0 <= j < r ->
         dd_set (tx_status_at s ((tx_head_ s + j) mod N)) = true) /\
      (r = (tx_tail_ s - tx_head_ s) mod N \/
       dd_set (tx_status_at s ((tx_head_ s + r) mod N)) = false).
Proof.
  pose proof (ring_size_pos N HN) as HNpos.
  induction fuel as [|fuel IH]; intros s Hwf Hfuel;
    pose proof Hwf as (Hlen & Hh & Ht);
    rewrite (sub_mod_cases N _ _ Hh Ht) in *.
  - (* no budget: the cursors already meet *)
    assert (tx_head_ s = tx_tail_ s) as Heq
      by (destruct (tx_head_ s <=? tx_tail_ s) eqn:E; lia).
    exists 0. simpl. rewrite Heq, Z.eqb_refl.
    rewrite Z.add_0_r, Z.mod_small by lia. rewrite <- Heq, set_tx_head_same.
    replace (tx_head_ s <=? tx_head_ s) with true by lia.
    repeat split; try lia; try (left; lia).
  - simpl. destruct (tx_head_ s =? tx_tail_ s) eqn:Emeet.
    + exists 0. rewrite Z.add_0_r, Z.mod_small by lia. rewrite set_tx_head_same.
      replace (tx_head_ s <=? tx_tail_ s) with true by lia.
      repeat split; try lia; try (left; lia).
    + destruct (at_index_in_range (tx_descs s) (tx_head_ s)) as (d & Hd & Hat);
        [eapply tx_wf_index; eauto|].
      rewrite Hat. simpl.
      destruct (Z.land (txd_status d) DESC_STATUS_DD =? 0) eqn:Edd.
      * exists 0. rewrite Z.add_0_r, Z.mod_small by lia. rewrite set_tx_head_same.
        split; [destruct (tx_head_ s <=? tx_tail_ s) eqn:?; lia|].
        split; [reflexivity|]. split; [intros; lia|].
        right. unfold tx_status_at, dd_set. rewrite Hd, Edd. reflexivity.
      * rewrite advance_mod by assumption.
        set (s1 := set_tx_head ((tx_head_ s + 1) mod N) s).
        assert (Hh1 : 0 <= (tx_head_ s + 1) mod N < N) by (apply mod_range; lia).
        assert (Hwf1 : tx_wf N s1) by (unfold tx_wf, s1; simpl; auto).
        destruct (IH s1 Hwf1) as (r & Hr & Hrun & Hall & Hstop).
        { unfold s1; simpl. rewrite sub_mod_cases by lia.
          rewrite succ_mod in * by lia.
          destruct (tx_head_ s + 1 =? N) eqn:E1;
            destruct (tx_head_ s <=? tx_tail_ s) eqn:E2;
            repeat match goal with |- context [?a <=? ?b] =>
                     destruct (a <=? b) eqn:? end; lia. }
        unfold s1 in Hr, Hrun, Hall, Hstop; simpl in Hr, Hall, Hstop.
        assert (Hdist : (tx_tail_ s - (tx_head_ s + 1) mod N) mod N
                        = (if tx_head_ s <=? tx_tail_ s
                           then tx_tail_ s - tx_head_ s
                           else tx_tail_ s - tx_head_ s + N) - 1).
        { rewrite sub_mod_cases by lia. rewrite succ_mod in * by lia.
          destruct (tx_head_ s + 1 =? N) eqn:E1;
            destruct (tx_head_ s <=? tx_tail_ s) eqn:E2;
            repeat match goal with |- context [?a <=? ?b] =>
                     destruct (a <=? b) eqn:? end; lia. }
        rewrite Hdist in Hr, Hstop.
        assert (Hshift : forall j, 0 <= j ->
                  ((tx_head_ s + 1) mod N + j) mod N = (tx_head_ s + (j + 1)) mod N).
        { intros j Hj. rewrite Zplus_mod_idemp_l. f_equal. lia. }
        exists (r + 1). split; [lia|]. split.
        { unfold s1. rewrite Hrun, set_tx_head_twice.
          simpl. rewrite Hshift by lia. reflexivity. }
        split.
        { intros j Hj. destruct (Z.eq_dec j 0) as [->|Hj0].
          - rewrite Z.add_0_r, Z.mod_small by lia.
            unfold tx_status_at, dd_set. rewrite Hd, Edd. reflexivity.
          - specialize (Hall (j - 1) ltac:(lia)).
            rewrite Hshift in Hall by lia.
            replace (j - 1 + 1) with j in Hall by lia. exact Hall. }
        destruct Hstop as [Hstop|Hstop]; [left; lia|right].
        rewrite Hshift in Hstop by lia. exact Hstop.
Qed.

(** ** [send_packet] *)

(** Both copy paths of [send_packet] return, write only [d .. d+n), and
    leave [copied] when the regions are forward-safe. *)
Lemma send_copy_spec (m : memory) (d s n : Z) :
  exists m',
    (if 64 <=? n then neon_memcpy m d s n else Ok (memcpy m d s n)) = Ok m' /\
    (forall a, ~ in_range d n a -> m' a = m a) /\
    (0 <= n -> forward_safe d s n -> forall a, m' a = copied m d s n a).
Proof.
  destruct (64 <=? n) eqn:E.
  - destruct (neon_memcpy_frame m d s n) as (m' & Heq & Hframe).
    exists m'. split; [exact Heq|]. split; [exact Hframe|].
    intros Hn Hs. destruct (neon_memcpy_spec m d s n Hn Hs) as (m'' & Heq' & Hc).
    rewrite Heq in Heq'. injection Heq' as <-. exact Hc.
  - exists (memcpy m d s n). split; [reflexivity|]. split.
    + intros a Ha. apply memcpy_frame. exact Ha.
    + intros Hn Hs a. apply memcpy_spec; assumption.
Qed.

(** With a free slot, [send_packet] succeeds without touching [tx_head_]. *)
Lemma send_packet_room (N data length : Z) (s : State) :
  ring_size N -> tx_wf N s -> (tx_tail_ s + 1) mod N <> tx_head_ s ->
  exists s',
    send_packet N data length s = Ok (true, s') /\
    tx_head_ s' = tx_head_ s /\
    send_effect N data length s s'.
Proof.
  intros HN Hwf Hroom. pose proof Hwf as (Hlen & Hh & Ht).
  unfold send_packet. rewrite advance_mod by assumption.
  replace ((tx_tail_ s + 1) mod N =? tx_head_ s) with false by lia.
  cbn [bind].
  destruct (at_index_in_range (tx_descs s) (tx_tail_ s)) as (d & Hd & Hat);
    [eapply tx_wf_index; eauto|].
  rewrite Hat. cbn [bind].
  destruct (send_copy_spec (bytes s)
              (tx_buffers_ s + wrap32 (tx_tail_ s * MAX_PACKET_SIZE)) data length)
    as (m' & Hcopy & Hframe & Hcontent).
  rewrite Hcopy. cbn [bind].
  eexists. split; [reflexivity|].
  split; [reflexivity|].
  pose proof (ring_size_pos N HN) as HNpos.
  pose proof (mod_range N (tx_tail_ s + 1) ltac:(lia)) as Hnext.
  unfold send_effect, same_object, same_rx, tx_slot. cbn.
  rewrite (wrap32_small ((tx_tail_ s + 1) mod N)) by lia.
  repeat split; try reflexivity; assumption.
Qed.

(** A full ring that reclamation opens up behaves like the ring it leaves. *)
Lemma send_packet_after_reclaim (N data length : Z) (s s1 : State) :
  ring_size N -> tx_wf N s ->
  (tx_tail_ s + 1) mod N = tx_head_ s ->
  reclaim_tx_descriptors N s = Ok s1 ->
  tx_tail_ s1 = tx_tail_ s ->
  (tx_tail_ s + 1) mod N <> tx_head_ s1 ->
  send_packet N data length s = send_packet N data length s1.
Proof.
  intros HN Hwf Hfull Hrec Htail Hroom. pose proof Hwf as (Hlen & Hh & Ht).
  unfold send_packet. rewrite Htail. rewrite !advance_mod by assumption.
  replace ((tx_tail_ s + 1) mod N =? tx_head_ s) with true by lia.
  rewrite Hrec. cbn [bind].
  replace ((tx_tail_ s + 1) mod N =? tx_head_ s1) with false by lia.
  reflexivity.
Qed.

Lemma reclaim_tx_descriptors_spec (N : Z) (s : State) :
  ring_size N -> tx_wf N s ->
  exists r,
    0 <= r <= (tx_tail_ s - tx_head_ s) mod N /\
    reclaim_tx_descriptors N s = Ok (set_tx_head ((tx_head_ s + r) mod N) s) /\
    (forall j, 0 <= j < r ->
       dd_set (tx_status_at s ((tx_head_ s + j) mod N)) = true) /\
    (r = (tx_tail_ s - tx_head_ s) mod N \/
     dd_set (tx_status_at s ((tx_head_ s + r) mod N)) = false).
Proof.
  intros HN Hwf. pose proof (ring_size_pos N HN).
  apply reclaim_loop_spec; try assumption.
  destruct Hwf as (_ & Hh & Ht).
  pose proof (mod_range N (tx_tail_ s - tx_head_ s)). lia.
Qed.

Lemma send_effect_from_reclaimed (N data length h : Z) (s s' : State) :
  send_effect N data length (set_tx_head h s) s' -> send_effect N data length s s'.
Proof. intros H. exact H. Qed.

(** On a full ring [send_packet] reclaims first. With [r] the number of
    descriptors reclamation passes: [r = 0] gives [false] and the state as
    it was; [r > 0] gives a successful send with [tx_head_] moved by [r]. *)
Lemma send_packet_full (N data length : Z) (s : State) :
  ring_size N -> tx_wf N s -> (tx_tail_ s + 1) mod N = tx_head_ s ->
  exists r,
    0 <= r <= N - 1 /\
    (forall j, 0 <= j < r ->
       dd_set (tx_status_at s ((tx_head_ s + j) mod N)) = true) /\
    (r = N - 1 \/ dd_set (tx_status_at s ((tx_head_ s + r) mod N)) = false) /\
    ((r = 0 /\ send_packet N data length s = Ok (false, s)) \/
     (0 < r /\ exists s',
         send_packet N data length s = Ok (true, s') /\
         tx_head_ s' = (tx_head_ s + r) mod N /\
         send_effect N data length s s')).
Proof.
  intros HN Hwf Hfull. pose proof Hwf as (Hlen & Hh & Ht).
  pose proof (ring_size_pos N HN) as HNpos.
  destruct (reclaim_tx_descriptors_spec N s HN Hwf) as (r & Hr & Hrec & Hall & Hstop).
  assert (Hdist : (tx_tail_ s - tx_head_ s) mod N = N - 1).
  { rewrite sub_mod_cases by lia. rewrite succ_mod in Hfull by lia.
    destruct (tx_tail_ s + 1 =? N) eqn:E1, (tx_head_ s <=? tx_tail_ s) eqn:E2; lia. }
  rewrite Hdist in Hr, Hstop.
  exists r. split; [lia|]. split; [exact Hall|]. split; [exact Hstop|].
  destruct (Z.eq_dec r 0) as [->|Hr0].
  - left. split; [reflexivity|].
    rewrite Z.add_0_r, Z.mod_small, set_tx_head_same in Hrec by lia.
    unfold send_packet. rewrite advance_mod by assumption.
    replace ((tx_tail_ s + 1) mod N =? tx_head_ s) with true by lia.
    rewrite Hrec. cbn [bind].
    replace ((tx_tail_ s + 1) mod N =? tx_head_ s) with true by lia.
    reflexivity.
  - right. split; [lia|].
    set (s1 := set_tx_head ((tx_head_ s + r) mod N) s) in *.
    assert (Hroom : (tx_tail_ s + 1) mod N <> tx_head_ s1).
    { unfold s1; cbn. rewrite Hfull. rewrite add_mod_cases by lia.
      destruct (tx_head_ s + r <? N) eqn:E; lia. }
    assert (Hwf1 : tx_wf N s1).
    { unfold tx_wf, s1; cbn. repeat split; try lia; apply mod_range; lia. }
    rewrite (send_packet_after_reclaim N data length s s1) by (auto; reflexivity).
    destruct (send_packet_room N data length s1 HN Hwf1) as (s' & Hsend & Hhead & Heff).
    { exact Hroom. }
    exists s'. split; [exact Hsend|]. split; [exact Hhead|].
    exact (send_effect_from_reclaimed _ _ _ _ _ _ Heff).
Qed.

(** ** Traces *)

Lemma count_events_app (p : Event -> bool) (l1 l2 : list Event) :
  count_events p (l1 ++ l2) = (count_events p l1 + count_events p l2)%nat.
Proof. unfold count_events. rewrite List.filter_app, List.length_app. reflexivity. Qed.

Lemma count_events_one (p : Event -> bool) (e : Event) :
  count_events p [e] = if p e then 1%nat else 0%nat.
Proof. unfold count_events. simpl. destruct (p e); reflexivity. Qed.

Lemma count_events_nil (p : Event -> bool) : count_events p [] = 0%nat.
Proof. reflexivity. Qed.

Lemma count_events_cons (p : Event -> bool) (e : Event) (l : list Event) :
  count_events p (e :: l) = ((if p e then 1 else 0) + count_events p l)%nat.
Proof. unfold count_events. simpl. destruct (p e); reflexivity. Qed.

Lemma count_events_none (p q : Event -> bool) (l : list Event) :
  Forall (fun e => q e = true) l ->
  (forall e, q e = true -> p e = false) ->
  count_events p l = 0%nat.
Proof.
  intros Hl Hpq. unfold count_events.
  induction Hl as [|e l He _ IH]; simpl; [reflexivity|].
  rewrite (Hpq e He). exact IH.
Qed.

(** Runs the straight-line code of bring-up and tear-down on a symbolic
    state: unfolds the member functions and the record plumbing and
    nothing else, so that counts, wraps and the poll loop stay folded. *)
Ltac run_driver :=
  lazy beta iota zeta delta
    [initialize map_bar0 reset_device allocate_rings aligned_alloc
     construct emit write_reg read_reg fst snd negb andb
     set_bar0_base set_bar0_size set_rx_ring set_tx_ring set_rx_buffers
     set_tx_buffers set_rx_head set_tx_head set_tx_tail set_packets_received
     set_packets_sent set_initialized set_rx_descs set_tx_descs set_bytes set_trace
     pci_address_ bar0_base_ bar0_size_ rx_ring_ tx_ring_ rx_buffers_ tx_buffers_
     rx_head_ tx_head_ tx_tail_ packets_received_ packets_sent_ initialized_
     rx_descs tx_descs bytes trace n_reads n_allocs set_n_reads set_n_allocs].

(** ** Reset *)

(** Whatever the device answers, the poll loop returns; it only adds
    register traffic to the trace, with at most [budget] polls. *)
Lemma reset_poll_shape (env : Env) (budget : nat) :
  forall s, exists evs,
    snd (reset_poll env budget s)
    = set_n_reads (n_reads s + count_events is_poll evs)
        (set_trace (trace s ++ evs) s) /\
    Forall (fun e => is_register_traffic e = true) evs /\
    (count_events is_poll evs <= budget)%nat /\
    (reset_never_clears env ->
     fst (reset_poll env budget s) = false /\ count_events is_poll evs = budget).
Proof.
  induction budget as [|b IH]; intros s.
  - exists []. cbn [reset_poll fst snd]. rewrite app_nil_r, count_events_nil, Nat.add_0_r.
    destruct s; run_driver. repeat split; auto.
  - cbn [reset_poll read_reg].
    set (v := wrap32 (env_reg_read env (n_reads s) REG_CTRL)).
    destruct (Z.land v CTRL_RESET =? 0) eqn:E.
    + exists [RegRead REG_CTRL v]. cbn [fst snd].
      split.
      { rewrite count_events_one. cbn [is_poll]. rewrite Z.eqb_refl, Nat.add_1_r.
        destruct s; reflexivity. }
      split; [repeat constructor|].
      split; [rewrite count_events_one; cbn [is_poll]; rewrite Z.eqb_refl; lia|].
      intros Hstuck. exfalso.
      specialize (Hstuck (n_reads s)). fold v in Hstuck. lia.
    + destruct (IH (emit (Usleep 1)
                      (set_n_reads (S (n_reads s)) (emit (RegRead REG_CTRL v) s))))
        as (evs & Hs & Hall & Hcount & Hstuck).
      exists (RegRead REG_CTRL v :: Usleep 1 :: evs).
      change (RegRead REG_CTRL v :: Usleep 1 :: evs)
        with ([RegRead REG_CTRL v] ++ [Usleep 1] ++ evs).
      rewrite !count_events_app, !count_events_one. cbn [is_poll].
      rewrite Z.eqb_refl. cbn [Nat.add].
      split.
      { rewrite Hs. destruct s; run_driver.
        rewrite <- !app_assoc. f_equal. lia. }
      split; [repeat constructor; exact Hall|].
      split; [lia|].
      intros Hnc. destruct (Hstuck Hnc) as [Hf Hc]. split; [exact Hf|lia].
Qed.

(** ** [initialize], path by path *)

Lemma reset_device_shape (env : Env) (s : State) :
  exists evs,
    snd (reset_device env s)
    = set_n_reads (n_reads s + count_events is_poll evs)
        (set_trace (trace s ++ evs) s) /\
    Forall (fun e => is_register_traffic e = true) evs /\
    (count_events is_poll evs <= RESET_RETRIES)%nat /\
    (reset_never_clears env ->
     fst (reset_device env s) = false /\ count_events is_poll evs = RESET_RETRIES).
Proof.
  unfold reset_device.
  destruct (reset_poll_shape env RESET_RETRIES (write_reg REG_CTRL CTRL_RESET s))
    as (evs & Hs & Hall & Hcount & Hstuck).
  exists (RegWrite REG_CTRL (wrap32 CTRL_RESET) :: evs).
  change (RegWrite REG_CTRL (wrap32 CTRL_RESET) :: evs)
    with ([RegWrite REG_CTRL (wrap32 CTRL_RESET)] ++ evs).
  rewrite count_events_app, count_events_one.
  change (is_poll (RegWrite REG_CTRL (wrap32 CTRL_RESET))) with false.
  cbn [Nat.add].
  split.
  { rewrite Hs. destruct s; run_driver.
    rewrite <- app_assoc. reflexivity. }
  split; [constructor; [reflexivity|exact Hall]|].
  split; [exact Hcount|exact Hstuck].
Qed.

(** The same for [cleanup], once the state it runs on is written out. *)
Ltac run_cleanup :=
  lazy beta iota zeta delta
    [cleanup destroy emit write_reg fst snd negb andb
     set_trace
     pci_address_ bar0_base_ bar0_size_ rx_ring_ tx_ring_ rx_buffers_ tx_buffers_
     rx_head_ tx_head_ tx_tail_ packets_received_ packets_sent_ initialized_
     rx_descs tx_descs bytes trace n_reads n_allocs set_n_reads set_n_allocs].

(** Replaces the poll loop by its outcome and an abstract list [evs] of
    the events it made. *)
Ltac name_reset_events evs Hquiet Hpolls Hstuck :=
  match goal with
  | |- context [reset_poll ?env ?b ?s1] =>
      let Hs := fresh "Hs" in
      let ok := fresh "reset_ok" in
      let s2 := fresh "s_reset" in
      destruct (reset_poll_shape env b s1) as (evs & Hs & Hquiet & Hpolls & Hstuck);
      destruct (reset_poll env b s1) as [ok s2];
      cbn [fst snd] in Hs, Hstuck; subst s2
  end.

(** Splits on every test the code makes on a value it got from outside. *)
Ltac split_paths :=
  repeat match goal with
         | |- context [match ?c with true => _ | false => _ end] =>
             destruct c eqn:?; run_driver
         end.

(** Counts events of one kind in a trace that is written out. *)
Ltac count_trace :=
  rewrite ?count_events_app, ?count_events_cons, ?count_events_nil;
  cbn [is_poll is_AlignedAlloc is_CallHandler is_register_traffic
       is_Free_of is_Alloc_of is_Mmap_of is_Munmap_of];
  change (REG_RX_CTRL =? REG_CTRL) with false;
  change (REG_TX_CTRL =? REG_CTRL) with false;
  cbn [Nat.add].

(** Finds an event in a trace that is written out, newest first. *)
Ltac find_event :=
  repeat first [ apply in_or_app; right; left; reflexivity
               | apply in_or_app; left
               | apply in_cons ].

(** One goal per way through [initialize] from a state written out as a
    record: open fails, mmap fails, reset times out, one of the four
    allocations fails, or all succeeds. *)
Ltac initialize_paths env evs Hquiet Hpolls Hstuck :=
  run_driver;
  destruct (env_open env <? 0) eqn:Hopen; run_driver;
  [ | destruct (env_mmap env =? MAP_FAILED) eqn:Hmmap; run_driver;
      [ | name_reset_events evs Hquiet Hpolls Hstuck; run_driver;
          match goal with
          | reset_ok : bool |- _ => destruct reset_ok; run_driver; [split_paths|]
          end ] ].

(** What a successful [initialize] leaves in a newly constructed object. *)
Lemma initialize_ok_state (RX TX : Z) (env : Env) (pci : string) (mem : memory)
      (s0 : State) :
  initialize RX TX env (construct pci mem) = (true, s0) ->
  rx_head_ s0 = 0 /\ tx_head_ s0 = 0 /\ tx_tail_ s0 = 0 /\
  packets_received_ s0 = 0 /\ packets_sent_ s0 = 0 /\
  initialized_ s0 = true /\ bytes s0 = mem /\
  tx_descs s0 = replicate (Z.to_nat TX) zero_TxDescriptor /\
  rx_descs s0 = setup_rx_descriptors RX (rx_buffers_ s0)
                  (replicate (Z.to_nat RX) zero_RxDescriptor) /\
  In (RegWrite REG_RX_DESC_BASE_LO
        (wrap32 (Z.land (get_physical_addr (rx_ring_ s0)) 0xFFFFFFFF))) (trace s0) /\
  In (RegWrite REG_RX_DESC_BASE_HI
        (wrap32 (Z.shiftr (get_physical_addr (rx_ring_ s0)) 32))) (trace s0) /\
  In (RegWrite REG_TX_DESC_BASE_LO
        (wrap32 (Z.land (get_physical_addr (tx_ring_ s0)) 0xFFFFFFFF))) (trace s0) /\
  In (RegWrite REG_TX_DESC_BASE_HI
        (wrap32 (Z.shiftr (get_physical_addr (tx_ring_ s0)) 32))) (trace s0).
Proof.
  revert s0. initialize_paths env evs Hquiet Hpolls Hstuck;
    intros s0 Hinit; try discriminate Hinit.
  injection Hinit as <-. run_driver.
  repeat split; try reflexivity; find_event.
Qed.

(** ** Sequences of sends on a fresh device *)

Lemma fresh_device_tx (RX TX : Z) (env : Env) (pci : string) (mem : memory)
      (s0 : State) :
  ring_size TX ->
  initialize RX TX env (construct pci mem) = (true, s0) ->
  tx_fresh_after TX 0 s0.
Proof.
  intros HN Hinit. pose proof (ring_size_pos TX HN).
  destruct (initialize_ok_state _ _ _ _ _ _ Hinit)
    as (_ & Hh & Ht & _ & Hsent & _ & _ & Htx & _).
  unfold tx_fresh_after, tx_wf, no_tx_completion. rewrite Hh, Ht, Hsent, Htx.
  rewrite length_replicate.
  repeat split; try lia.
  apply Forall_replicate. reflexivity.
Qed.

Lemma send_effect_wf (N data length : Z) (s s' : State) :
  ring_size N -> tx_wf N s -> send_effect N data length s s' ->
  0 <= tx_head_ s' < N -> tx_wf N s'.
Proof.
  intros HN (Hlen & Hh & Ht) (Htail & _ & Hdescs & _) Hh'.
  pose proof (ring_size_pos N HN).
  unfold tx_wf. rewrite Hdescs, length_insert, Htail.
  repeat split; try lia; apply mod_range; lia.
Qed.

(** One more send on a fresh device that still has room. *)
Lemma send_on_fresh (N n data length : Z) (s : State) :
  ring_size N -> tx_fresh_after N n s -> n + 1 < N ->
  exists s',
    send_packet N data length s = Ok (true, s') /\
    tx_fresh_after N (n + 1) s' /\
    send_effect N data length s s'.
Proof.
  intros HN (Hwf & Hh & Ht & Hsent & Hnone) Hroom.
  pose proof (ring_size_pos N HN). pose proof Hwf as (Hlen & Hhr & Htr).
  destruct (send_packet_room N data length s HN Hwf) as (s' & Hsend & Hh' & Heff).
  { rewrite Ht, Hh, Z.mod_small; lia. }
  exists s'. split; [exact Hsend|]. split; [|exact Heff].
  assert (Hwf' : tx_wf N s') by (eapply send_effect_wf; eauto; lia).
  destruct Heff as (Htail & Hcount & Hdescs & _).
  unfold tx_fresh_after. split; [exact Hwf'|].
  rewrite Hh', Htail, Hcount, Ht, Hsent, Hh.
  rewrite Z.mod_small, wrap64_small by lia.
  repeat split; try reflexivity.
  unfold no_tx_completion. rewrite Hdescs.
  apply Forall_insert; [exact Hnone|reflexivity].
Qed.

Lemma send_all_on_fresh (N : Z) (pkts : list (Z * Z)) :
  ring_size N ->
  forall n s, tx_fresh_after N n s -> n + Z.of_nat (length pkts) < N ->
    exists s',
      send_all N pkts s = Ok (replicate (length pkts) true, s') /\
      tx_fresh_after N (n + Z.of_nat (length pkts)) s'.
Proof.
  intros HN. induction pkts as [|[data len] pkts IH]; intros n s Hfresh Hroom.
  - exists s. simpl. rewrite Z.add_0_r. split; [reflexivity|exact Hfresh].
  - simpl length in *.
    destruct (send_on_fresh N n data len s HN Hfresh) as (s1 & Hsend & Hfresh1 & _);
      [lia|].
    destruct (IH (n + 1) s1 Hfresh1) as (s' & Hall & Hfresh'); [lia|].
    exists s'. simpl. rewrite Hsend. cbn [bind]. rewrite Hall. cbn [bind].
    split; [reflexivity|].
    replace (n + Z.of_nat (S (length pkts))) with (n + 1 + Z.of_nat (length pkts))
      by lia.
    exact Hfresh'.
Qed.

Lemma tx_status_at_lookup (s : State) (i : Z) (d : TxDescriptor) :
  tx_descs s !! Z.to_nat i = Some d -> tx_status_at s i = txd_status d.
Proof. intros H. unfold tx_status_at. rewrite H. reflexivity. Qed.

Lemma no_completion_status (N : Z) (s : State) (i : Z) :
  tx_wf N s -> no_tx_completion s -> 0 <= i < N ->
  dd_set (tx_status_at s i) = false.
Proof.
  intros Hwf Hnone Hi.
  destruct (at_index_in_range (tx_descs s) i) as (d & Hd & _);
    [eapply tx_wf_index; eauto|].
  rewrite (tx_status_at_lookup _ _ _ Hd).
  unfold no_tx_completion in Hnone. rewrite Forall_lookup in Hnone.
  exact (Hnone _ _ Hd).
Qed.

(** With [N - 1] packets outstanding and nothing completed the ring is
    full: the send is refused and nothing changes. *)
Lemma send_on_full_fresh (N data length : Z) (s : State) :
  ring_size N -> tx_fresh_after N (N - 1) s ->
  send_packet N data length s = Ok (false, s).
Proof.
  intros HN (Hwf & Hh & Ht & Hsent & Hnone).
  pose proof (ring_size_pos N HN).
  destruct (send_packet_full N data length s HN Hwf)
    as (r & Hr & Hall & Hstop & [[_ Hres]|[Hpos _]]).
  { rewrite Ht, Hh. replace (N - 1 + 1) with N by lia. apply Z.mod_same. lia. }
  - exact Hres.
  - exfalso. specialize (Hall 0 ltac:(lia)).
    rewrite Hh, Z.add_0_r, Z.mod_small in Hall by lia.
    rewrite (no_completion_status N s 0 Hwf Hnone) in Hall by lia.
    discriminate.
Qed.

Lemma hw_complete_tx_status (s : State) (i j : Z) :
  0 <= i -> 0 <= j ->
  tx_status_at (hw_complete_tx i s) j =
  if j =? i
  then match tx_descs s !! Z.to_nat i with
       | Some d => Z.lor (txd_status d) DESC_STATUS_DD
       | None => 0
       end
  else tx_status_at s j.
Proof.
  intros Hi Hj. unfold tx_status_at, hw_complete_tx. cbn [tx_descs set_tx_descs].
  destruct (j =? i) eqn:E.
  - assert (j = i) as -> by lia. rewrite list_lookup_alter_eq.
    destruct (tx_descs s !! Z.to_nat i); reflexivity.
  - rewrite list_lookup_alter_ne by lia. reflexivity.
Qed.

Lemma dd_set_lor (x : Z) : dd_set (Z.lor x DESC_STATUS_DD) = true.
Proof.
  unfold dd_set, DESC_STATUS_DD. change (Z.shiftl 1 0) with 1.
  destruct (Z.land (Z.lor x 1) 1 =? 0) eqn:E; [|reflexivity].
  exfalso. apply Z.eqb_eq in E.
  assert (Hb : Z.testbit (Z.land (Z.lor x 1) 1) 0 = true).
  { rewrite Z.land_spec, Z.lor_spec. change (Z.testbit 1 0) with true.
    rewrite orb_true_r. reflexivity. }
  rewrite E in Hb. discriminate.
Qed.

(** The retry after the device completed descriptor 0: reclamation passes
    exactly that descriptor and the send goes through. *)
Lemma send_after_first_completion (N data length : Z) (s : State) :
  ring_size N -> 2 <= N -> tx_fresh_after N (N - 1) s ->
  exists s',
    send_packet N data length (hw_complete_tx 0 s) = Ok (true, s') /\
    tx_head_ s' = 1 /\
    send_effect N data length (hw_complete_tx 0 s) s'.
Proof.
  intros HN HN2 (Hwf & Hh & Ht & Hsent & Hnone).
  pose proof Hwf as (Hlen & Hhr & Htr).
  set (s1 := hw_complete_tx 0 s).
  assert (Hwf1 : tx_wf N s1).
  { unfold tx_wf, s1, hw_complete_tx. cbn. rewrite length_alter. auto. }
  assert (Hh1 : tx_head_ s1 = 0) by exact Hh.
  assert (Ht1 : tx_tail_ s1 = N - 1) by exact Ht.
  destruct (at_index_in_range (tx_descs s) 0) as (d0 & Hd0 & _);
    [eapply tx_wf_index; eauto; lia|].
  assert (Hset0 : dd_set (tx_status_at s1 0) = true).
  { unfold s1. rewrite hw_complete_tx_status by lia. simpl (0 =? 0).
    cbn iota. rewrite Hd0. apply dd_set_lor. }
  assert (Hclear1 : dd_set (tx_status_at s1 1) = false).
  { unfold s1. rewrite hw_complete_tx_status by lia. simpl (1 =? 0). cbn iota.
    apply (no_completion_status N); auto; lia. }
  destruct (send_packet_full N data length s1 HN Hwf1)
    as (r & Hr & Hall & Hstop & [[Hr0 _]|[Hpos (s' & Hsend & Hhead & Heff)]]).
  { rewrite Ht1, Hh1. replace (N - 1 + 1) with N by lia. apply Z.mod_same. lia. }
  - exfalso. subst r. rewrite Hh1, Z.add_0_r, Z.mod_small in Hstop by lia.
    destruct Hstop as [Hstop|Hstop]; [lia|]. rewrite Hset0 in Hstop. discriminate.
  - assert (r = 1) as ->.
    { destruct (Z.eq_dec r 1) as [|Hne]; [assumption|exfalso].
      specialize (Hall 1 ltac:(lia)).
      rewrite Hh1, Z.add_0_l, Z.mod_small in Hall by lia.
      rewrite Hclear1 in Hall. discriminate. }
    exists s'. split; [exact Hsend|]. split; [|exact Heff].
    rewrite Hhead, Hh1. apply Z.mod_small. lia.
Qed.

(* ===================================================================== *)
(** * The ring under load *)

(** C2. On a freshly initialized device, with nothing completed by the
    hardware, every one of [n] consecutive calls of [send_packet] returns
    [true] when [n] is strictly below the TX ring size, and
    [packets_sent_] grows by exactly [n]. *)
Theorem sends_below_capacity_succeed
        (RX TX : Z) (env : Env) (pci : string) (mem : memory) (s0 : State)
        (pkts : list (Z * Z)) :
  ring_size TX ->
  initialize RX TX env (construct pci mem) = (true, s0) ->
  Z.of_nat (length pkts) < TX ->
  exists s',
    send_all TX pkts s0 = Ok (replicate (length pkts) true, s') /\
    packets_sent_ s' = packets_sent_ s0 + Z.of_nat (length pkts).
Proof.
  intros HN Hinit Hlen.
  pose proof (fresh_device_tx RX TX env pci mem s0 HN Hinit) as Hfresh.
  destruct (send_all_on_fresh TX pkts HN 0 s0 Hfresh) as (s' & Hall & Hfresh');
    [lia|].
  exists s'. split; [exact Hall|].
  destruct Hfresh as (_ & _ & _ & Hsent0 & _).
  destruct Hfresh' as (_ & _ & _ & Hsent' & _).
  rewrite Hsent0, Hsent'. reflexivity.
Qed.

Lemma ring_size_2048 : ring_size RING_SIZE.
Proof. exists 11. split; [lia|reflexivity]. Qed.

Lemma ring_size_8 : ring_size 8.
Proof. exists 3. split; [lia|reflexivity]. Qed.

Lemma initialize_device8 :
  initialize 8 8 env_ok (construct "0000:01:00.0" pattern_memory) = (true, device8).
Proof. vm_compute. reflexivity. Qed.

Lemma initialize_device2048 :
  initialize RING_SIZE RING_SIZE env_ok (construct "0000:01:00.0" pattern_memory)
  = (true, device2048).
Proof. vm_compute. reflexivity. Qed.

Lemma sends_below_capacity_succeed_witness :
  exists s',
    send_all RING_SIZE [(0x1000, 60); (0x2000, 64); (0x3000, 1500)] device2048
    = Ok ([true; true; true], s') /\
    packets_sent_ s' = packets_sent_ device2048 + 3.
Proof.
  apply (sends_below_capacity_succeed RING_SIZE RING_SIZE env_ok
           "0000:01:00.0" pattern_memory device2048
           [(0x1000, 60); (0x2000, 64); (0x3000, 1500)]).
  - exact ring_size_2048.
  - exact initialize_device2048.
  - vm_compute. reflexivity.
Defined.

(** C1, as the code has it. With a TX ring of 8 descriptors a fresh device
    takes 7 packets: each of the first 7 calls of [send_packet] returns
    [true], and the 8th returns [false] and changes nothing.  Once the
    device has set DD in descriptor 0, the retry returns [true]; it moves
    [tx_head_] past descriptor 0 and puts the packet into slot 7, the slot
    no earlier send has used, and [tx_tail_] wraps to 0.  After every
    step [packets_sent_] is the number of calls that returned [true]. *)
Theorem ring_of_eight_scenario
        (RX : Z) (env : Env) (pci : string) (mem : memory) (s0 : State)
        (pkts : list (Z * Z)) (d8 l8 d9 l9 : Z) :
  initialize RX 8 env (construct pci mem) = (true, s0) ->
  length pkts = 7%nat ->
  (forall k : nat, (k <= 7)%nat ->
     exists sk, send_all 8 (take k pkts) s0 = Ok (replicate k true, sk) /\
                packets_sent_ sk = Z.of_nat k) /\
  exists s7 s8,
    send_all 8 pkts s0 = Ok (replicate 7 true, s7) /\
    packets_sent_ s7 = 7 /\
    send_packet 8 d8 l8 s7 = Ok (false, s7) /\
    send_packet 8 d9 l9 (hw_complete_tx 0 s7) = Ok (true, s8) /\
    packets_sent_ s8 = 8 /\
    tx_head_ s8 = 1 /\ tx_tail_ s8 = 0 /\
    tx_descs s8 !! 7%nat =
      Some (mkTxDescriptor (get_physical_addr (tx_slot s7 7))
                           (Z.lor l9 DESC_STATUS_EOP) 0) /\
    (forall a, ~ in_range (tx_slot s7 7) l9 a -> bytes s8 a = bytes s7 a) /\
    (0 <= l9 -> forward_safe (tx_slot s7 7) d9 l9 ->
     forall a, in_range (tx_slot s7 7) l9 a ->
               bytes s8 a = bytes s7 (d9 + (a - tx_slot s7 7))).
Proof.
  intros Hinit Hlen.
  pose proof (fresh_device_tx RX 8 env pci mem s0 ring_size_8 Hinit) as Hfresh.
  split.
  - intros k Hk.
    destruct (send_all_on_fresh 8 (take k pkts) ring_size_8 0 s0 Hfresh)
      as (sk & Hall & Hfreshk).
    { rewrite length_take. lia. }
    rewrite length_take, Hlen, Nat.min_l in Hall, Hfreshk by lia.
    exists sk. split; [exact Hall|].
    destruct Hfreshk as (_ & _ & _ & Hsent & _). rewrite Hsent. lia.
  - destruct (send_all_on_fresh 8 pkts ring_size_8 0 s0 Hfresh)
      as (s7 & Hall & Hfresh7); [lia|].
    rewrite Hlen in Hall, Hfresh7. change (0 + Z.of_nat 7) with (8 - 1) in Hfresh7.
    destruct (send_after_first_completion 8 d9 l9 s7 ring_size_8 ltac:(lia) Hfresh7)
      as (s8 & Hretry & Hhead8 & Heff).
    pose proof Hfresh7 as (Hwf7 & Hh7 & Ht7 & Hsent7 & Hnone7).
    destruct Heff as (Htail & Hcount & Hdescs & _ & Hframe & Hcontent & _).
    change (tx_tail_ (hw_complete_tx 0 s7)) with (tx_tail_ s7) in *.
    change (packets_sent_ (hw_complete_tx 0 s7)) with (packets_sent_ s7) in *.
    change (bytes (hw_complete_tx 0 s7)) with (bytes s7) in *.
    change (tx_slot (hw_complete_tx 0 s7) (tx_tail_ s7))
      with (tx_slot s7 (tx_tail_ s7)) in *.
    rewrite Ht7 in *. rewrite Hsent7 in *.
    change (8 - 1) with 7 in *.
    exists s7, s8.
    split; [exact Hall|]. split; [exact Hsent7|].
    split; [exact (send_on_full_fresh 8 d8 l8 s7 ring_size_8 Hfresh7)|].
    split; [exact Hretry|].
    split; [rewrite Hcount; reflexivity|].
    split; [exact Hhead8|]. split; [rewrite Htail; reflexivity|].
    split.
    { rewrite Hdescs. apply list_lookup_insert_eq.
      unfold hw_complete_tx. cbn [tx_descs set_tx_descs].
      rewrite length_alter. destruct Hwf7 as (Hl & _). rewrite Hl. lia. }
    split; [exact Hframe|].
    intros Hl9 Hsafe a Ha. rewrite (Hcontent Hl9 Hsafe a).
    apply copied_inside. exact Ha.
Qed.

(** C1, as stated, fails: on a fresh device with a TX ring of 8
    descriptors it is not the case that 8 sends in a row all succeed. The
    8th is already refused. *)
Lemma ring_of_eight_eighth_send_refused :
  initialize 8 8 env_ok (construct "0000:01:00.0" pattern_memory) = (true, device8) /\
  ~ exists s8,
      send_all 8 (replicate 8 (0x1000, 64)) device8 = Ok (replicate 8 true, s8).
Proof.
  split; [exact initialize_device8|].
  intros [s8 H].
  pose proof (f_equal (fun r => match r with
                                | Ok (oks, _) => oks
                                | _ => []
                                end) H) as E.
  vm_compute in E. discriminate E.
Qed.

Lemma ring_of_eight_scenario_witness :
  exists s7 s8,
    send_all 8 (replicate 7 (0x1000, 64)) device8 = Ok (replicate 7 true, s7) /\
    send_packet 8 0x1000 64 s7 = Ok (false, s7) /\
    send_packet 8 0x1000 64 (hw_complete_tx 0 s7) = Ok (true, s8) /\
    packets_sent_ s8 = 8 /\ tx_head_ s8 = 1 /\ tx_tail_ s8 = 0.
Proof.
  destruct (ring_of_eight_scenario 8 env_ok "0000:01:00.0" pattern_memory
              device8 (replicate 7 (0x1000, 64)) 0x1000 64 0x1000 64
              initialize_device8 eq_refl)
    as (_ & s7 & s8 & H1 & _ & H2 & H3 & H4 & H5 & H6 & _).
  exists s7, s8. repeat split; assumption.
Defined.

(** C4. [send_packet] takes the ring for full when the masked successor of
    [tx_tail_] equals [tx_head_].  With room it sends and leaves [tx_head_]
    alone.  When full it reclaims first: [tx_head_] moves past the [r]
    leading descriptors of the outstanding window that have DD set, where
    [r] is maximal (the window is exhausted, or the next descriptor has DD
    clear).  If that frees nothing, the call returns [false] and the state
    is exactly what it was; otherwise the packet is sent. *)
Theorem send_reclaims_then_reports_full (N data length : Z) (s : State) :
  ring_size N -> tx_wf N s ->
  Z.land (wrap32 (tx_tail_ s + 1)) (N - 1) = (tx_tail_ s + 1) mod N /\
  ((tx_tail_ s + 1) mod N <> tx_head_ s ->
   exists s',
     send_packet N data length s = Ok (true, s') /\
     tx_head_ s' = tx_head_ s /\
     send_effect N data length s s') /\
  ((tx_tail_ s + 1) mod N = tx_head_ s ->
   exists r,
     0 <= r <= N - 1 /\
     (forall j, 0 <= j < r ->
        dd_set (tx_status_at s ((tx_head_ s + j) mod N)) = true) /\
     (r = N - 1 \/ dd_set (tx_status_at s ((tx_head_ s + r) mod N)) = false) /\
     reclaim_tx_descriptors N s = Ok (set_tx_head ((tx_head_ s + r) mod N) s) /\
     ((r = 0 /\ send_packet N data length s = Ok (false, s)) \/
      (0 < r /\
       exists s',
         send_packet N data length s = Ok (true, s') /\
         tx_head_ s' = (tx_head_ s + r) mod N /\
         send_effect N data length s s'))).
Proof.
  intros HN Hwf. pose proof Hwf as (Hlen & Hh & Ht).
  split; [apply advance_mod; assumption|].
  split; [intros Hroom; apply send_packet_room; assumption|].
  intros Hfull.
  destruct (send_packet_full N data length s HN Hwf Hfull)
    as (r & Hr & Hall & Hstop & Hres).
  destruct (reclaim_tx_descriptors_spec N s HN Hwf)
    as (r' & Hr' & Hrec & Hall' & Hstop').
  pose proof (ring_size_pos N HN) as HNpos.
  assert (Hdist : (tx_tail_ s - tx_head_ s) mod N = N - 1).
  { rewrite sub_mod_cases by lia. rewrite succ_mod in Hfull by lia.
    destruct (tx_tail_ s + 1 =? N) eqn:E1, (tx_head_ s <=? tx_tail_ s) eqn:E2; lia. }
  rewrite Hdist in Hr', Hstop'.
  (* the run length is determined by the descriptors *)
  assert (r' = r) as ->.
  { destruct (Z.lt_trichotomy r' r) as [Hlt|[Heq|Hgt]]; [exfalso|exact Heq|exfalso].
    - destruct Hstop' as [->|Hclear]; [lia|].
      rewrite (Hall r') in Hclear by lia. discriminate.
    - destruct Hstop as [->|Hclear]; [lia|].
      rewrite (Hall' r) in Hclear by lia. discriminate. }
  exists r. repeat split; try assumption; lia.
Qed.

Lemma device8_full_wf : tx_wf 8 device8_full.
Proof. vm_compute. repeat split; congruence. Qed.

Lemma send_reclaims_then_reports_full_witness :
  send_packet 8 0x1000 64 device8_full = Ok (false, device8_full).
Proof.
  destruct (send_reclaims_then_reports_full 8 0x1000 64 device8_full
              ring_size_8 device8_full_wf)
    as (_ & _ & Hfull).
  destruct Hfull as (r & _ & Hall & _ & _ & [[_ H]|[Hpos _]]).
  - vm_compute. reflexivity.
  - exact H.
  - specialize (Hall 0 ltac:(lia)). vm_compute in Hall. discriminate Hall.
Defined.

(* ===================================================================== *)
(** * Receive *)

Lemma rx_doorbell_value (N h : Z) :
  ring_size N -> 0 <= h < N ->
  wrap32 (Z.land (wrap32 ((h + 1) mod N - 1)) (N - 1)) = h.
Proof.
  intros HN Hh. pose proof (ring_size_pos N HN) as HNpos.
  pose proof (mod_range N (h + 1) ltac:(lia)) as Hh'.
  rewrite retreat_mod by assumption.
  assert (((h + 1) mod N - 1) mod N = h) as ->.
  { rewrite succ_mod by lia. destruct (h + 1 =? N) eqn:E.
    - symmetry. apply Z.mod_unique_pos with (q := -1); lia.
    - replace (h + 1 - 1) with h by lia. apply Z.mod_small. lia. }
  apply wrap32_small. lia.
Qed.

(** C3, as the code has it. [receive_packet] looks at the descriptor under
    [rx_head_].  DD clear: it returns [false] at once and the state is
    exactly what it was (cursor, counter, descriptors, trace of register
    writes).  DD set: it returns [true] with the address of the buffer slot
    of that index and the descriptor's [length]; it has then written 0 to
    the descriptor's status, advanced [rx_head_] by masked increment,
    written the old head to [REG_RX_DESC_TAIL] and incremented
    [packets_received_].  That register write is the only event: the
    function calls no packet handler, the caller gets the buffer through
    the out-parameters. *)
Theorem receive_packet_contract (N : Z) (s : State) :
  ring_size N -> rx_wf N s ->
  exists desc,
    rx_descs s !! Z.to_nat (rx_head_ s) = Some desc /\
    (dd_set (rxd_status desc) = false -> receive_packet N s = Ok (None, s)) /\
    (dd_set (rxd_status desc) = true ->
     exists s',
       receive_packet N s =
         Ok (Some (rx_buffers_ s + wrap32 (rx_head_ s * MAX_PACKET_SIZE),
                   rxd_length desc), s') /\
       rx_descs s' = <[Z.to_nat (rx_head_ s) := set_rxd_status 0 desc]> (rx_descs s) /\
       rx_head_ s' = (rx_head_ s + 1) mod N /\
       rx_head_ s' = Z.land (wrap32 (rx_head_ s + 1)) (N - 1) /\
       trace s' = trace s ++ [RegWrite REG_RX_DESC_TAIL (rx_head_ s)] /\
       count_events is_CallHandler (trace s') = count_events is_CallHandler (trace s) /\
       packets_received_ s' = wrap64 (packets_received_ s + 1) /\
       same_object s s' /\ same_tx s s' /\ bytes s' = bytes s).
Proof.
  intros HN (Hlen & Hh). pose proof (ring_size_pos N HN) as HNpos.
  destruct (at_index_in_range (rx_descs s) (rx_head_ s)) as (desc & Hd & Hat);
    [rewrite Hlen; lia|].
  exists desc. split; [exact Hd|].
  unfold receive_packet. rewrite Hat. cbn [bind]. unfold dd_set.
  split.
  - intros Hclear.
    destruct (Z.land (rxd_status desc) DESC_STATUS_DD =? 0); [reflexivity|discriminate].
  - intros Hset.
    destruct (Z.land (rxd_status desc) DESC_STATUS_DD =? 0); [discriminate|].
    eexists. split; [reflexivity|].
    unfold same_object, same_tx, write_reg, emit. cbn.
    rewrite advance_mod by assumption.
    rewrite rx_doorbell_value by assumption.
    fold (count_events is_CallHandler
            (trace s ++ [RegWrite REG_RX_DESC_TAIL (rx_head_ s)])).
    rewrite count_events_app, count_events_one. cbn [is_CallHandler].
    repeat split; try reflexivity. lia.
Qed.

Lemma device8_rx_wf : rx_wf 8 (hw_complete_rx 0 60 device8).
Proof. vm_compute. split; [reflexivity|split; congruence]. Qed.

Lemma device8_rx_dd (desc : RxDescriptor) :
  rx_descs (hw_complete_rx 0 60 device8)
    !! Z.to_nat (rx_head_ (hw_complete_rx 0 60 device8)) = Some desc ->
  dd_set (rxd_status desc) = true.
Proof. intros Hd. vm_compute in Hd. injection Hd as <-. reflexivity. Qed.

Lemma receive_packet_contract_witness :
  exists desc s',
    rx_descs (hw_complete_rx 0 60 device8)
      !! Z.to_nat (rx_head_ (hw_complete_rx 0 60 device8)) = Some desc /\
    receive_packet 8 (hw_complete_rx 0 60 device8) =
      Ok (Some (rx_buffers_ (hw_complete_rx 0 60 device8)
                + wrap32 (rx_head_ (hw_complete_rx 0 60 device8) * MAX_PACKET_SIZE),
                rxd_length desc), s') /\
    rx_head_ s' = (rx_head_ (hw_complete_rx 0 60 device8) + 1) mod 8.
Proof.
  destruct (receive_packet_contract 8 (hw_complete_rx 0 60 device8)
              ring_size_8 device8_rx_wf) as (desc & Hd & _ & Hset).
  destruct (Hset (device8_rx_dd desc Hd)) as (s' & Hrecv & _ & Hhead & _).
  exists desc, s'. split; [exact Hd|]. split; [exact Hrecv|exact Hhead].
Defined.

(** C3, as stated, fails: a packet is received and handed out, and the
    trace of [receive_packet] holds no call of a packet handler. *)
Lemma receive_packet_calls_no_handler :
  match receive_packet 8 (hw_complete_rx 0 60 device8) with
  | Ok (Some (packet, len), s') =>
      len = 60 /\ forall buffer n, ~ In (CallHandler buffer n) (trace s')
  | _ => False
  end.
Proof.
  vm_compute. split; [reflexivity|].
  intros buffer n H.
  repeat (destruct H as [H|H]; [discriminate H|]). exact H.
Qed.

(* ===================================================================== *)
(** * Bring-up and tear-down *)

Lemma register_traffic_no_alloc (e : Event) :
  is_register_traffic e = true -> is_AlignedAlloc e = false.
Proof. destruct e; simpl; congruence. Qed.

(** C6. The reset wait of [initialize] is bounded whatever the device does:
    [reset_device] and [initialize] are total, and no run polls [REG_CTRL]
    more than 1000 times.  If the reset bit never clears, [reset_device]
    returns [false] after exactly 1000 polls, and [initialize] (with the
    register window mapped) returns [false] there, before any allocation. *)
Theorem reset_wait_is_bounded (RX TX : Z) (env : Env) (s : State) :
  (count_events is_poll (trace (snd (reset_device env s)))
   <= count_events is_poll (trace s) + 1000)%nat /\
  (count_events is_poll (trace (snd (initialize RX TX env s)))
   <= count_events is_poll (trace s) + 1000)%nat /\
  (reset_never_clears env ->
   (fst (reset_device env s) = false /\
    count_events is_poll (trace (snd (reset_device env s)))
    = (count_events is_poll (trace s) + 1000)%nat) /\
   (0 <= env_open env -> env_mmap env <> MAP_FAILED ->
    fst (initialize RX TX env s) = false /\
    count_events is_poll (trace (snd (initialize RX TX env s)))
    = (count_events is_poll (trace s) + 1000)%nat /\
    count_events is_AlignedAlloc (trace (snd (initialize RX TX env s)))
    = count_events is_AlignedAlloc (trace s) /\
    initialized_ (snd (initialize RX TX env s)) = initialized_ s)).
Proof.
  split; [|split].
  - destruct (reset_device_shape env s) as (evs & Hs & _ & Hpolls & _).
    rewrite Hs. cbn [trace set_trace set_n_reads]. rewrite count_events_app.
    unfold RESET_RETRIES in Hpolls. lia.
  - destruct s. initialize_paths env evs Hquiet Hpolls Hstuck;
      count_trace; unfold RESET_RETRIES in *; lia.
  - intros Hnc. split.
    + destruct (reset_device_shape env s) as (evs & Hs & _ & _ & Hstuck).
      destruct (Hstuck Hnc) as [Hf Hc]. split; [exact Hf|].
      rewrite Hs. cbn [trace set_trace set_n_reads]. rewrite count_events_app, Hc. reflexivity.
    + intros Hfd Hmap. destruct s.
      initialize_paths env evs Hquiet Hpolls Hstuck;
        try (exfalso; lia);
        try (destruct (Hstuck Hnc) as [Hf _]; discriminate Hf).
      destruct (Hstuck Hnc) as [_ Hc].
      split; [reflexivity|]. split; [|split; [|reflexivity]].
      * count_trace. rewrite Hc. unfold RESET_RETRIES. lia.
      * count_trace.
        rewrite (count_events_none is_AlignedAlloc is_register_traffic evs Hquiet
                   register_traffic_no_alloc). lia.
Qed.

Lemma env_stuck_reset_never_clears : reset_never_clears env_stuck_reset.
Proof. intros k. vm_compute. discriminate. Qed.

Lemma reset_wait_is_bounded_witness :
  fst (initialize RING_SIZE RING_SIZE env_stuck_reset
         (construct "0000:01:00.0" pattern_memory)) = false /\
  count_events is_poll
    (trace (snd (initialize RING_SIZE RING_SIZE env_stuck_reset
                   (construct "0000:01:00.0" pattern_memory))))
  = (count_events is_poll (trace (construct "0000:01:00.0" pattern_memory)) + 1000)%nat.
Proof.
  destruct (reset_wait_is_bounded RING_SIZE RING_SIZE env_stuck_reset
              (construct "0000:01:00.0" pattern_memory))
    as (_ & _ & Hstuck).
  destruct (Hstuck env_stuck_reset_never_clears) as (_ & Hinit).
  destruct Hinit as (Hf & Hc & _).
  - vm_compute. discriminate.
  - vm_compute. discriminate.
  - split; [exact Hf|exact Hc].
Defined.

Lemma emit_if (c : bool) (e : Event) (s : State) :
  (if c then emit e s else s) = set_trace (trace s ++ (if c then [e] else [])) s.
Proof. destruct c, s; cbn; rewrite ?app_nil_r; reflexivity. Qed.

(** [cleanup] only adds to the trace, and what it adds depends on fields
    it does not assign. *)
Lemma cleanup_shape (s : State) :
  cleanup s = set_trace (trace s ++ cleanup_events s) s.
Proof.
  unfold cleanup, cleanup_events. cbv zeta.
  destruct (initialized_ s) eqn:Einit.
  - unfold write_reg. rewrite !emit_if.
    destruct s as [pci b0 bsz rxr txr rxb txb rxh txh txt pr ps ini rxd txd mem tr nr na].
    cbn [emit set_trace trace bar0_base_ bar0_size_ rx_ring_ tx_ring_
         rx_buffers_ tx_buffers_].
    rewrite <- !app_assoc. reflexivity.
  - rewrite !emit_if.
    destruct s as [pci b0 bsz rxr txr rxb txb rxh txh txt pr ps ini rxd txd mem tr nr na].
    cbn [emit set_trace trace bar0_base_ bar0_size_ rx_ring_ tx_ring_
         rx_buffers_ tx_buffers_].
    rewrite <- !app_assoc. reflexivity.
Qed.

Lemma register_traffic_counts (p : Z) (evs : list Event) :
  Forall (fun e => is_register_traffic e = true) evs ->
  count_events is_AlignedAlloc evs = 0%nat /\
  count_events (is_Free_of p) evs = 0%nat /\
  count_events (is_Alloc_of p) evs = 0%nat /\
  count_events (is_Mmap_of p) evs = 0%nat /\
  count_events (is_Munmap_of p) evs = 0%nat.
Proof.
  intros H.
  repeat split;
    apply (count_events_none _ is_register_traffic evs H);
    intros e He; destruct e; simpl in *; congruence.
Qed.

(** Brings the counts of one kind of call over a written-out trace, and
    the allocator indices in it, to sums of literal terms. *)
Ltac use_tests :=
  repeat match goal with
         | H : (?a =? ?b) = _ |- context [?a =? ?b] => rewrite H
         | H : (?a <? ?b) = _ |- context [?a <? ?b] => rewrite H
         end;
  cbn [negb andb]; rewrite ?andb_true_r, ?andb_false_r.

Ltac settle_counts p :=
  change (nullptr =? nullptr) with true;
  use_tests;
  repeat match goal with H : (_ =? _) = _ |- _ => revert H end;
  try match goal with
      | Hquiet : Forall (fun e => is_register_traffic e = true) ?evs |- _ =>
          let Ha := fresh in
          let Hf := fresh in
          let Hal := fresh in
          let Hm := fresh in
          let Hu := fresh in
          destruct (register_traffic_counts p evs Hquiet) as (Ha & Hf & Hal & Hm & Hu);
          count_trace; rewrite ?Ha, ?Hf, ?Hal, ?Hm, ?Hu;
          clear Ha Hf Hal Hm Hu Hquiet
      end;
  count_trace; cbn [Nat.add];
  intros;
  use_tests.

(** C5, as the code has it. After the constructor and one call of
    [initialize], however far that call got, one run of [cleanup] (the
    destructor) releases every ring and buffer region that was allocated
    and unmaps the register window if it was mapped: frees and successful
    allocations balance address by address, so do unmaps and successful
    maps, and with an allocator that hands out distinct blocks no address
    is freed twice.  On an initialized device the two enable registers are
    written with 0 first. *)
Theorem teardown_releases_what_initialize_took
        (RX TX : Z) (env : Env) (pci : string) (mem : memory) :
  env_mmap env <> nullptr ->
  balanced (trace (cleanup (snd (initialize RX TX env (construct pci mem))))) /\
  (initialized_ (snd (initialize RX TX env (construct pci mem))) = true ->
   In (RegWrite REG_RX_CTRL 0)
      (trace (cleanup (snd (initialize RX TX env (construct pci mem))))) /\
   In (RegWrite REG_TX_CTRL 0)
      (trace (cleanup (snd (initialize RX TX env (construct pci mem)))))) /\
  (fresh_allocator env ->
   forall p,
     (count_events (is_Free_of p)
        (trace (cleanup (snd (initialize RX TX env (construct pci mem))))) <= 1)%nat).
Proof.
  intros Hmm. rewrite cleanup_shape.
  assert (Hmm' : (env_mmap env =? nullptr) = false) by lia.
  split; [|split].
  - initialize_paths env evs Hquiet Hpolls Hstuck; try clear Hpolls Hstuck;
      unfold cleanup_events; run_driver;
      intros p; split; settle_counts p; lia.
  - initialize_paths env evs Hquiet Hpolls Hstuck;
      intros Hinit; try discriminate Hinit.
    unfold cleanup_events; run_driver. cbn iota.
    change (wrap32 0) with 0.
    split; apply in_or_app; right; apply in_or_app; left; simpl; tauto.
  - intros Hfresh p.
    initialize_paths env evs Hquiet Hpolls Hstuck; try clear Hpolls Hstuck;
      unfold cleanup_events; run_driver;
      settle_counts p; try lia.
    all: repeat match goal with
                | H : (env_aligned_alloc _ _ =? nullptr) = false |- _ =>
                    apply Z.eqb_neq in H
                end.
    all: pose proof (Hfresh 0%nat 1%nat ltac:(lia)) as F01;
         pose proof (Hfresh 0%nat 2%nat ltac:(lia)) as F02;
         pose proof (Hfresh 0%nat 3%nat ltac:(lia)) as F03;
         pose proof (Hfresh 1%nat 2%nat ltac:(lia)) as F12;
         pose proof (Hfresh 1%nat 3%nat ltac:(lia)) as F13;
         pose proof (Hfresh 2%nat 3%nat ltac:(lia)) as F23.
    all: repeat match goal with
                | |- context [env_aligned_alloc ?e ?i =? ?q] =>
                    destruct (env_aligned_alloc e i =? q) eqn:?
                end; cbn iota; cbn [Nat.add]; try (apply Nat.le_refl || apply Nat.le_0_l).
    all: exfalso;
         repeat match goal with
                | H : (_ =? _) = true |- _ => apply Z.eqb_eq in H
                end;
         match goal with
         | F : ?a <> nullptr -> ?a <> ?b, Hn : ?a <> nullptr |- _ =>
             apply (F Hn); congruence
         end.
Qed.

Lemma env_ok_mmap : env_mmap env_ok <> nullptr.
Proof. vm_compute. discriminate. Qed.

Lemma teardown_releases_what_initialize_took_witness :
  balanced (trace (cleanup (snd (initialize 8 8 env_ok
                                   (construct "0000:01:00.0" pattern_memory))))).
Proof.
  destruct (teardown_releases_what_initialize_took 8 8 env_ok
              "0000:01:00.0" pattern_memory env_ok_mmap) as (Hbal & _).
  exact Hbal.
Defined.

(** C5, as stated, fails: [cleanup] keeps the pointers it has released, so
    a second run releases the same regions again.  On an initialized device
    the state after two runs differs from the state after one, and the RX
    ring is freed twice. *)
Lemma second_teardown_releases_again :
  initialized_ device8 = true /\
  cleanup (cleanup device8) <> cleanup device8 /\
  count_events (is_Free_of (rx_ring_ device8)) (trace (cleanup device8)) = 1%nat /\
  count_events (is_Free_of (rx_ring_ device8)) (trace (cleanup (cleanup device8)))
  = 2%nat /\
  ~ balanced (trace (cleanup (cleanup device8))).
Proof.
  assert (Hone : count_events (is_Free_of (rx_ring_ device8))
                   (trace (cleanup device8)) = 1%nat)
    by (vm_compute; reflexivity).
  assert (Htwo : count_events (is_Free_of (rx_ring_ device8))
                   (trace (cleanup (cleanup device8))) = 2%nat)
    by (vm_compute; reflexivity).
  assert (Hallocs : count_events (is_Alloc_of (rx_ring_ device8))
                      (trace (cleanup (cleanup device8))) = 1%nat)
    by (vm_compute; reflexivity).
  split; [vm_compute; reflexivity|].
  split.
  { intros Heq. rewrite Heq, Hone in Htwo. discriminate Htwo. }
  split; [exact Hone|]. split; [exact Htwo|].
  intros Hbal. destruct (Hbal (rx_ring_ device8)) as [Hfree _].
  rewrite Htwo, Hallocs in Hfree. discriminate Hfree.
Qed.

(* ===================================================================== *)
(** * Packet copies and addresses *)

(** [send_packet] always returns on a well-formed ring; [false] leaves the
    state as it was and [true] has the effect of one send. *)
Lemma send_packet_outcome (N data length : Z) (s : State) :
  ring_size N -> tx_wf N s ->
  send_packet N data length s = Ok (false, s) \/
  exists s', send_packet N data length s = Ok (true, s') /\
             send_effect N data length s s'.
Proof.
  intros HN Hwf.
  destruct (Z.eq_dec ((tx_tail_ s + 1) mod N) (tx_head_ s)) as [Hfull|Hroom].
  - destruct (send_packet_full N data length s HN Hwf Hfull)
      as (r & _ & _ & _ & [[_ H]|[_ (s' & H & _ & Heff)]]).
    + left. exact H.
    + right. exists s'. split; assumption.
  - destruct (send_packet_room N data length s HN Hwf Hroom) as (s' & H & _ & Heff).
    right. exists s'. split; assumption.
Qed.

Lemma send_packet_success_effect (N data length : Z) (s s' : State) :
  ring_size N -> tx_wf N s ->
  send_packet N data length s = Ok (true, s') ->
  send_effect N data length s s'.
Proof.
  intros HN Hwf Hsend.
  destruct (send_packet_outcome N data length s HN Hwf) as [H|(s'' & H & Heff)];
    rewrite H in Hsend.
  - discriminate Hsend.
  - injection Hsend as <-. exact Heff.
Qed.

(** C7, as the code has it. Whenever the destination does not start
    inside the source region (in particular whenever the two regions do
    not overlap), [neon_memcpy dst src n] returns and leaves the same
    memory as the plain byte-wise copy, and [dst .. dst+n) then holds the
    [n] source bytes.  So after a successful [send_packet] whose [data]
    does not overlap the TX slot in that way, the slot holds the caller's
    bytes, whether [length] is below 64 or not. *)
Theorem neon_memcpy_agrees_with_bytewise_copy :
  (forall (m : memory) (d s n : Z),
     0 <= n -> forward_safe d s n ->
     exists m',
       neon_memcpy m d s n = Ok m' /\
       (forall a, m' a = memcpy m d s n a) /\
       (forall i, 0 <= i < n -> m' (d + i) = m (s + i))) /\
  (forall (N data length : Z) (st st' : State),
     ring_size N -> tx_wf N st ->
     0 <= length ->
     forward_safe (tx_slot st (tx_tail_ st)) data length ->
     send_packet N data length st = Ok (true, st') ->
     forall i, 0 <= i < length ->
       bytes st' (tx_slot st (tx_tail_ st) + i) = bytes st (data + i)).
Proof.
  split.
  - intros m d s n Hn Hsafe.
    destruct (neon_memcpy_spec m d s n Hn Hsafe) as (m' & Heq & Hcopy).
    exists m'. split; [exact Heq|]. split.
    + intros a. rewrite Hcopy, memcpy_spec by assumption. reflexivity.
    + intros i Hi. rewrite Hcopy, copied_inside by (unfold in_range; lia).
      f_equal. lia.
  - intros N data length st st' HN Hwf Hlen Hsafe Hsend i Hi.
    destruct (send_packet_success_effect N data length st st' HN Hwf Hsend)
      as (_ & _ & _ & _ & _ & Hcontent & _).
    rewrite (Hcontent Hlen Hsafe), copied_inside by (unfold in_range; lia).
    f_equal. lia.
Qed.

Lemma neon_memcpy_agrees_with_bytewise_copy_witness :
  exists m',
    neon_memcpy pattern_memory 0x2000 0x1000 200 = Ok m' /\
    (forall a, m' a = memcpy pattern_memory 0x2000 0x1000 200 a).
Proof.
  destruct (proj1 neon_memcpy_agrees_with_bytewise_copy
              pattern_memory 0x2000 0x1000 200) as (m' & Heq & Hsame & _).
  - lia.
  - right. lia.
  - exists m'. split; [exact Heq|exact Hsame].
Defined.

(** C7, as stated, fails: with the destination one byte above the source,
    [neon_memcpy] and the byte-wise copy leave different bytes. *)
Lemma neon_memcpy_differs_on_overlap :
  match neon_memcpy pattern_memory 1 0 64 with
  | Ok m' => m' 2 <> memcpy pattern_memory 1 0 64 2
  | _ => False
  end.
Proof. vm_compute. discriminate. Qed.

(** C9. When [length] is at most [MAX_PACKET_SIZE], whatever
    [send_packet] writes into the byte memory lies inside the 9216-byte
    buffer slot of the producer index: every byte outside that slot, and
    so every byte of any other slot, is unchanged; the only descriptor
    written is the one at the producer index, and no RX descriptor.
    [send_packet] itself does not compare [length] with [MAX_PACKET_SIZE]:
    a call with [length = 9217] (a legal [uint16_t]) succeeds on the device
    as compiled and overwrites the first byte of the next slot. *)
Theorem send_copy_stays_in_slot :
  (forall (N data length : Z) (st : State) (ok : bool) (st' : State),
     ring_size N -> tx_wf N st ->
     0 <= length <= MAX_PACKET_SIZE ->
     send_packet N data length st = Ok (ok, st') ->
     (forall a, ~ in_range (tx_slot st (tx_tail_ st)) MAX_PACKET_SIZE a ->
                bytes st' a = bytes st a) /\
     (N * MAX_PACKET_SIZE <= 2 ^ 32 ->
      forall j a, 0 <= j < N -> j <> tx_tail_ st ->
                  in_range (tx_slot st j) MAX_PACKET_SIZE a ->
                  bytes st' a = bytes st a) /\
     (forall i : nat, i <> Z.to_nat (tx_tail_ st) ->
                      tx_descs st' !! i = tx_descs st !! i) /\
     rx_descs st' = rx_descs st) /\
  (MAX_PACKET_SIZE < 9217 <= 65535 /\
   match send_packet RING_SIZE 0x1001 9217 device2048 with
   | Ok (true, st') =>
       in_range (tx_slot device2048 (tx_tail_ device2048 + 1)) MAX_PACKET_SIZE
                (tx_slot device2048 (tx_tail_ device2048) + MAX_PACKET_SIZE) /\
       bytes st' (tx_slot device2048 (tx_tail_ device2048) + MAX_PACKET_SIZE)
       <> bytes device2048 (tx_slot device2048 (tx_tail_ device2048) + MAX_PACKET_SIZE)
   | _ => False
   end).
Proof.
  split.
  - intros N data length st ok st' HN Hwf Hlen Hsend.
    pose proof Hwf as (Hl & Hh & Ht).
    destruct (send_packet_outcome N data length st HN Hwf) as [H|(s'' & H & Heff)];
      rewrite H in Hsend; injection Hsend as <- <-.
    + repeat split; reflexivity.
    + destruct Heff as (_ & _ & Hdescs & _ & Hframe & _ & _ & (_ & _ & Hrx)).
      assert (Hout : forall a,
                 ~ in_range (tx_slot st (tx_tail_ st)) MAX_PACKET_SIZE a ->
                 bytes s'' a = bytes st a).
      { intros a Ha. apply Hframe. unfold in_range in *. lia. }
      split; [exact Hout|]. split; [|split; [|exact Hrx]].
      * intros Hfit j a Hj Hne Ha. apply Hout.
        unfold in_range, tx_slot, MAX_PACKET_SIZE in *.
        rewrite !wrap32_small in * by nia. nia.
      * intros i Hi. rewrite Hdescs. apply list_lookup_insert_ne. congruence.
  - split; [unfold MAX_PACKET_SIZE; lia|].
    vm_compute. split; [split; congruence|discriminate].
Qed.

Lemma device8_wf : tx_wf 8 device8.
Proof. vm_compute. repeat split; congruence. Qed.

Lemma send_copy_stays_in_slot_witness :
  exists ok st',
    send_packet 8 0x1000 MAX_PACKET_SIZE device8 = Ok (ok, st') /\
    bytes st' 0 = bytes device8 0.
Proof.
  assert (Hout : ~ in_range (tx_slot device8 (tx_tail_ device8)) MAX_PACKET_SIZE 0).
  { intros [H _]. vm_compute in H. apply H. reflexivity. }
  assert (Hlen : 0 <= MAX_PACKET_SIZE <= MAX_PACKET_SIZE)
    by (unfold MAX_PACKET_SIZE; lia).
  destruct (send_packet_outcome 8 0x1000 MAX_PACKET_SIZE device8 ring_size_8 device8_wf)
    as [H|(st' & H & _)].
  - exists false, device8. split; [exact H|].
    exact (proj1 (proj1 send_copy_stays_in_slot 8 0x1000 MAX_PACKET_SIZE device8
                    false device8 ring_size_8 device8_wf Hlen H) 0 Hout).
  - exists true, st'. split; [exact H|].
    exact (proj1 (proj1 send_copy_stays_in_slot 8 0x1000 MAX_PACKET_SIZE device8
                    true st' ring_size_8 device8_wf Hlen H) 0 Hout).
Defined.

(** What the loop of [allocate_rings] leaves in slot [j]. *)
Lemma setup_rx_descriptors_lookup (RX buffers : Z) (ring : list RxDescriptor) (j : nat) :
  (Z.of_nat j < RX) ->
  setup_rx_descriptors RX buffers ring !! j
  = set_rxd_buffer_addr
      (get_physical_addr (buffers + wrap32 (Z.of_nat j * MAX_PACKET_SIZE)))
    <$> ring !! j.
Proof.
  unfold setup_rx_descriptors. intros Hj.
  rewrite <- (Z2Nat.id RX) by lia.
  assert (Hj' : (j < Z.to_nat RX)%nat) by lia. clear Hj.
  induction (Z.to_nat RX) as [|n IH]; [lia|].
  rewrite seqZ_S, foldl_app. cbn [foldl]. rewrite Z.add_0_l, Nat2Z.id.
  destruct (Nat.eq_dec j n) as [->|Hne].
  - rewrite list_lookup_alter_eq.
    clear IH Hj'.
    assert (Hkeep : forall k : nat, (k <= n)%nat ->
              foldl (fun ring i =>
                       alter (set_rxd_buffer_addr
                                (get_physical_addr (buffers + wrap32 (i * MAX_PACKET_SIZE))))
                             (Z.to_nat i) ring)
                    ring (seqZ 0 (Z.of_nat k)) !! n = ring !! n).
    { induction k as [|k IHk]; intros Hk; [reflexivity|].
      rewrite seqZ_S, foldl_app. cbn [foldl]. rewrite Z.add_0_l, Nat2Z.id.
      rewrite list_lookup_alter_ne by lia. apply IHk. lia. }
    rewrite (Hkeep n (le_n _)).
    destruct (ring !! n) as [d|]; reflexivity.
  - rewrite list_lookup_alter_ne by congruence. apply IH. lia.
Qed.

(** C10. [get_physical_addr] returns the address it is given: the value
    stored in every RX descriptor's [buffer_addr], the value [send_packet]
    stores in the TX descriptor, and the two halves written to the ring
    base registers are the virtual addresses themselves.  Nothing is
    translated and nothing is validated. *)
Theorem physical_address_is_virtual_address :
  (forall v : Z, 0 <= v < 2 ^ 64 -> get_physical_addr v = v) /\
  (forall (RX TX : Z) (env : Env) (pci : string) (mem : memory) (s0 : State),
     initialize RX TX env (construct pci mem) = (true, s0) ->
     0 <= RX -> RX * MAX_PACKET_SIZE <= 2 ^ 32 ->
     0 <= rx_buffers_ s0 -> rx_buffers_ s0 + RX * MAX_PACKET_SIZE <= 2 ^ 64 ->
     0 <= rx_ring_ s0 < 2 ^ 64 -> 0 <= tx_ring_ s0 < 2 ^ 64 ->
     (forall i, 0 <= i < RX ->
        exists d, rx_descs s0 !! Z.to_nat i = Some d /\
                  rxd_buffer_addr d = rx_buffers_ s0 + i * MAX_PACKET_SIZE) /\
     In (RegWrite REG_RX_DESC_BASE_LO (Z.land (rx_ring_ s0) 0xFFFFFFFF)) (trace s0) /\
     In (RegWrite REG_RX_DESC_BASE_HI (Z.shiftr (rx_ring_ s0) 32)) (trace s0) /\
     In (RegWrite REG_TX_DESC_BASE_LO (Z.land (tx_ring_ s0) 0xFFFFFFFF)) (trace s0) /\
     In (RegWrite REG_TX_DESC_BASE_HI (Z.shiftr (tx_ring_ s0) 32)) (trace s0)) /\
  (forall (N data length : Z) (st st' : State),
     ring_size N -> tx_wf N st ->
     N * MAX_PACKET_SIZE <= 2 ^ 32 ->
     0 <= tx_buffers_ st -> tx_buffers_ st + N * MAX_PACKET_SIZE <= 2 ^ 64 ->
     send_packet N data length st = Ok (true, st') ->
     exists d, tx_descs st' !! Z.to_nat (tx_tail_ st) = Some d /\
               txd_buffer_addr d = tx_buffers_ st + tx_tail_ st * MAX_PACKET_SIZE).
Proof.
  assert (Hid : forall v : Z, 0 <= v < 2 ^ 64 -> get_physical_addr v = v)
    by (intros v Hv; apply wrap64_small; exact Hv).
  assert (Hlo : forall v, 0 <= v < 2 ^ 64 ->
                  wrap32 (Z.land (get_physical_addr v) 0xFFFFFFFF) = Z.land v 0xFFFFFFFF).
  { intros v Hv. rewrite Hid by exact Hv.
    change 0xFFFFFFFF with (Z.ones 32). rewrite Z.land_ones by lia.
    unfold wrap32. apply Z.mod_mod. lia. }
  assert (Hhi : forall v, 0 <= v < 2 ^ 64 ->
                  wrap32 (Z.shiftr (get_physical_addr v) 32) = Z.shiftr v 32).
  { intros v Hv. rewrite Hid by exact Hv. apply wrap32_small.
    rewrite Z.shiftr_div_pow2 by lia. split.
    - apply Z.div_pos; lia.
    - apply Z.div_lt_upper_bound; lia. }
  split; [exact Hid|]. split.
  - intros RX TX env pci mem s0 Hinit HRX Hfit Hb0 Hb1 Hrx Htx.
    destruct (initialize_ok_state _ _ _ _ _ _ Hinit)
      as (_ & _ & _ & _ & _ & _ & _ & _ & Hdescs & Hrlo & Hrhi & Htlo & Hthi).
    rewrite Hlo in Hrlo, Htlo by assumption.
    rewrite Hhi in Hrhi, Hthi by assumption.
    split; [|repeat split; assumption].
    intros i Hi. rewrite Hdescs.
    rewrite setup_rx_descriptors_lookup by lia.
    rewrite lookup_replicate_2 by lia. cbn [fmap option_fmap option_map].
    eexists. split; [reflexivity|]. cbn [rxd_buffer_addr set_rxd_buffer_addr].
    rewrite Z2Nat.id by lia. unfold MAX_PACKET_SIZE in *.
    rewrite wrap32_small by nia. apply Hid. nia.
  - intros N data length st st' HN Hwf Hfit Hb0 Hb1 Hsend.
    pose proof Hwf as (Hl & Hh & Ht).
    destruct (send_packet_success_effect N data length st st' HN Hwf Hsend)
      as (_ & _ & Hdescs & _).
    rewrite Hdescs. rewrite list_lookup_insert_eq by lia.
    eexists. split; [reflexivity|]. cbn [txd_buffer_addr].
    unfold tx_slot, MAX_PACKET_SIZE in *.
    rewrite wrap32_small by nia. apply Hid. nia.
Qed.

Lemma physical_address_is_virtual_address_witness :
  get_physical_addr (tx_buffers_ device2048) = tx_buffers_ device2048.
Proof.
  apply (proj1 physical_address_is_virtual_address).
  vm_compute. split; [discriminate|reflexivity].
Defined.

(* ===================================================================== *)
(** * Workloads, bring-up and tear-down *)

(** ** The hot path on well-formed rings *)

Lemma pred_succ_mod (N h : Z) :
  0 < N -> 0 <= h < N -> ((h + 1) mod N - 1) mod N = h.
Proof.
  intros HN Hh. rewrite succ_mod by lia. destruct (h + 1 =? N) eqn:E.
  - symmetry. apply Z.mod_unique_pos with (q := -1); lia.
  - replace (h + 1 - 1) with h by lia. apply Z.mod_small. lia.
Qed.

(** [receive_packet] on a well-formed ring: no packet and nothing changed,
    or the packet under the head and the effect of one receive. *)
Lemma receive_packet_outcome (N : Z) (s : State) :
  ring_size N -> rx_wf N s ->
  exists desc,
    rx_descs s !! Z.to_nat (rx_head_ s) = Some desc /\
    ((dd_set (rxd_status desc) = false /\ receive_packet N s = Ok (None, s)) \/
     (dd_set (rxd_status desc) = true /\
      exists s',
        receive_packet N s = Ok (Some (rx_slot s (rx_head_ s), rxd_length desc), s') /\
        receive_effect N s s')).
Proof.
  intros HN (Hlen & Hh). pose proof (ring_size_pos N HN) as HNpos.
  destruct (at_index_in_range (rx_descs s) (rx_head_ s)) as (desc & Hd & Hat);
    [rewrite Hlen; lia|].
  exists desc. split; [exact Hd|].
  unfold receive_packet. rewrite Hat. cbn [bind]. unfold dd_set.
  destruct (Z.land (rxd_status desc) DESC_STATUS_DD =? 0).
  - left. split; reflexivity.
  - right. split; [reflexivity|]. eexists. split; [reflexivity|].
    unfold receive_effect, same_object, same_tx, write_reg, emit. cbn.
    rewrite advance_mod by assumption.
    rewrite rx_doorbell_value by assumption.
    repeat split; try reflexivity. exists desc. split; [exact Hd|reflexivity].
Qed.

Lemma receive_effect_wf (RX TX : Z) (s s' : State) :
  ring_size RX -> rx_wf RX s -> tx_wf TX s -> receive_effect RX s s' ->
  rx_wf RX s' /\ tx_wf TX s'.
Proof.
  intros HN (Hlen & Hh) (Htl & Hth & Htt)
         (Hhead & _ & (desc & _ & Hdescs) & _ & _ & _ & (H1 & H2 & _ & H4)).
  pose proof (ring_size_pos RX HN) as HNpos.
  unfold rx_wf, tx_wf. rewrite Hhead, Hdescs, length_insert, H1, H2, H4.
  repeat split; try assumption; try lia; apply mod_range; lia.
Qed.

(** [send_packet] keeps both rings well-formed, whatever it answers. *)
Lemma send_packet_wf (RX TX data length : Z) (s : State) (ok : bool) (s' : State) :
  ring_size TX -> rx_wf RX s -> tx_wf TX s ->
  send_packet TX data length s = Ok (ok, s') ->
  rx_wf RX s' /\ tx_wf TX s'.
Proof.
  intros HN Hrx Hwf Hsend. pose proof (ring_size_pos TX HN) as HNpos.
  assert (Hcases : (ok = false /\ s' = s) \/
                   (send_effect TX data length s s' /\ 0 <= tx_head_ s' < TX)).
  { pose proof Hwf as (_ & Hh & _).
    destruct (Z.eq_dec ((tx_tail_ s + 1) mod TX) (tx_head_ s)) as [Hfull|Hroom].
    - destruct (send_packet_full TX data length s HN Hwf Hfull)
        as (r & _ & _ & _ & [[_ H]|[_ (s'' & H & Hhead & Heff)]]);
        rewrite H in Hsend; injection Hsend as <- <-.
      + left. split; reflexivity.
      + right. split; [exact Heff|]. rewrite Hhead. apply mod_range. lia.
    - destruct (send_packet_room TX data length s HN Hwf Hroom) as (s'' & H & Hhead & Heff).
      rewrite H in Hsend; injection Hsend as <- <-.
      right. split; [exact Heff|]. rewrite Hhead. exact Hh. }
  destruct Hcases as [[_ ->]|[Heff Hhead]]; [split; assumption|].
  split; [|eapply send_effect_wf; eauto].
  destruct Heff as (_ & _ & _ & _ & _ & _ & _ & (H1 & _ & H3)).
  destruct Hrx as (Hl & Hh). unfold rx_wf. rewrite H1, H3. split; assumption.
Qed.

Lemma hw_steps_wf (RX TX i len : Z) (s : State) :
  rx_wf RX s -> tx_wf TX s ->
  (rx_wf RX (hw_complete_tx i s) /\ tx_wf TX (hw_complete_tx i s)) /\
  (rx_wf RX (hw_complete_rx i len s) /\ tx_wf TX (hw_complete_rx i len s)).
Proof.
  intros (Hl & Hh) (Htl & Hth & Htt).
  unfold rx_wf, tx_wf, hw_complete_tx, hw_complete_rx. cbn.
  rewrite !length_alter. repeat split; try assumption; lia.
Qed.

(** One step of a workload keeps the rings well-formed and has a defined
    result. *)
Lemma step_wf (RX TX : Z) (c : Call) (s : State) :
  ring_size RX -> ring_size TX -> rx_wf RX s -> tx_wf TX s ->
  exists a s', step RX TX c s = Ok (a, s') /\ rx_wf RX s' /\ tx_wf TX s'.
Proof.
  intros HRX HTX Hrx Htx. destruct c as [data length| |i|i len]; cbn [step].
  - destruct (send_packet_outcome TX data length s HTX Htx) as [H|(s' & H & _)];
      pose proof (send_packet_wf RX TX data length s _ _ HTX Hrx Htx H) as Hwf;
      rewrite H; cbn [bind]; eauto.
  - destruct (receive_packet_outcome RX s HRX Hrx)
      as (desc & _ & [[_ H]|[_ (s' & H & Heff)]]); rewrite H; cbn [bind].
    + eauto.
    + destruct (receive_effect_wf RX TX s s' HRX Hrx Htx Heff). eauto.
  - destruct (hw_steps_wf RX TX i 0 s Hrx Htx) as [[? ?] _]. eauto.
  - destruct (hw_steps_wf RX TX i len s Hrx Htx) as [_ [? ?]]. eauto.
Qed.

Lemma run_wf (RX TX : Z) (cs : list Call) :
  ring_size RX -> ring_size TX ->
  forall s, rx_wf RX s -> tx_wf TX s ->
    exists answers s',
      run RX TX cs s = Ok (answers, s') /\
      length answers = length cs /\ rx_wf RX s' /\ tx_wf TX s'.
Proof.
  intros HRX HTX. induction cs as [|c cs IH]; intros s Hrx Htx.
  - exists [], s. split; [reflexivity|]. split; [reflexivity|]. split; assumption.
  - destruct (step_wf RX TX c s HRX HTX Hrx Htx) as (a & s1 & Hstep & Hrx1 & Htx1).
    destruct (IH s1 Hrx1 Htx1) as (answers & s' & Hrun & Hlen & Hrx' & Htx').
    exists (a :: answers), s'. cbn [run]. rewrite Hstep. cbn [bind].
    rewrite Hrun. cbn [bind]. cbn [length]. rewrite Hlen.
    split; [reflexivity|]. split; [reflexivity|]. split; assumption.
Qed.

Lemma setup_rx_descriptors_length (RX buffers : Z) (ring : list RxDescriptor) :
  length (setup_rx_descriptors RX buffers ring) = length ring.
Proof.
  unfold setup_rx_descriptors. generalize (seqZ 0 RX). intros l. revert ring.
  induction l as [|i l IH]; intros ring; [reflexivity|].
  cbn [foldl]. rewrite IH, length_alter. reflexivity.
Qed.

(** A device that [initialize] has brought up has two well-formed rings. *)
Lemma fresh_device_wf (RX TX : Z) (env : Env) (pci : string) (mem : memory)
      (s0 : State) :
  ring_size RX -> ring_size TX ->
  initialize RX TX env (construct pci mem) = (true, s0) ->
  rx_wf RX s0 /\ tx_wf TX s0.
Proof.
  intros HRX HTX Hinit. pose proof (ring_size_pos RX HRX).
  destruct (fresh_device_tx RX TX env pci mem s0 HTX Hinit) as (Htx & _).
  split; [|exact Htx].
  destruct (initialize_ok_state _ _ _ _ _ _ Hinit)
    as (Hh & _ & _ & _ & _ & _ & _ & _ & Hdescs & _).
  unfold rx_wf. rewrite Hh, Hdescs, setup_rx_descriptors_length, length_replicate.
  split; [reflexivity|lia].
Qed.



Lemma workload8_runs :
  exists answers s', run 8 8 workload8 device8 = Ok (answers, s').
Proof.
  destruct (run_wf 8 8 workload8 ring_size_8 ring_size_8 device8)
    as (answers & s' & Hrun & _).
  - exact (proj1 (fresh_device_wf 8 8 env_ok "0000:01:00.0" pattern_memory device8
                    ring_size_8 ring_size_8 initialize_device8)).
  - exact device8_wf.
  - exists answers, s'. exact Hrun.
Qed.

(** ** Counters *)

Lemma count_answers_cons (p : Answer -> bool) (a : Answer) (l : list Answer) :
  count_answers p (a :: l) = (if p a then 1 else 0) + count_answers p l.
Proof.
  unfold count_answers. cbn [List.filter]. destruct (p a); cbn [length]; lia.
Qed.

Lemma count_answers_bound (p : Answer -> bool) (l : list Answer) :
  0 <= count_answers p l <= Z.of_nat (length l).
Proof.
  induction l as [|a l IH]; [unfold count_answers; cbn; lia|].
  rewrite count_answers_cons. cbn [length]. destruct (p a); lia.
Qed.

Lemma wrap64_range (x : Z) : 0 <= wrap64 x < 2 ^ 64.
Proof. unfold wrap64. apply Z.mod_pos_bound. lia. Qed.

Lemma wrap64_add_l (x y : Z) : wrap64 (wrap64 x + y) = wrap64 (x + y).
Proof. unfold wrap64. apply Zplus_mod_idemp_l. Qed.

(** What one step does to the two counters. *)
Lemma step_counters (RX TX : Z) (c : Call) (s : State) (a : Answer) (s' : State) :
  ring_size RX -> ring_size TX -> rx_wf RX s -> tx_wf TX s ->
  counters_in_range s ->
  step RX TX c s = Ok (a, s') ->
  packets_sent_ s' = wrap64 (packets_sent_ s + (if is_sent_ok a then 1 else 0)) /\
  packets_received_ s'
  = wrap64 (packets_received_ s + (if is_received_packet a then 1 else 0)) /\
  counters_in_range s'.
Proof.
  intros HRX HTX Hrx Htx (Hs & Hr) Hstep.
  assert (Hkeep : forall x, 0 <= x < 2 ^ 64 -> x = wrap64 (x + 0))
    by (intros x Hx; rewrite Z.add_0_r, wrap64_small by exact Hx; reflexivity).
  unfold counters_in_range.
  destruct c as [data length| |i|i len]; cbn [step] in Hstep.
  - destruct (send_packet_outcome TX data length s HTX Htx) as [H|(s1 & H & Heff)];
      rewrite H in Hstep; cbn [bind] in Hstep; injection Hstep as <- <-;
      cbn [is_sent_ok is_received_packet].
    + repeat split; auto; lia.
    + destruct Heff as (_ & Hc & _ & _ & _ & _ & _ & (_ & Hpr & _)).
      rewrite Hc, Hpr. pose proof (wrap64_range (packets_sent_ s + 1)).
      repeat split; auto; lia.
  - destruct (receive_packet_outcome RX s HRX Hrx)
      as (desc & _ & [[_ H]|[_ (s1 & H & Heff)]]);
      rewrite H in Hstep; cbn [bind] in Hstep; injection Hstep as <- <-;
      cbn [is_sent_ok is_received_packet].
    + repeat split; auto; lia.
    + destruct Heff as (_ & Hc & _ & _ & _ & _ & (_ & _ & Hps & _)).
      rewrite Hc, Hps. pose proof (wrap64_range (packets_received_ s + 1)).
      repeat split; auto; lia.
  - injection Hstep as <- <-. cbn. repeat split; auto; lia.
  - injection Hstep as <- <-. cbn. repeat split; auto; lia.
Qed.

Lemma run_counters (RX TX : Z) (cs : list Call) :
  ring_size RX -> ring_size TX ->
  forall s answers s',
    rx_wf RX s -> tx_wf TX s -> counters_in_range s ->
    run RX TX cs s = Ok (answers, s') ->
    packets_sent_ s' = wrap64 (packets_sent_ s + count_answers is_sent_ok answers) /\
    packets_received_ s'
    = wrap64 (packets_received_ s + count_answers is_received_packet answers).
Proof.
  intros HRX HTX. induction cs as [|c cs IH]; intros s answers s' Hrx Htx Hc Hrun.
  - cbn [run] in Hrun. injection Hrun as <- <-. destruct Hc as (Hs & Hr).
    unfold count_answers. cbn. rewrite !Z.add_0_r, !wrap64_small by assumption.
    split; reflexivity.
  - cbn [run] in Hrun.
    destruct (step_wf RX TX c s HRX HTX Hrx Htx) as (a & s1 & Hstep & Hrx1 & Htx1).
    rewrite Hstep in Hrun. cbn [bind] in Hrun.
    destruct (step_counters RX TX c s a s1 HRX HTX Hrx Htx Hc Hstep)
      as (Hs1 & Hr1 & Hc1).
    destruct (run RX TX cs s1) as [[answers1 s2]| |] eqn:Hrest;
      cbn [bind] in Hrun; try discriminate Hrun.
    injection Hrun as <- <-.
    destruct (IH s1 answers1 s2 Hrx1 Htx1 Hc1 Hrest) as (Hs2 & Hr2).
    rewrite Hs2, Hr2, Hs1, Hr1, !count_answers_cons, !wrap64_add_l.
    split; f_equal; lia.
Qed.

(** X2. The statistics are exact: after any workload on an initialized
    device, [get_packets_sent()] is the number of [send_packet] calls that
    returned [true] and [get_packets_received()] the number of
    [receive_packet] calls that returned a packet, both modulo [2^64];
    failed sends, empty polls and device activity count nothing. *)
Theorem statistics_count_successes
        (RX TX : Z) (env : Env) (pci : string) (mem : memory) (s0 : State)
        (cs : list Call) (answers : list Answer) (s' : State) :
  ring_size RX -> ring_size TX ->
  initialize RX TX env (construct pci mem) = (true, s0) ->
  run RX TX cs s0 = Ok (answers, s') ->
  get_packets_sent s' = wrap64 (count_answers is_sent_ok answers) /\
  get_packets_received s' = wrap64 (count_answers is_received_packet answers) /\
  (Z.of_nat (length cs) < 2 ^ 64 ->
   get_packets_sent s' = count_answers is_sent_ok answers /\
   get_packets_received s' = count_answers is_received_packet answers).
Proof.
  intros HRX HTX Hinit Hrun.
  destruct (fresh_device_wf RX TX env pci mem s0 HRX HTX Hinit) as [Hrx Htx].
  destruct (initialize_ok_state _ _ _ _ _ _ Hinit)
    as (_ & _ & _ & Hr0 & Hs0 & _).
  assert (Hc : counters_in_range s0)
    by (unfold counters_in_range; rewrite Hr0, Hs0; lia).
  destruct (run_counters RX TX cs HRX HTX s0 answers s' Hrx Htx Hc Hrun) as (Hs & Hr).
  rewrite Hs0, Z.add_0_l in Hs. rewrite Hr0, Z.add_0_l in Hr.
  unfold get_packets_sent, get_packets_received.
  split; [exact Hs|]. split; [exact Hr|].
  intros Hlen.
  destruct (run_wf RX TX cs HRX HTX s0 Hrx Htx) as (answers' & s'' & Hrun' & Hl & _).
  rewrite Hrun in Hrun'. injection Hrun' as <- <-.
  pose proof (count_answers_bound is_sent_ok answers).
  pose proof (count_answers_bound is_received_packet answers).
  rewrite Hs, Hr, !wrap64_small by lia. split; reflexivity.
Qed.

Lemma statistics_count_successes_witness :
  exists answers s',
    run 8 8 workload8 device8 = Ok (answers, s') /\
    get_packets_sent s' = wrap64 (count_answers is_sent_ok answers) /\
    get_packets_received s' = wrap64 (count_answers is_received_packet answers).
Proof.
  destruct (run_wf 8 8 workload8 ring_size_8 ring_size_8 device8)
    as (answers & s' & Hrun & _).
  - exact (proj1 (fresh_device_wf 8 8 env_ok "0000:01:00.0" pattern_memory device8
                    ring_size_8 ring_size_8 initialize_device8)).
  - exact device8_wf.
  - exists answers, s'. split; [exact Hrun|].
    destruct (statistics_count_successes 8 8 env_ok "0000:01:00.0" pattern_memory
                device8 workload8 answers s' ring_size_8 ring_size_8
                initialize_device8 Hrun) as (Hs & Hr & _).
    split; assumption.
Defined.

(** ** The reset wait, event by event *)

(** The poll loop makes polls and pauses and nothing else: one pause after
    every poll that found the bit set, so one pause less than polls when
    the loop ends with [true]. *)
Lemma reset_poll_polls_only (env : Env) (budget : nat) :
  forall s, exists evs,
    snd (reset_poll env budget s)
    = set_n_reads (n_reads s + count_events is_poll evs)
        (set_trace (trace s ++ evs) s) /\
    Forall (fun e => is_poll_or_pause e = true) evs /\
    (count_events is_poll evs <= budget)%nat /\
    (count_events is_Usleep evs + (if fst (reset_poll env budget s) then 1 else 0)
     = count_events is_poll evs)%nat.
Proof.
  induction budget as [|b IH]; intros s.
  - exists []. cbn [reset_poll fst snd]. rewrite app_nil_r, !count_events_nil, Nat.add_0_r.
    destruct s; run_driver. repeat split; auto.
  - cbn [reset_poll read_reg].
    set (v := wrap32 (env_reg_read env (n_reads s) REG_CTRL)).
    destruct (Z.land v CTRL_RESET =? 0) eqn:E.
    + exists [RegRead REG_CTRL v]. cbn [fst snd].
      rewrite !count_events_one. cbn [is_poll is_Usleep]. rewrite Z.eqb_refl.
      split; [rewrite Nat.add_1_r; destruct s; reflexivity|].
      split; [repeat constructor; unfold is_poll_or_pause; cbn; rewrite Z.eqb_refl; reflexivity|].
      split; lia.
    + destruct (IH (emit (Usleep 1)
                      (set_n_reads (S (n_reads s)) (emit (RegRead REG_CTRL v) s))))
        as (evs & Hs & Hall & Hcount & Hsleeps).
      exists (RegRead REG_CTRL v :: Usleep 1 :: evs).
      change (RegRead REG_CTRL v :: Usleep 1 :: evs)
        with ([RegRead REG_CTRL v] ++ [Usleep 1] ++ evs).
      rewrite !count_events_app, !count_events_one. cbn [is_poll is_Usleep].
      rewrite Z.eqb_refl. cbn [Nat.add].
      split.
      { rewrite Hs. destruct s; run_driver.
        rewrite <- !app_assoc. f_equal. lia. }
      split.
      { repeat constructor; try exact Hall; unfold is_poll_or_pause; cbn;
          rewrite ?Z.eqb_refl; reflexivity. }
      split; [lia|].
      rewrite <- Hsleeps.
      destruct (fst (reset_poll env b
                  (emit (Usleep 1)
                     (set_n_reads (S (n_reads s)) (emit (RegRead REG_CTRL v) s)))));
        lia.
Qed.

Ltac name_reset_polls evs Hquiet Hpolls Hsleeps :=
  match goal with
  | |- context [reset_poll ?env ?b ?s1] =>
      let Hs := fresh "Hs" in
      let ok := fresh "reset_ok" in
      let s2 := fresh "s_reset" in
      destruct (reset_poll_polls_only env b s1) as (evs & Hs & Hquiet & Hpolls & Hsleeps);
      destruct (reset_poll env b s1) as [ok s2];
      cbn [fst snd] in Hs, Hsleeps; subst s2
  end.

Ltac initialize_paths_polls env evs Hquiet Hpolls Hsleeps :=
  run_driver;
  destruct (env_open env <? 0) eqn:Hopen; run_driver;
  [ | destruct (env_mmap env =? MAP_FAILED) eqn:Hmmap; run_driver;
      [ | name_reset_polls evs Hquiet Hpolls Hsleeps; run_driver;
          match goal with
          | reset_ok : bool |- _ => destruct reset_ok; run_driver; [split_paths|]
          end ] ].

Lemma polls_no_enable_write (evs : list Event) :
  Forall (fun e => is_poll_or_pause e = true) evs ->
  count_events is_enable_write evs = 0%nat.
Proof.
  intros H. apply (count_events_none _ _ _ H).
  intros [o v| o v | | | | | | | | |] He; try reflexivity; try discriminate He.
Qed.

Lemma initialize_ok_trace (RX TX : Z) (env : Env) (pci : string) (mem : memory)
      (s0 : State) :
  initialize RX TX env (construct pci mem) = (true, s0) ->
  exists pre v w,
    trace s0 = pre ++ bringup_sequence RX TX s0 v w /\
    count_events is_enable_write pre = 0%nat /\
    0 <= v < 2 ^ 32 /\ 0 <= w < 2 ^ 32.
Proof.
  revert s0. initialize_paths_polls env evs Hquiet Hpolls Hsleeps;
    intros s0 Hinit; try discriminate Hinit.
  injection Hinit as <-. unfold bringup_sequence. run_driver.
  match goal with
  | |- context [?P ++ [RegWrite REG_RX_DESC_BASE_LO _]] =>
      match goal with
      | |- exists pre v w, (?a :: ?b :: ?c :: ?d :: ?e :: ?f :: _) = _ /\ _ =>
          exists ([a; b; c; d; e; f] ++ P)
      end
  end.
  eexists _, _.
  split; [cbn [app]; rewrite <- !app_assoc; reflexivity|].
  split.
  - rewrite ?count_events_app, ?count_events_cons, ?count_events_nil.
    rewrite (polls_no_enable_write evs Hquiet). reflexivity.
  - split; apply Z.mod_pos_bound; lia.
Qed.

Lemma wrap32_lor (v c : Z) :
  0 <= v < 2 ^ 32 -> 0 <= c < 2 ^ 32 -> wrap32 (Z.lor v c) = Z.lor v c.
Proof.
  intros Hv Hc. unfold wrap32.
  change (2 ^ 32) with (2 ^ 32) in *.
  rewrite <- !Z.land_ones by lia.
  rewrite Z.land_lor_distr_l, !Z.land_ones by lia.
  rewrite !Z.mod_small by assumption. reflexivity.
Qed.

(** X3. A successful [initialize] ends with the register accesses of
    [bringup_sequence], in that order: both rings are described to the
    device before either enable bit is written, RX is enabled before TX,
    and nothing earlier in the bring-up wrote a control register of the
    rings.  Each enable is a read-modify-write: the value written is the
    value just read with the enable bit set, every other bit as read. *)
Theorem bringup_programs_rings_before_enabling
        (RX TX : Z) (env : Env) (pci : string) (mem : memory) (s0 : State) :
  initialize RX TX env (construct pci mem) = (true, s0) ->
  exists pre v w,
    trace s0 = pre ++ bringup_sequence RX TX s0 v w /\
    count_events is_enable_write pre = 0%nat /\
    wrap32 (Z.lor v CTRL_RX_ENABLE) = Z.lor v CTRL_RX_ENABLE /\
    wrap32 (Z.lor w CTRL_TX_ENABLE) = Z.lor w CTRL_TX_ENABLE.
Proof.
  intros Hinit.
  destruct (initialize_ok_trace RX TX env pci mem s0 Hinit)
    as (pre & v & w & Htr & Hpre & Hv & Hw).
  exists pre, v, w. split; [exact Htr|]. split; [exact Hpre|].
  split; apply wrap32_lor; try assumption; vm_compute; split; congruence.
Qed.

Lemma bringup_programs_rings_before_enabling_witness :
  exists pre v w,
    trace device8 = pre ++ bringup_sequence 8 8 device8 v w /\
    count_events is_enable_write pre = 0%nat /\
    wrap32 (Z.lor v CTRL_RX_ENABLE) = Z.lor v CTRL_RX_ENABLE /\
    wrap32 (Z.lor w CTRL_TX_ENABLE) = Z.lor w CTRL_TX_ENABLE.
Proof.
  exact (bringup_programs_rings_before_enabling 8 8 env_ok "0000:01:00.0"
           pattern_memory device8 initialize_device8).
Defined.

(** ** The tail registers *)

Lemma last_write_app (offset : Z) (tr tr' : list Event) :
  last_write offset (tr ++ tr')
  = match last_write offset tr' with
    | Some v => Some v
    | None => last_write offset tr
    end.
Proof.
  induction tr as [|e tr IH]; cbn [app last_write].
  - destruct (last_write offset tr'); reflexivity.
  - rewrite IH. destruct (last_write offset tr'); reflexivity.
Qed.

Lemma last_write_snoc (offset o v : Z) (tr : list Event) :
  last_write offset (tr ++ [RegWrite o v])
  = if o =? offset then Some v else last_write offset tr.
Proof.
  rewrite last_write_app. cbn [last_write]. destruct (o =? offset); reflexivity.
Qed.

(** Any property of the state that every call and every device step keeps
    on a well-formed device is kept by a whole workload. *)
Lemma run_preserves (RX TX : Z) (P : State -> Prop) :
  ring_size RX -> ring_size TX ->
  (forall c s a s', rx_wf RX s -> tx_wf TX s -> P s ->
                    step RX TX c s = Ok (a, s') -> P s') ->
  forall cs s answers s',
    rx_wf RX s -> tx_wf TX s -> P s ->
    run RX TX cs s = Ok (answers, s') -> P s'.
Proof.
  intros HRX HTX Hstep. induction cs as [|c cs IH]; intros s answers s' Hrx Htx HP Hrun.
  - cbn [run] in Hrun. injection Hrun as <- <-. exact HP.
  - cbn [run] in Hrun.
    destruct (step_wf RX TX c s HRX HTX Hrx Htx) as (a & s1 & Hs & Hrx1 & Htx1).
    rewrite Hs in Hrun. cbn [bind] in Hrun.
    destruct (run RX TX cs s1) as [[answers1 s2]| |] eqn:Hr; try discriminate Hrun.
    cbn [bind] in Hrun. injection Hrun as <- <-.
    exact (IH s1 answers1 s2 Hrx1 Htx1 (Hstep c s a s1 Hrx Htx HP Hs) Hr).
Qed.

Lemma step_doorbells (RX TX : Z) (c : Call) (s : State) (a : Answer) (s' : State) :
  ring_size RX -> ring_size TX -> rx_wf RX s -> tx_wf TX s ->
  doorbells_in_step RX s -> step RX TX c s = Ok (a, s') -> doorbells_in_step RX s'.
Proof.
  intros HRX HTX Hrx Htx (Ht & Hr) Hs.
  pose proof (ring_size_pos RX HRX) as HRXpos.
  destruct c as [data length| |i|i len]; cbn [step] in Hs.
  - destruct (send_packet_outcome TX data length s HTX Htx) as [H|(s1 & H & Heff)];
      rewrite H in Hs; cbn [bind] in Hs; injection Hs as <- <-; [split; assumption|].
    destruct Heff as (Htail & _ & _ & Htr & _ & _ & _ & (Hh & _)).
    unfold doorbells_in_step. rewrite Htr, !last_write_snoc, Htail, Hh.
    change (REG_TX_DESC_TAIL =? REG_TX_DESC_TAIL) with true.
    change (REG_TX_DESC_TAIL =? REG_RX_DESC_TAIL) with false.
    split; [reflexivity|exact Hr].
  - destruct (receive_packet_outcome RX s HRX Hrx)
      as (desc & _ & [(_ & H)|(_ & s1 & H & Heff)]);
      rewrite H in Hs; cbn [bind] in Hs; injection Hs as <- <-; [split; assumption|].
    destruct Heff as (Hhead & _ & _ & Htr & _ & _ & (_ & Htt & _)).
    unfold doorbells_in_step. rewrite Htr, !last_write_snoc, Hhead, Htt.
    change (REG_RX_DESC_TAIL =? REG_RX_DESC_TAIL) with true.
    change (REG_RX_DESC_TAIL =? REG_TX_DESC_TAIL) with false.
    split; [exact Ht|]. f_equal. symmetry. apply pred_succ_mod; [lia|apply Hrx].
  - injection Hs as <- <-. split; assumption.
  - injection Hs as <- <-. split; assumption.
Qed.

Lemma fresh_device_doorbells (RX TX : Z) (env : Env) (pci : string) (mem : memory)
      (s0 : State) :
  ring_size RX ->
  initialize RX TX env (construct pci mem) = (true, s0) ->
  doorbells_in_step RX s0.
Proof.
  intros HRX Hinit. pose proof (ring_size_pos RX HRX) as HRXpos.
  destruct (initialize_ok_trace RX TX env pci mem s0 Hinit) as (pre & v & w & Htr & _).
  destruct (initialize_ok_state RX TX env pci mem s0 Hinit) as (Hh & _ & Ht & _).
  unfold doorbells_in_step. rewrite Htr, !last_write_app, Hh, Ht.
  split; [reflexivity|].
  change (last_write REG_RX_DESC_TAIL (bringup_sequence RX TX s0 v w))
    with (Some (wrap32 (RX - 1))).
  rewrite wrap32_small by lia. f_equal.
  apply Z.mod_unique_pos with (q := -1); lia.
Qed.

(** X4. From a successful [initialize] on, after every workload, the last
    value written to the TX tail register is [tx_tail_], and the last value
    written to the RX tail register is the slot just behind [rx_head_]:
    the device is never shown a cursor the driver does not hold. *)
Theorem doorbells_follow_cursors
        (RX TX : Z) (env : Env) (pci : string) (mem : memory) (s0 : State)
        (cs : list Call) (answers : list Answer) (s' : State) :
  ring_size RX -> ring_size TX ->
  initialize RX TX env (construct pci mem) = (true, s0) ->
  run RX TX cs s0 = Ok (answers, s') ->
  last_write REG_TX_DESC_TAIL (trace s') = Some (tx_tail_ s') /\
  last_write REG_RX_DESC_TAIL (trace s') = Some ((rx_head_ s' - 1) mod RX).
Proof.
  intros HRX HTX Hinit Hrun.
  destruct (fresh_device_wf RX TX env pci mem s0 HRX HTX Hinit) as (Hrx & Htx).
  apply (run_preserves RX TX (doorbells_in_step RX) HRX HTX
           (fun c s a s1 Hr Ht HP Hs => step_doorbells RX TX c s a s1 HRX HTX Hr Ht HP Hs)
           cs s0 answers s' Hrx Htx
           (fresh_device_doorbells RX TX env pci mem s0 HRX Hinit) Hrun).
Qed.

Lemma doorbells_follow_cursors_witness :
  exists answers s',
    run 8 8 workload8 device8 = Ok (answers, s') /\
    last_write REG_TX_DESC_TAIL (trace s') = Some (tx_tail_ s') /\
    last_write REG_RX_DESC_TAIL (trace s') = Some ((rx_head_ s' - 1) mod 8).
Proof.
  destruct workload8_runs as (answers & s' & Hrun).
  exists answers, s'. split; [exact Hrun|].
  exact (doorbells_follow_cursors 8 8 env_ok "0000:01:00.0" pattern_memory device8
           workload8 answers s' ring_size_8 ring_size_8 initialize_device8 Hrun).
Defined.

(** ** Bring-up, whichever way it ends *)

Lemma initialize_device8_stuck :
  initialize 8 8 env_stuck_reset (construct "0000:01:00.0" pattern_memory)
  = (false, device8_stuck).
Proof. vm_compute. reflexivity. Qed.

Lemma initialize_device8_absent :
  initialize 8 8 env_no_device (construct "0000:01:00.0" pattern_memory)
  = (false, device8_absent).
Proof. vm_compute. reflexivity. Qed.

Ltac count_kind :=
  repeat first [ rewrite count_events_app | rewrite count_events_cons
               | rewrite count_events_nil ];
  cbn [is_Close is_Open_ok is_Usleep is_AlignedAlloc is_poll is_enable_write Nat.add].

(** X5. [initialize] on a constructed object returns what it leaves in
    [initialized_], and it writes the two enable registers exactly when it
    succeeds: a bring-up that fails, at whichever step, has enabled
    neither ring. *)
Theorem failed_bringup_enables_nothing
        (RX TX : Z) (env : Env) (pci : string) (mem : memory)
        (ok : bool) (s1 : State) :
  initialize RX TX env (construct pci mem) = (ok, s1) ->
  initialized_ s1 = ok /\
  count_events is_enable_write (trace s1) = (if ok then 2 else 0)%nat.
Proof.
  revert ok s1. initialize_paths_polls env evs Hquiet Hpolls Hsleeps;
    intros ok s1 Hinit; injection Hinit as <- <-; run_driver;
    (split; [reflexivity|]);
    count_kind; rewrite ?(polls_no_enable_write evs Hquiet);
    reflexivity.
Qed.

Lemma failed_bringup_enables_nothing_witness :
  initialized_ device8_stuck = false /\
  count_events is_enable_write (trace device8_stuck) = 0%nat.
Proof.
  exact (failed_bringup_enables_nothing 8 8 env_stuck_reset "0000:01:00.0"
           pattern_memory false device8_stuck initialize_device8_stuck).
Defined.

(** X6. Whichever way [initialize] ends, the descriptor of the resource
    file is closed exactly when it was opened, and it is opened at most
    once. *)
Theorem resource_file_is_closed
        (RX TX : Z) (env : Env) (pci : string) (mem : memory) :
  count_events is_Close (trace (snd (initialize RX TX env (construct pci mem))))
  = count_events is_Open_ok (trace (snd (initialize RX TX env (construct pci mem)))) /\
  (count_events is_Open_ok (trace (snd (initialize RX TX env (construct pci mem)))) <= 1)%nat.
Proof.
  assert (Hq : forall evs, Forall (fun e => is_poll_or_pause e = true) evs ->
                 count_events is_Close evs = 0%nat /\
                 count_events is_Open_ok evs = 0%nat).
  { intros evs H. split; apply (count_events_none _ _ _ H);
      intros [] He; try reflexivity; discriminate He. }
  initialize_paths_polls env evs Hquiet Hpolls Hsleeps;
    try (destruct (Hq evs Hquiet) as [Hc Ho]);
    count_kind; rewrite ?Hopen, ?Hc, ?Ho; cbn [negb Nat.add]; split; lia.
Qed.

(** X7. When the register window cannot be mapped (the resource file
    does not open, or [mmap] fails), [initialize] returns [false] having
    made no register access and no allocation, and the destructor then
    makes no call at all: the object is exactly what [initialize] left. *)
Theorem unmapped_device_is_left_alone
        (RX TX : Z) (env : Env) (pci : string) (mem : memory)
        (ok : bool) (s1 : State) :
  initialize RX TX env (construct pci mem) = (ok, s1) ->
  fst (map_bar0 env (construct pci mem)) = false ->
  ok = false /\
  count_events is_register_traffic (trace s1) = 0%nat /\
  count_events is_AlignedAlloc (trace s1) = 0%nat /\
  destroy s1 = s1.
Proof.
  revert ok s1. initialize_paths_polls env evs Hquiet Hpolls Hsleeps;
    intros ok s1 Hinit Hmap; try discriminate Hmap;
    injection Hinit as <- <-;
    (split; [reflexivity|]); (split; [reflexivity|]); (split; [reflexivity|]);
    unfold destroy; rewrite cleanup_shape; unfold cleanup_events; run_driver;
    rewrite ?Hmmap; try reflexivity;
    destruct (env_mmap env =? nullptr); reflexivity.
Qed.

Lemma unmapped_device_is_left_alone_witness :
  false = false /\
  count_events is_register_traffic (trace device8_absent) = 0%nat /\
  count_events is_AlignedAlloc (trace device8_absent) = 0%nat /\
  destroy device8_absent = device8_absent.
Proof.
  exact (unmapped_device_is_left_alone 8 8 env_no_device "0000:01:00.0"
           pattern_memory false device8_absent initialize_device8_absent eq_refl).
Defined.

(** ** Tear-down after use *)

Lemma initialize_ok_pointers (RX TX : Z) (env : Env) (pci : string) (mem : memory)
      (s0 : State) :
  initialize RX TX env (construct pci mem) = (true, s0) ->
  initialized_ s0 = true /\
  bar0_base_ s0 = env_mmap env /\
  (bar0_base_ s0 =? MAP_FAILED) = false /\
  (rx_ring_ s0 =? nullptr) = false /\ (tx_ring_ s0 =? nullptr) = false /\
  (rx_buffers_ s0 =? nullptr) = false /\ (tx_buffers_ s0 =? nullptr) = false.
Proof.
  revert s0. initialize_paths_polls env evs Hquiet Hpolls Hsleeps;
    intros s0 Hinit; try discriminate Hinit.
  injection Hinit as <-. run_driver.
  repeat split; assumption.
Qed.

Lemma same_object_refl (s : State) : same_object s s.
Proof. repeat split. Qed.

Lemma same_object_trans (s1 s2 s3 : State) :
  same_object s1 s2 -> same_object s2 s3 -> same_object s1 s3.
Proof.
  unfold same_object. intros (A1 & A2 & A3 & A4 & A5 & A6 & A7 & A8)
                             (B1 & B2 & B3 & B4 & B5 & B6 & B7 & B8).
  repeat split; congruence.
Qed.

Lemma step_same_object (RX TX : Z) (c : Call) (s : State) (a : Answer) (s' : State) :
  ring_size RX -> ring_size TX -> rx_wf RX s -> tx_wf TX s ->
  step RX TX c s = Ok (a, s') -> same_object s s'.
Proof.
  intros HRX HTX Hrx Htx Hs.
  destruct c as [data length| |i|i len]; cbn [step] in Hs.
  - destruct (send_packet_outcome TX data length s HTX Htx) as [H|(s1 & H & Heff)];
      rewrite H in Hs; cbn [bind] in Hs; injection Hs as <- <-;
      [apply same_object_refl|apply Heff].
  - destruct (receive_packet_outcome RX s HRX Hrx)
      as (desc & _ & [(_ & H)|(_ & s1 & H & Heff)]);
      rewrite H in Hs; cbn [bind] in Hs; injection Hs as <- <-;
      [apply same_object_refl|apply Heff].
  - injection Hs as <- <-. repeat split.
  - injection Hs as <- <-. repeat split.
Qed.

(** X8. A device that was brought up and then used, for whatever
    workload, is torn down by exactly the calls of [teardown_sequence], in
    that order: the two rings are disabled while the register window is
    still mapped, the window is unmapped, and the four regions are freed,
    each with the address [initialize] obtained. *)
Theorem teardown_after_use
        (RX TX : Z) (env : Env) (pci : string) (mem : memory) (s0 : State)
        (cs : list Call) (answers : list Answer) (s' : State) :
  ring_size RX -> ring_size TX ->
  env_mmap env <> nullptr ->
  initialize RX TX env (construct pci mem) = (true, s0) ->
  run RX TX cs s0 = Ok (answers, s') ->
  trace (destroy s') = trace s' ++ teardown_sequence s0.
Proof.
  intros HRX HTX Hmm Hinit Hrun.
  destruct (fresh_device_wf RX TX env pci mem s0 HRX HTX Hinit) as (Hrx & Htx).
  destruct (initialize_ok_pointers RX TX env pci mem s0 Hinit)
    as (Hi & Hb & Hbf & H1 & H2 & H3 & H4).
  assert (Hsame : same_object s0 s').
  { apply (run_preserves RX TX (same_object s0) HRX HTX
             (fun c s a s1 Hr Ht HP Hs =>
                same_object_trans s0 s s1 HP
                  (step_same_object RX TX c s a s1 HRX HTX Hr Ht Hs))
             cs s0 answers s' Hrx Htx (same_object_refl s0) Hrun). }
  destruct Hsame as (_ & E2 & E3 & E4 & E5 & E6 & E7 & E8).
  unfold destroy. rewrite cleanup_shape. cbn [trace set_trace]. f_equal.
  unfold cleanup_events, teardown_sequence.
  rewrite E2, E3, E4, E5, E6, E7, E8, Hi, Hbf, H1, H2, H3, H4.
  replace (bar0_base_ s0 =? nullptr) with false by (rewrite Hb; lia).
  reflexivity.
Qed.

Lemma teardown_after_use_witness :
  exists answers s',
    run 8 8 workload8 device8 = Ok (answers, s') /\
    trace (destroy s') = trace s' ++ teardown_sequence device8.
Proof.
  destruct workload8_runs as (answers & s' & Hrun).
  exists answers, s'. split; [exact Hrun|].
  exact (teardown_after_use 8 8 env_ok "0000:01:00.0" pattern_memory device8
           workload8 answers s' ring_size_8 ring_size_8 env_ok_mmap
           initialize_device8 Hrun).
Defined.

(** ** How long the reset wait takes *)

Lemma reset_poll_clears_at (env : Env) (k : nat) :
  forall (budget : nat) (s : State),
    (k < budget)%nat ->
    (forall j, (j < k)%nat -> reset_bit_at env (n_reads s + j) = true) ->
    reset_bit_at env (n_reads s + k) = false ->
    fst (reset_poll env budget s) = true /\
    n_reads (snd (reset_poll env budget s)) = (n_reads s + k + 1)%nat.
Proof.
  induction k as [|k IH]; intros budget s Hk Hset Hclear;
    (destruct budget as [|b]; [lia|]); cbn [reset_poll read_reg].
  - rewrite Nat.add_0_r in Hclear. unfold reset_bit_at in Hclear.
    apply negb_false_iff in Hclear. rewrite Hclear. cbn [fst snd].
    split; [reflexivity|]. destruct s; cbn. lia.
  - pose proof (Hset 0%nat ltac:(lia)) as H0. rewrite Nat.add_0_r in H0.
    unfold reset_bit_at in H0. apply negb_true_iff in H0. rewrite H0.
    match goal with
    | |- context [reset_poll env b ?s1] =>
        assert (Hn : n_reads s1 = S (n_reads s)) by (destruct s; reflexivity);
        destruct (IH b s1) as (Hf & Hr)
    end.
    + lia.
    + intros j Hj. rewrite Hn. replace (S (n_reads s) + j)%nat with (n_reads s + S j)%nat by lia.
      apply Hset. lia.
    + rewrite Hn. replace (S (n_reads s) + k)%nat with (n_reads s + S k)%nat by lia.
      exact Hclear.
    + split; [exact Hf|]. rewrite Hr, Hn. lia.
Qed.

(** X9. If the device shows the reset bit set at the first [k] polls and
    clear at the next one, with [k < 1000], then [reset_device] succeeds
    after exactly [k + 1] polls and [k] pauses of one microsecond, and it
    wrote the reset bit once, before the first poll. *)
Theorem reset_returns_at_first_clear_poll (env : Env) (s : State) (k : nat) :
  (k < RESET_RETRIES)%nat ->
  (forall j, (j < k)%nat -> reset_bit_at env (n_reads s + j) = true) ->
  reset_bit_at env (n_reads s + k) = false ->
  exists evs,
    reset_device env s
    = (true, set_n_reads (n_reads s + k + 1)
               (set_trace (trace s ++ RegWrite REG_CTRL CTRL_RESET :: evs) s)) /\
    Forall (fun e => is_poll_or_pause e = true) evs /\
    count_events is_poll evs = (k + 1)%nat /\
    count_events is_Usleep evs = k.
Proof.
  intros Hk Hset Hclear. unfold reset_device.
  set (s1 := write_reg REG_CTRL CTRL_RESET s).
  assert (Hn : n_reads s1 = n_reads s) by (destruct s; reflexivity).
  destruct (reset_poll_clears_at env k RESET_RETRIES s1 Hk) as (Hf & Hr).
  { intros j Hj. rewrite Hn. apply Hset. exact Hj. }
  { rewrite Hn. exact Hclear. }
  destruct (reset_poll_polls_only env RESET_RETRIES s1) as (evs & Hs & Hall & _ & Hsl).
  rewrite Hf in Hsl. rewrite Hs in Hr.
  assert (Hp : count_events is_poll evs = (k + 1)%nat).
  { destruct s1; cbn in Hr, Hn. lia. }
  exists evs. split; [|split; [exact Hall|split; [exact Hp|lia]]].
  rewrite (surjective_pairing (reset_poll env RESET_RETRIES s1)), Hf, Hs, Hp.
  f_equal. subst s1. destruct s; cbn. rewrite <- app_assoc. f_equal. lia.
Qed.

Lemma reset_returns_at_first_clear_poll_witness :
  exists evs,
    reset_device env_slow_reset (construct "0000:01:00.0" pattern_memory)
    = (true, set_n_reads (0 + 2 + 1)
               (set_trace (trace (construct "0000:01:00.0" pattern_memory)
                           ++ RegWrite REG_CTRL CTRL_RESET :: evs)
                  (construct "0000:01:00.0" pattern_memory))) /\
    Forall (fun e => is_poll_or_pause e = true) evs /\
    count_events is_poll evs = (2 + 1)%nat /\
    count_events is_Usleep evs = 2%nat.
Proof.
  apply (reset_returns_at_first_clear_poll env_slow_reset
           (construct "0000:01:00.0" pattern_memory) 2).
  - unfold RESET_RETRIES. lia.
  - intros [|[|j]] Hj; [reflexivity|reflexivity|lia].
  - reflexivity.
Defined.

(** ** The receive ring *)

(** What [allocate_rings] leaves in RX descriptor [j]. *)
Lemma fresh_rx_descriptor (RX TX : Z) (env : Env) (pci : string) (mem : memory)
      (s0 : State) (j : nat) (d : RxDescriptor) :
  initialize RX TX env (construct pci mem) = (true, s0) ->
  rx_descs s0 !! j = Some d ->
  d = mkRxDescriptor (get_physical_addr (rx_slot s0 (Z.of_nat j))) 0 0 0 0 0.
Proof.
  intros Hinit Hd.
  destruct (initialize_ok_state _ _ _ _ _ _ Hinit)
    as (_ & _ & _ & _ & _ & _ & _ & _ & Hdescs & _).
  rewrite Hdescs in Hd.
  assert (Hj : (j < Z.to_nat RX)%nat).
  { apply lookup_lt_Some in Hd.
    rewrite setup_rx_descriptors_length, length_replicate in Hd. exact Hd. }
  rewrite setup_rx_descriptors_lookup in Hd by lia.
  rewrite lookup_replicate_2 in Hd by exact Hj.
  cbn in Hd. injection Hd as <-. reflexivity.
Qed.

Lemma step_rx_ring_points_at_slots
      (RX TX : Z) (c : Call) (s : State) (a : Answer) (s' : State) :
  ring_size RX -> ring_size TX -> rx_wf RX s -> tx_wf TX s ->
  rx_ring_points_at_slots s -> step RX TX c s = Ok (a, s') ->
  rx_ring_points_at_slots s'.
Proof.
  intros HRX HTX Hrx Htx HP Hs.
  destruct c as [data length| |i|i len]; cbn [step] in Hs.
  - destruct (send_packet_outcome TX data length s HTX Htx) as [H|(s1 & H & Heff)];
      rewrite H in Hs; cbn [bind] in Hs; injection Hs as <- <-; [exact HP|].
    destruct Heff as (_ & _ & _ & _ & _ & _ & (_ & _ & _ & _ & _ & Hb & _) & (_ & _ & Hd)).
    intros j d. unfold rx_slot. rewrite Hd, Hb. apply HP.
  - destruct (receive_packet_outcome RX s HRX Hrx)
      as (desc & Hdesc & [(_ & H)|(_ & s1 & H & Heff)]);
      rewrite H in Hs; cbn [bind] in Hs; injection Hs as <- <-; [exact HP|].
    destruct Heff as (_ & _ & (desc' & Hdesc' & Hd) & _ & _ & (_ & _ & _ & _ & _ & Hb & _) & _).
    intros j d. unfold rx_slot. rewrite Hd, Hb.
    destruct (Nat.eq_dec j (Z.to_nat (rx_head_ s))) as [->|Hne].
    + rewrite list_lookup_insert_eq by (apply lookup_lt_Some in Hdesc'; exact Hdesc').
      intros [= <-]. exact (HP _ _ Hdesc').
    + rewrite list_lookup_insert_ne by congruence. apply HP.
  - injection Hs as <- <-. exact HP.
  - injection Hs as <- <-. intros j d. unfold hw_complete_rx, rx_slot. cbn.
    destruct (Nat.eq_dec j (Z.to_nat i)) as [->|Hne].
    + rewrite list_lookup_alter_eq.
      destruct (rx_descs s !! Z.to_nat i) as [d0|] eqn:E; cbn; [|discriminate].
      intros [= <-]. exact (HP _ _ E).
    + rewrite list_lookup_alter_ne by congruence. apply HP.
Qed.

(** X10. From a successful [initialize] on, after every workload, every
    RX descriptor still holds the address of the buffer slot of its own
    ring position: the pointer [receive_packet] hands out for position [i]
    is the buffer the device was given for descriptor [i].  Neither the
    driver nor a delivery by the device re-points a descriptor. *)
Theorem rx_descriptors_keep_their_slots
        (RX TX : Z) (env : Env) (pci : string) (mem : memory) (s0 : State)
        (cs : list Call) (answers : list Answer) (s' : State) :
  ring_size RX -> ring_size TX ->
  initialize RX TX env (construct pci mem) = (true, s0) ->
  run RX TX cs s0 = Ok (answers, s') ->
  rx_buffers_ s' = rx_buffers_ s0 /\
  forall (i : nat) (d : RxDescriptor),
    rx_descs s' !! i = Some d ->
    rxd_buffer_addr d
    = get_physical_addr (rx_buffers_ s0 + wrap32 (Z.of_nat i * MAX_PACKET_SIZE)).
Proof.
  intros HRX HTX Hinit Hrun.
  destruct (fresh_device_wf RX TX env pci mem s0 HRX HTX Hinit) as (Hrx & Htx).
  assert (Hsame : same_object s0 s').
  { apply (run_preserves RX TX (same_object s0) HRX HTX
             (fun c s a s1 Hr Ht HP Hs =>
                same_object_trans s0 s s1 HP
                  (step_same_object RX TX c s a s1 HRX HTX Hr Ht Hs))
             cs s0 answers s' Hrx Htx (same_object_refl s0) Hrun). }
  destruct Hsame as (_ & _ & _ & _ & _ & Hb & _).
  split; [exact Hb|].
  assert (HP : rx_ring_points_at_slots s').
  { apply (run_preserves RX TX rx_ring_points_at_slots HRX HTX
             (fun c s a s1 Hr Ht HP Hs =>
                step_rx_ring_points_at_slots RX TX c s a s1 HRX HTX Hr Ht HP Hs)
             cs s0 answers s' Hrx Htx); [|exact Hrun].
    intros j d Hd.
    rewrite (fresh_rx_descriptor RX TX env pci mem s0 j d Hinit Hd). reflexivity. }
  intros i d Hd. rewrite (HP i d Hd). unfold rx_slot. rewrite Hb. reflexivity.
Qed.

Lemma rx_descriptors_keep_their_slots_witness :
  exists answers s',
    run 8 8 workload8 device8 = Ok (answers, s') /\
    rx_buffers_ s' = rx_buffers_ device8 /\
    forall (i : nat) (d : RxDescriptor),
      rx_descs s' !! i = Some d ->
      rxd_buffer_addr d
      = get_physical_addr (rx_buffers_ device8 + wrap32 (Z.of_nat i * MAX_PACKET_SIZE)).
Proof.
  destruct workload8_runs as (answers & s' & Hrun).
  exists answers, s'. split; [exact Hrun|].
  exact (rx_descriptors_keep_their_slots 8 8 env_ok "0000:01:00.0" pattern_memory
           device8 workload8 answers s' ring_size_8 ring_size_8
           initialize_device8 Hrun).
Defined.

(** X11. A device that was just brought up has nothing to hand out:
    [receive_packet] returns [false] and leaves the object as it is,
    however often it is called. *)
Theorem fresh_device_has_no_packet
        (RX TX : Z) (env : Env) (pci : string) (mem : memory) (s0 : State) (n : nat) :
  ring_size RX -> ring_size TX ->
  initialize RX TX env (construct pci mem) = (true, s0) ->
  receive_packet RX s0 = Ok (None, s0) /\
  receive_burst RX n s0 = Ok ([], s0).
Proof.
  intros HRX HTX Hinit.
  destruct (fresh_device_wf RX TX env pci mem s0 HRX HTX Hinit) as (Hrx & _).
  assert (H : receive_packet RX s0 = Ok (None, s0)).
  { destruct (receive_packet_outcome RX s0 HRX Hrx)
      as (desc & Hdesc & [(_ & H)|(Hdd & _)]); [exact H|].
    rewrite (fresh_rx_descriptor RX TX env pci mem s0 _ desc Hinit Hdesc) in Hdd.
    discriminate Hdd. }
  split; [exact H|].
  destruct n as [|n]; [reflexivity|]. cbn [receive_burst]. rewrite H. reflexivity.
Qed.

Lemma fresh_device_has_no_packet_witness :
  receive_packet 8 device8 = Ok (None, device8) /\
  receive_burst 8 5 device8 = Ok ([], device8).
Proof.
  exact (fresh_device_has_no_packet 8 8 env_ok "0000:01:00.0" pattern_memory
           device8 5 ring_size_8 ring_size_8 initialize_device8).
Defined.

(** ** Draining the receive ring *)

Lemma expected_packets_mod (N : Z) (s : State) (lens : list Z) :
  0 < N ->
  forall h, expected_packets N s (h mod N) lens = expected_packets N s h lens.
Proof.
  intros HN. induction lens as [|l lens IH]; intros h; cbn [expected_packets];
    [reflexivity|].
  rewrite Z.mod_mod by lia. f_equal.
  rewrite <- (IH (h mod N + 1)), <- (IH (h + 1)).
  rewrite Z.add_mod_idemp_l by lia. reflexivity.
Qed.

Lemma expected_packets_same_buffers (N : Z) (s s' : State) (lens : list Z) :
  rx_buffers_ s' = rx_buffers_ s ->
  forall h, expected_packets N s' h lens = expected_packets N s h lens.
Proof.
  intros Hb. induction lens as [|l lens IH]; intros h; cbn [expected_packets];
    [reflexivity|].
  unfold rx_slot. rewrite Hb, IH. reflexivity.
Qed.

Lemma ahead_is_elsewhere (N h m : Z) :
  0 <= h < N -> 0 < m < N -> (h + m) mod N <> h.
Proof.
  intros Hh Hm. rewrite add_mod_cases by lia.
  destruct (h + m <? N); lia.
Qed.

(** One frame taken: the frames behind it are still pending. *)
Lemma rx_pending_after_receive (N : Z) (s s' : State) (l : Z) (lens : list Z) :
  ring_size N -> rx_wf N s ->
  rx_pending N s (l :: lens) -> Z.of_nat (length (l :: lens)) <= N ->
  receive_effect N s s' ->
  rx_pending N s' lens.
Proof.
  intros HN (Hlen & Hh) (Hset & Hclear) Hfit
         (Hhead & _ & (desc & Hdesc & Hdescs) & _).
  pose proof (ring_size_pos N HN) as HNpos.
  cbn [length] in Hfit.
  assert (Hidx : forall m, ((rx_head_ s + 1) mod N + m) mod N
                           = (rx_head_ s + (m + 1)) mod N).
  { intros m. rewrite Z.add_mod_idemp_l by lia. f_equal. lia. }
  split.
  - intros j l' Hj. rewrite Hhead, Hidx.
    destruct (Hset (S j) l' Hj) as (d & Hd & Hdd & Hl).
    replace (Z.of_nat (S j)) with (Z.of_nat j + 1) in Hd by lia.
    exists d. split; [|split; assumption].
    rewrite Hdescs, list_lookup_insert_ne; [exact Hd|].
    apply lookup_lt_Some in Hj.
    pose proof (ahead_is_elsewhere N (rx_head_ s) (Z.of_nat j + 1) ltac:(lia) ltac:(lia)).
    pose proof (mod_range N (rx_head_ s + (Z.of_nat j + 1)) ltac:(lia)).
    lia.
  - intros Hroom. rewrite Hhead, Hidx.
    destruct (Z.eq_dec (Z.of_nat (length lens) + 1) N) as [Hfull|Hless].
    + rewrite Hfull. replace (rx_head_ s + N) with (rx_head_ s + 1 * N) by lia.
      rewrite Z.mod_add, Z.mod_small by lia.
      exists (set_rxd_status 0 desc). split; [|reflexivity].
      rewrite Hdescs. apply list_lookup_insert_eq. lia.
    + destruct Hclear as (d & Hd & Hdd); [cbn [length]; lia|].
      cbn [length] in Hd.
      replace (Z.of_nat (S (length lens))) with (Z.of_nat (length lens) + 1) in Hd by lia.
      exists d. split; [|exact Hdd].
      rewrite Hdescs, list_lookup_insert_ne; [exact Hd|].
      pose proof (ahead_is_elsewhere N (rx_head_ s) (Z.of_nat (length lens) + 1)
                    ltac:(lia) ltac:(lia)).
      pose proof (mod_range N (rx_head_ s + (Z.of_nat (length lens) + 1)) ltac:(lia)).
      lia.
Qed.

Lemma receive_effect_rx_wf (N : Z) (s s' : State) :
  ring_size N -> rx_wf N s -> receive_effect N s s' -> rx_wf N s'.
Proof.
  intros HN (Hlen & Hh) (Hhead & _ & (desc & _ & Hdescs) & _).
  pose proof (ring_size_pos N HN) as HNpos.
  unfold rx_wf. rewrite Hhead, Hdescs, length_insert.
  split; [exact Hlen|apply mod_range; lia].
Qed.

Lemma receive_burst_drains (N : Z) (lens : list Z) :
  ring_size N ->
  forall (s : State) (n : nat),
    rx_wf N s -> rx_pending N s lens ->
    Z.of_nat (length lens) <= N -> (length lens < n)%nat ->
    exists s',
      receive_burst N n s = Ok (expected_packets N s (rx_head_ s) lens, s') /\
      rx_head_ s' = (rx_head_ s + Z.of_nat (length lens)) mod N /\
      rx_wf N s' /\ rx_pending N s' [].
Proof.
  intros HN. pose proof (ring_size_pos N HN) as HNpos.
  induction lens as [|l lens IH]; intros s n Hwf Hpend Hfit Hn;
    (destruct n as [|n]; [cbn [length] in Hn; lia|]); cbn [receive_burst].
  - destruct Hpend as (Hset & Hclear).
    destruct Hclear as (d & Hd & Hdd); [cbn [length]; lia|].
    cbn [length] in Hd. rewrite Z.add_0_r, Z.mod_small in Hd by apply Hwf.
    destruct (receive_packet_outcome N s HN Hwf)
      as (desc & Hdesc & [(_ & H)|(Hdd' & _)]); [|congruence].
    rewrite H. cbn [bind expected_packets length].
    exists s. split; [reflexivity|].
    rewrite Z.add_0_r, Z.mod_small by apply Hwf.
    split; [reflexivity|]. split; [exact Hwf|].
    split; [intros j l' Hj; discriminate Hj|].
    intros _. exists d. cbn [length]. rewrite Z.add_0_r, Z.mod_small by apply Hwf.
    split; assumption.
  - pose proof Hpend as (Hset & _).
    destruct (Hset 0%nat l eq_refl) as (d & Hd & Hdd & Hl).
    cbn in Hd. rewrite Z.add_0_r, Z.mod_small in Hd by apply Hwf.
    destruct (receive_packet_outcome N s HN Hwf)
      as (desc & Hdesc & [(Hdd' & _)|(_ & s1 & H & Heff)]); [congruence|].
    assert (desc = d) as -> by congruence.
    rewrite H, Hl. cbn [bind].
    pose proof (receive_effect_rx_wf N s s1 HN Hwf Heff) as Hwf1.
    pose proof (rx_pending_after_receive N s s1 l lens HN Hwf Hpend Hfit Heff) as Hpend1.
    cbn [length] in Hfit, Hn.
    destruct (IH s1 n Hwf1 Hpend1 ltac:(lia) ltac:(lia)) as (s' & Hb & Hh' & Hwf' & Hp').
    rewrite Hb. cbn [bind].
    destruct Heff as (Hhead & _ & _ & _ & _ & (_ & _ & _ & _ & _ & Hbuf & _) & _).
    exists s'. split.
    + cbn [expected_packets]. rewrite (Z.mod_small (rx_head_ s)) by apply Hwf.
      rewrite Hhead, expected_packets_mod by lia.
      rewrite (expected_packets_same_buffers N s s1 lens Hbuf). reflexivity.
    + split; [|split; assumption].
      rewrite Hh', Hhead, Z.add_mod_idemp_l by lia. f_equal. cbn [length]. lia.
Qed.

(** X12. When the device has delivered frames into the slots from
    [rx_head_] on, in ring order, a caller that polls [receive_packet]
    until it reports nothing gets exactly those frames, oldest first, each
    with the slot of its ring position and the length the device wrote;
    [rx_head_] has then moved past them, wrapping at the ring size, and
    the next poll finds nothing.  This holds for a ring filled completely
    as well. *)
Theorem receive_burst_is_fifo (N : Z) (s : State) (lens : list Z) (n : nat) :
  ring_size N -> rx_wf N s ->
  rx_pending N s lens ->
  Z.of_nat (length lens) <= N -> (length lens < n)%nat ->
  exists s',
    receive_burst N n s = Ok (expected_packets N s (rx_head_ s) lens, s') /\
    rx_head_ s' = (rx_head_ s + Z.of_nat (length lens)) mod N /\
    receive_packet N s' = Ok (None, s').
Proof.
  intros HN Hwf Hpend Hfit Hn.
  destruct (receive_burst_drains N lens HN s n Hwf Hpend Hfit Hn)
    as (s' & Hb & Hh & Hwf' & Hp').
  exists s'. split; [exact Hb|]. split; [exact Hh|].
  destruct Hp' as (_ & Hclear).
  pose proof (ring_size_pos N HN) as HNpos.
  destruct Hclear as (d & Hd & Hdd); [cbn [length]; lia|].
  cbn [length] in Hd. rewrite Z.add_0_r, Z.mod_small in Hd by apply Hwf'.
  destruct (receive_packet_outcome N s' HN Hwf')
    as (desc & Hdesc & [(_ & H)|(Hdd' & _)]); [exact H|congruence].
Qed.

Lemma device8_two_frames_wf : rx_wf 8 device8_two_frames.
Proof. vm_compute. repeat split; congruence. Qed.

Lemma device8_two_frames_pending : rx_pending 8 device8_two_frames [100; 200].
Proof.
  split.
  - intros [|[|j]] l Hj; cbn in Hj; try discriminate Hj; injection Hj as <-;
      eexists; (split; [vm_compute; reflexivity|split; reflexivity]).
  - intros _. eexists. split; [vm_compute; reflexivity|reflexivity].
Qed.

Lemma receive_burst_is_fifo_witness :
  exists s',
    receive_burst 8 4 device8_two_frames
    = Ok (expected_packets 8 device8_two_frames (rx_head_ device8_two_frames)
            [100; 200], s') /\
    rx_head_ s' = (rx_head_ device8_two_frames + Z.of_nat (length [100; 200])) mod 8 /\
    receive_packet 8 s' = Ok (None, s').
Proof.
  apply (receive_burst_is_fifo 8 device8_two_frames [100; 200] 4 ring_size_8
           device8_two_frames_wf device8_two_frames_pending).
  - cbn. lia.
  - cbn. lia.
Defined.

(** ** Buffer slots *)

Lemma initialize_ok_buffers (RX TX : Z) (env : Env) (pci : string) (mem : memory)
      (s0 : State) :
  initialize RX TX env (construct pci mem) = (true, s0) ->
  In (AlignedAlloc 4096 (wrap32 (RX * MAX_PACKET_SIZE)) (rx_buffers_ s0)) (trace s0) /\
  In (AlignedAlloc 4096 (wrap32 (TX * MAX_PACKET_SIZE)) (tx_buffers_ s0)) (trace s0).
Proof.
  revert s0. initialize_paths_polls env evs Hquiet Hpolls Hsleeps;
    intros s0 Hinit; try discriminate Hinit.
  injection Hinit as <-. run_driver.
  split; find_event.
Qed.

Lemma slot_offset (N i : Z) :
  ring_size N -> N * MAX_PACKET_SIZE < 2 ^ 32 -> 0 <= i < N ->
  wrap32 (i * MAX_PACKET_SIZE) = i * MAX_PACKET_SIZE.
Proof.
  intros HN Hfit Hi. apply wrap32_small. unfold MAX_PACKET_SIZE in *. nia.
Qed.

(** X13. With rings whose buffer block fits a [uint32_t] byte count (the
    compiled rings of 2048 do), the blocks [initialize] asks for are
    [N * MAX_PACKET_SIZE] bytes each and the slots tile them: slot [i]
    starts [i * MAX_PACKET_SIZE] bytes into its block, every slot lies
    inside the block, and the slots of two ring positions do not
    overlap. *)
Theorem slots_tile_the_buffer_blocks
        (RX TX : Z) (env : Env) (pci : string) (mem : memory) (s0 : State) :
  ring_size RX -> ring_size TX ->
  RX * MAX_PACKET_SIZE < 2 ^ 32 -> TX * MAX_PACKET_SIZE < 2 ^ 32 ->
  initialize RX TX env (construct pci mem) = (true, s0) ->
  In (AlignedAlloc 4096 (RX * MAX_PACKET_SIZE) (rx_buffers_ s0)) (trace s0) /\
  In (AlignedAlloc 4096 (TX * MAX_PACKET_SIZE) (tx_buffers_ s0)) (trace s0) /\
  (forall i, 0 <= i < RX ->
     rx_buffers_ s0 <= rx_slot s0 i /\
     rx_slot s0 i + MAX_PACKET_SIZE <= rx_buffers_ s0 + RX * MAX_PACKET_SIZE) /\
  (forall i, 0 <= i < TX ->
     tx_buffers_ s0 <= tx_slot s0 i /\
     tx_slot s0 i + MAX_PACKET_SIZE <= tx_buffers_ s0 + TX * MAX_PACKET_SIZE) /\
  (forall i j, 0 <= i < j -> j < RX -> rx_slot s0 i + MAX_PACKET_SIZE <= rx_slot s0 j) /\
  (forall i j, 0 <= i < j -> j < TX -> tx_slot s0 i + MAX_PACKET_SIZE <= tx_slot s0 j).
Proof.
  intros HRX HTX HfitR HfitT Hinit.
  pose proof (ring_size_pos RX HRX) as HRXpos.
  pose proof (ring_size_pos TX HTX) as HTXpos.
  destruct (initialize_ok_buffers RX TX env pci mem s0 Hinit) as (HaR & HaT).
  rewrite wrap32_small in HaR by (unfold MAX_PACKET_SIZE in *; lia).
  rewrite wrap32_small in HaT by (unfold MAX_PACKET_SIZE in *; lia).
  split; [exact HaR|]. split; [exact HaT|].
  unfold rx_slot, tx_slot.
  split; [|split; [|split]].
  - intros i Hi. rewrite (slot_offset RX i HRX HfitR Hi).
    unfold MAX_PACKET_SIZE in *. nia.
  - intros i Hi. rewrite (slot_offset TX i HTX HfitT Hi).
    unfold MAX_PACKET_SIZE in *. nia.
  - intros i j Hi Hj.
    rewrite (slot_offset RX i HRX HfitR), (slot_offset RX j HRX HfitR) by lia.
    unfold MAX_PACKET_SIZE in *. nia.
  - intros i j Hi Hj.
    rewrite (slot_offset TX i HTX HfitT), (slot_offset TX j HTX HfitT) by lia.
    unfold MAX_PACKET_SIZE in *. nia.
Qed.

Lemma slots_tile_the_buffer_blocks_witness :
  In (AlignedAlloc 4096 (RING_SIZE * MAX_PACKET_SIZE) (rx_buffers_ device2048))
     (trace device2048) /\
  In (AlignedAlloc 4096 (RING_SIZE * MAX_PACKET_SIZE) (tx_buffers_ device2048))
     (trace device2048) /\
  (forall i, 0 <= i < RING_SIZE ->
     rx_buffers_ device2048 <= rx_slot device2048 i /\
     rx_slot device2048 i + MAX_PACKET_SIZE
     <= rx_buffers_ device2048 + RING_SIZE * MAX_PACKET_SIZE) /\
  (forall i, 0 <= i < RING_SIZE ->
     tx_buffers_ device2048 <= tx_slot device2048 i /\
     tx_slot device2048 i + MAX_PACKET_SIZE
     <= tx_buffers_ device2048 + RING_SIZE * MAX_PACKET_SIZE) /\
  (forall i j, 0 <= i < j -> j < RING_SIZE ->
     rx_slot device2048 i + MAX_PACKET_SIZE <= rx_slot device2048 j) /\
  (forall i j, 0 <= i < j -> j < RING_SIZE ->
     tx_slot device2048 i + MAX_PACKET_SIZE <= tx_slot device2048 j).
Proof.
  apply (slots_tile_the_buffer_blocks RING_SIZE RING_SIZE env_ok "0000:01:00.0"
           pattern_memory device2048 ring_size_2048 ring_size_2048).
  - reflexivity.
  - reflexivity.
  - exact initialize_device2048.
Defined.

(** ** Packet lengths [send_packet] does not expect *)

(** X14. A send of length 0 is a send like any other: with room in the
    ring it returns [true], takes a descriptor (whose length word is the
    bare EOP flag), moves [tx_tail_], rings the doorbell and counts one
    packet sent; it changes no byte of memory. *)
Theorem empty_send_takes_a_descriptor (N data : Z) (s : State) :
  ring_size N -> tx_wf N s -> (tx_tail_ s + 1) mod N <> tx_head_ s ->
  exists s',
    send_packet N data 0 s = Ok (true, s') /\
    (forall a, bytes s' a = bytes s a) /\
    tx_descs s' !! Z.to_nat (tx_tail_ s)
    = Some (mkTxDescriptor (get_physical_addr (tx_slot s (tx_tail_ s)))
                           DESC_STATUS_EOP 0) /\
    tx_tail_ s' = (tx_tail_ s + 1) mod N /\
    packets_sent_ s' = wrap64 (packets_sent_ s + 1) /\
    trace s' = trace s ++ [RegWrite REG_TX_DESC_TAIL (tx_tail_ s')].
Proof.
  intros HN Hwf Hroom.
  destruct (send_packet_room N data 0 s HN Hwf Hroom)
    as (s' & Hsend & _ & (Htail & Hsent & Hdescs & Htr & Hframe & _)).
  exists s'. split; [exact Hsend|].
  split; [intros a; apply Hframe; unfold in_range; lia|].
  split.
  { rewrite Hdescs. apply list_lookup_insert_eq.
    destruct Hwf as (Hlen & _ & Ht). lia. }
  split; [exact Htail|]. split; [exact Hsent|]. rewrite Htail. exact Htr.
Qed.

Lemma empty_send_takes_a_descriptor_witness :
  exists s',
    send_packet 8 0x1000 0 device8 = Ok (true, s') /\
    (forall a, bytes s' a = bytes device8 a) /\
    tx_descs s' !! Z.to_nat (tx_tail_ device8)
    = Some (mkTxDescriptor (get_physical_addr (tx_slot device8 (tx_tail_ device8)))
                           DESC_STATUS_EOP 0) /\
    tx_tail_ s' = (tx_tail_ device8 + 1) mod 8 /\
    packets_sent_ s' = wrap64 (packets_sent_ device8 + 1) /\
    trace s' = trace device8 ++ [RegWrite REG_TX_DESC_TAIL (tx_tail_ s')].
Proof.
  apply (empty_send_takes_a_descriptor 8 0x1000 device8 ring_size_8 device8_wf).
  vm_compute. congruence.
Defined.

(** X15. [send_packet] does not compare [length] with [MAX_PACKET_SIZE]:
    a longer packet (a [uint16_t] allows up to 65535 bytes) is accepted
    and copied past the end of its slot, so the bytes behind the slot,
    which belong to the next slot or lie behind the block, are
    overwritten with the packet's tail. *)
Theorem oversized_send_overruns_slot (N data length : Z) (s : State) :
  ring_size N -> tx_wf N s -> (tx_tail_ s + 1) mod N <> tx_head_ s ->
  MAX_PACKET_SIZE < length < 2 ^ 16 ->
  forward_safe (tx_slot s (tx_tail_ s)) data length ->
  exists s',
    send_packet N data length s = Ok (true, s') /\
    forall a,
      tx_slot s (tx_tail_ s) + MAX_PACKET_SIZE <= a < tx_slot s (tx_tail_ s) + length ->
      bytes s' a = bytes s (data + (a - tx_slot s (tx_tail_ s))).
Proof.
  intros HN Hwf Hroom Hlen Hsafe.
  destruct (send_packet_room N data length s HN Hwf Hroom)
    as (s' & Hsend & _ & (_ & _ & _ & _ & _ & Hcopy & _)).
  exists s'. split; [exact Hsend|].
  intros a Ha. rewrite Hcopy by (assumption || (unfold MAX_PACKET_SIZE in *; lia)).
  apply copied_inside. unfold in_range, MAX_PACKET_SIZE in *. lia.
Qed.

Lemma oversized_send_overruns_slot_witness :
  exists s',
    send_packet 8 0x1000 10000 device8 = Ok (true, s') /\
    forall a,
      tx_slot device8 (tx_tail_ device8) + MAX_PACKET_SIZE <= a
        < tx_slot device8 (tx_tail_ device8) + 10000 ->
      bytes s' a = bytes device8 (0x1000 + (a - tx_slot device8 (tx_tail_ device8))).
Proof.
  apply (oversized_send_overruns_slot 8 0x1000 10000 device8 ring_size_8 device8_wf).
  - vm_compute. congruence.
  - vm_compute. split; reflexivity.
  - right. vm_compute. congruence.
Defined.

Lemma land_two (x : Z) : Z.land x 2 = if Z.testbit x 1 then 2 else 0.
Proof.
  apply Z.bits_inj'. intros n Hn.
  rewrite Z.land_spec. change 2 with (2 ^ 1) at 1. rewrite Z.pow2_bits_eqb by lia.
  destruct (1 =? n) eqn:E.
  - assert (n = 1) as -> by lia. destruct (Z.testbit x 1); reflexivity.
  - rewrite andb_false_r. destruct (Z.testbit x 1).
    + change 2 with (2 ^ 1). rewrite Z.pow2_bits_eqb by lia. rewrite E. reflexivity.
    + rewrite Z.bits_0. reflexivity.
Qed.

Lemma lor_eop_clear (x : Z) :
  Z.testbit x 1 = false -> Z.lor x DESC_STATUS_EOP = x + 2.
Proof.
  intros Hbit. change DESC_STATUS_EOP with 2.
  assert (Hl : Z.land x 2 = 0) by (rewrite land_two, Hbit; reflexivity).
  rewrite <- Z.lxor_lor by exact Hl. symmetry. apply Z.add_nocarry_lxor. exact Hl.
Qed.

(** X16. The length word of a TX descriptor is [length | DESC_STATUS_EOP],
    and the EOP flag is bit 1: for a length with bit 1 clear the word is
    [length + 2], which is also the word of a packet two bytes longer.
    Two sends from the same state with lengths [length] and [length + 2]
    leave the same descriptor ring: the descriptor does not tell the
    device which of the two lengths was meant. *)
Theorem descriptor_word_merges_lengths (N data length : Z) (s s1 s2 : State) :
  ring_size N -> tx_wf N s ->
  Z.testbit length 1 = false ->
  send_packet N data length s = Ok (true, s1) ->
  send_packet N data (length + 2) s = Ok (true, s2) ->
  tx_descs s1 = tx_descs s2 /\
  tx_descs s1 !! Z.to_nat (tx_tail_ s)
  = Some (mkTxDescriptor (get_physical_addr (tx_slot s (tx_tail_ s))) (length + 2) 0).
Proof.
  intros HN Hwf Hbit H1 H2.
  destruct (send_packet_success_effect N data length s s1 HN Hwf H1)
    as (_ & _ & Hd1 & _).
  destruct (send_packet_success_effect N data (length + 2) s s2 HN Hwf H2)
    as (_ & _ & Hd2 & _).
  assert (E1 : Z.lor length DESC_STATUS_EOP = length + 2) by (apply lor_eop_clear; exact Hbit).
  assert (E2 : Z.lor (length + 2) DESC_STATUS_EOP = length + 2).
  { rewrite <- E1 at 1. rewrite <- Z.lor_assoc, Z.lor_diag. exact E1. }
  rewrite Hd1, Hd2, E1, E2. split; [reflexivity|].
  apply list_lookup_insert_eq. destruct Hwf as (Hlen & _ & Ht). lia.
Qed.

Lemma device8_room : (tx_tail_ device8 + 1) mod 8 <> tx_head_ device8.
Proof. vm_compute. congruence. Qed.

Lemma descriptor_word_merges_lengths_witness :
  exists s1 s2,
    send_packet 8 0x1000 60 device8 = Ok (true, s1) /\
    send_packet 8 0x1000 (60 + 2) device8 = Ok (true, s2) /\
    tx_descs s1 = tx_descs s2 /\
    tx_descs s1 !! Z.to_nat (tx_tail_ device8)
    = Some (mkTxDescriptor (get_physical_addr (tx_slot device8 (tx_tail_ device8)))
                           (60 + 2) 0).
Proof.
  destruct (send_packet_room 8 0x1000 60 device8 ring_size_8 device8_wf device8_room)
    as (s1 & H1 & _).
  destruct (send_packet_room 8 0x1000 (60 + 2) device8 ring_size_8 device8_wf device8_room)
    as (s2 & H2 & _).
  exists s1, s2. split; [exact H1|]. split; [exact H2|].
  exact (descriptor_word_merges_lengths 8 0x1000 60 device8 s1 s2 ring_size_8
           device8_wf eq_refl H1 H2).
Defined.

(** ** Calls on an object that was not brought up *)

(** X17. Neither [send_packet] nor [receive_packet] looks at
    [initialized_]: on an object that was constructed and not initialized
    both index a descriptor ring that does not exist. *)
Theorem hot_path_needs_initialize (RX TX : Z) (pci : string) (mem : memory)
        (data length : Z) :
  ring_size TX -> 2 <= TX ->
  send_packet TX data length (construct pci mem) = OutOfBounds /\
  receive_packet RX (construct pci mem) = OutOfBounds.
Proof.
  intros HTX H2. split; [|reflexivity].
  unfold send_packet. cbn [construct tx_tail_ tx_head_ tx_descs].
  rewrite advance_mod by (assumption || lia).
  rewrite Z.mod_small by lia. cbn [Z.add Z.eqb bind]. reflexivity.
Qed.

Lemma hot_path_needs_initialize_witness :
  send_packet 8 0x1000 64 (construct "0000:01:00.0" pattern_memory) = OutOfBounds /\
  receive_packet 8 (construct "0000:01:00.0" pattern_memory) = OutOfBounds.
Proof.
  apply (hot_path_needs_initialize 8 8 "0000:01:00.0" pattern_memory 0x1000 64
           ring_size_8).
  lia.
Defined.

(** ** Link state *)

(** X18. [is_link_up] makes one read of [REG_STATUS] and nothing else, and
    its answer is bit 1 of what the device shows there, whatever the other
    bits are; no field of the object changes. *)
Theorem link_state_is_status_bit_one (env : Env) (s : State) :
  fst (is_link_up env s) = Z.testbit (env_reg_read env (n_reads s) REG_STATUS) 1 /\
  trace (snd (is_link_up env s))
  = trace s ++ [RegRead REG_STATUS (wrap32 (env_reg_read env (n_reads s) REG_STATUS))] /\
  same_object s (snd (is_link_up env s)) /\
  same_rx s (snd (is_link_up env s)) /\
  same_tx s (snd (is_link_up env s)) /\
  bytes (snd (is_link_up env s)) = bytes s.
Proof.
  unfold is_link_up, read_reg. cbn [fst snd].
  split.
  - change 0x02 with 2. rewrite land_two. unfold wrap32.
    rewrite Z.mod_pow2_bits_low by lia.
    destruct (Z.testbit (env_reg_read env (n_reads s) REG_STATUS) 1); reflexivity.
  - destruct s. cbn. repeat split.
Qed.

(** ** Reclamation *)

(** X19. [reclaim_tx_descriptors] changes [tx_head_] and nothing else, it
    leaves a well-formed ring, and a second run right after the first
    changes nothing: the first run went as far as the completed
    descriptors reach. *)
Theorem reclaim_is_idempotent (N : Z) (s : State) :
  ring_size N -> tx_wf N s ->
  exists s1,
    reclaim_tx_descriptors N s = Ok s1 /\
    s1 = set_tx_head (tx_head_ s1) s /\
    tx_wf N s1 /\
    reclaim_tx_descriptors N s1 = Ok s1.
Proof.
  intros HN Hwf. pose proof (ring_size_pos N HN) as HNpos.
  pose proof Hwf as (Hlen & Hh & Ht).
  destruct (reclaim_tx_descriptors_spec N s HN Hwf) as (r & Hr & Hrec & Hdone & Hstop).
  set (h1 := (tx_head_ s + r) mod N) in *.
  assert (Hh1 : 0 <= h1 < N) by (apply mod_range; lia).
  pose proof (mod_range N (tx_tail_ s - tx_head_ s) ltac:(lia)) as Hwin.
  exists (set_tx_head h1 s). split; [exact Hrec|].
  split; [reflexivity|].
  assert (Hwf1 : tx_wf N (set_tx_head h1 s)).
  { unfold tx_wf. cbn. repeat split; assumption || lia. }
  split; [exact Hwf1|].
  destruct (reclaim_tx_descriptors_spec N (set_tx_head h1 s) HN Hwf1)
    as (r' & Hr' & Hrec' & Hdone' & _).
  cbn [tx_head_ tx_tail_ set_tx_head] in Hr', Hrec', Hdone'.
  rewrite set_tx_head_twice in Hrec'.
  assert (r' = 0) as ->.
  { destruct (Z.eq_dec r' 0) as [E|E]; [exact E|exfalso].
    destruct Hstop as [Hall|Hclear].
    - (* the first run reached tx_tail_ *)
      assert (h1 = tx_tail_ s).
      { subst h1. rewrite Hall.
        rewrite Z.add_mod_idemp_r by lia.
        replace (tx_head_ s + (tx_tail_ s - tx_head_ s)) with (tx_tail_ s) by lia.
        apply Z.mod_small. lia. }
      replace (tx_tail_ s - h1) with 0 in Hr' by lia.
      rewrite Z.mod_0_l in Hr' by lia. lia.
    - pose proof (Hdone' 0 ltac:(lia)) as H0.
      rewrite Z.add_0_r, Z.mod_small in H0 by lia.
      change (tx_status_at (set_tx_head h1 s) h1) with (tx_status_at s h1) in H0.
      congruence. }
  rewrite Z.add_0_r, Z.mod_small in Hrec' by lia. exact Hrec'.
Qed.

Lemma reclaim_is_idempotent_witness :
  exists s1,
    reclaim_tx_descriptors 8 device8_full = Ok s1 /\
    s1 = set_tx_head (tx_head_ s1) device8_full /\
    tx_wf 8 s1 /\
    reclaim_tx_descriptors 8 s1 = Ok s1.
Proof.
  exact (reclaim_is_idempotent 8 device8_full ring_size_8 device8_full_wf).
Defined.

(** ** Flow control on the transmit ring *)

Lemma count_in_app (p : Z -> bool) (l1 l2 : list Z) :
  count_in p (l1 ++ l2) = count_in p l1 + count_in p l2.
Proof. unfold count_in. rewrite List.filter_app, List.length_app. lia. Qed.

Lemma count_in_ext (p p' : Z -> bool) (a n : Z) :
  (forall x, a <= x < a + n -> p' x = p x) ->
  count_in p' (seqZ a n) = count_in p (seqZ a n).
Proof.
  intros H. unfold count_in. f_equal. f_equal.
  apply List.filter_ext_in. intros x Hx.
  apply H. apply list_elem_of_In, elem_of_seqZ in Hx. lia.
Qed.

Lemma count_in_change (p p' : Z -> bool) (N x0 : Z) :
  0 <= x0 < N ->
  (forall x, 0 <= x < N -> x <> x0 -> p' x = p x) ->
  count_in p' (seqZ 0 N) - (if p' x0 then 1 else 0)
  = count_in p (seqZ 0 N) - (if p x0 then 1 else 0).
Proof.
  intros Hx0 H.
  replace N with (x0 + (1 + (N - x0 - 1))) by lia.
  rewrite !seqZ_app by lia. rewrite !count_in_app.
  rewrite (count_in_ext p p' 0 x0) by (intros; apply H; lia).
  rewrite (count_in_ext p p' (0 + x0 + 1)) by (intros; apply H; lia).
  change (seqZ (0 + x0) 1) with [0 + x0]. rewrite Z.add_0_l.
  unfold count_in at 2 5. cbn [List.filter].
  destruct (p x0), (p' x0); cbn [length]; lia.
Qed.

Lemma count_in_nonneg (p : Z -> bool) (l : list Z) : 0 <= count_in p l.
Proof. unfold count_in. lia. Qed.

Lemma count_in_none (p : Z -> bool) (a n : Z) :
  (forall x, a <= x < a + n -> p x = false) -> count_in p (seqZ a n) = 0.
Proof.
  intros H. rewrite (count_in_ext (fun _ => false) p) by exact H.
  unfold count_in. induction (seqZ a n) as [|x l IH]; [reflexivity|exact IH].
Qed.

Ltac split_ifs :=
  repeat match goal with
         | |- context [if ?b then _ else _] => destruct b eqn:?
         | H : context [if ?b then _ else _] |- _ => destruct b eqn:?
         end.

(** Moving [tx_head_] past one completed descriptor takes it out of the
    window. *)
Lemma flow_reclaim_one (N : Z) (s : State) :
  ring_size N -> tx_wf N s -> tx_head_ s <> tx_tail_ s ->
  dd_set (tx_status_at s (tx_head_ s)) = true ->
  tx_completed_in_flight N (set_tx_head ((tx_head_ s + 1) mod N) s)
  = tx_completed_in_flight N s - 1 /\
  tx_in_flight N (set_tx_head ((tx_head_ s + 1) mod N) s) = tx_in_flight N s - 1.
Proof.
  intros HN (Hlen & Hh & Ht) Hne Hdd. pose proof (ring_size_pos N HN) as HNpos.
  assert (Hw : tx_in_flight N (set_tx_head ((tx_head_ s + 1) mod N) s)
               = tx_in_flight N s - 1).
  { unfold tx_in_flight. cbn [tx_head_ tx_tail_ set_tx_head].
    rewrite succ_mod by lia. destruct (tx_head_ s + 1 =? N) eqn:E;
      rewrite !sub_mod_cases by lia; split_ifs; lia. }
  split; [|exact Hw].
  unfold tx_completed_in_flight.
  pose proof (count_in_change
                (is_completed_in_flight N s)
                (is_completed_in_flight N (set_tx_head ((tx_head_ s + 1) mod N) s))
                N (tx_head_ s) Hh) as Hc.
  assert (Hp : is_completed_in_flight N s (tx_head_ s) = true).
  { unfold is_completed_in_flight. rewrite Hdd, andb_true_r.
    rewrite Z.sub_diag, Z.mod_0_l by lia. unfold tx_in_flight.
    rewrite sub_mod_cases by lia. split_ifs; lia. }
  assert (Hp' : is_completed_in_flight N (set_tx_head ((tx_head_ s + 1) mod N) s)
                  (tx_head_ s) = false).
  { unfold is_completed_in_flight. rewrite Hw. cbn [tx_head_ set_tx_head].
    apply andb_false_intro1.
    unfold tx_in_flight. rewrite succ_mod by lia.
    destruct (tx_head_ s + 1 =? N) eqn:E;
      rewrite !sub_mod_cases by lia; split_ifs; lia. }
  rewrite Hp, Hp' in Hc. rewrite <- Hc; [lia|].
  intros x Hx Hxh. unfold is_completed_in_flight. rewrite Hw.
  change (tx_status_at (set_tx_head ((tx_head_ s + 1) mod N) s) x)
    with (tx_status_at s x).
  cbn [tx_head_ set_tx_head]. f_equal.
  unfold tx_in_flight. rewrite succ_mod by lia.
  destruct (tx_head_ s + 1 =? N) eqn:E;
    rewrite !sub_mod_cases by lia; split_ifs; lia.
Qed.

Lemma in_flight_zero (N : Z) (s : State) :
  ring_size N -> tx_wf N s -> tx_in_flight N s = 0 -> tx_head_ s = tx_tail_ s.
Proof.
  intros HN (_ & Hh & Ht) H. unfold tx_in_flight in H.
  rewrite sub_mod_cases in H by lia. split_ifs; lia.
Qed.

Lemma set_tx_head_wf (N h : Z) (s : State) :
  tx_wf N s -> 0 <= h < N -> tx_wf N (set_tx_head h s).
Proof.
  intros (Hlen & _ & Ht) Hh. unfold tx_wf. cbn [tx_descs tx_head_ tx_tail_ set_tx_head].
  split; [exact Hlen|]. split; assumption.
Qed.

(** Reclaiming [r] completed descriptors takes [r] of them out of the
    window. *)
Lemma flow_reclaim (N : Z) (s : State) (r : nat) :
  ring_size N -> tx_wf N s -> Z.of_nat r <= tx_in_flight N s ->
  (forall j, 0 <= j < Z.of_nat r ->
     dd_set (tx_status_at s ((tx_head_ s + j) mod N)) = true) ->
  tx_completed_in_flight N (set_tx_head ((tx_head_ s + Z.of_nat r) mod N) s)
  = tx_completed_in_flight N s - Z.of_nat r /\
  tx_in_flight N (set_tx_head ((tx_head_ s + Z.of_nat r) mod N) s)
  = tx_in_flight N s - Z.of_nat r.
Proof.
  intros HN Hwf. pose proof (ring_size_pos N HN) as HNpos.
  pose proof Hwf as (_ & Hh & _).
  induction r as [|r IH]; intros Hr Hdd.
  - rewrite Z.add_0_r, Z.mod_small, set_tx_head_same by lia. cbn. lia.
  - destruct IH as (ID & IW); [lia|intros j Hj; apply Hdd; lia|].
    set (s1 := set_tx_head ((tx_head_ s + Z.of_nat r) mod N) s) in *.
    assert (Hwf1 : tx_wf N s1)
      by (apply set_tx_head_wf; [exact Hwf|apply mod_range; lia]).
    destruct (flow_reclaim_one N s1 HN Hwf1) as (OD & OW).
    + intros E. assert (tx_in_flight N s1 = 0); [|lia].
      unfold tx_in_flight. rewrite E, Z.sub_diag. apply Z.mod_0_l. lia.
    + apply (Hdd (Z.of_nat r)). lia.
    + subst s1. cbn [tx_head_ set_tx_head] in OD, OW.
      rewrite set_tx_head_twice in OD, OW.
      rewrite Z.add_mod_idemp_l in OD, OW by lia.
      replace (tx_head_ s + Z.of_nat (S r)) with (tx_head_ s + Z.of_nat r + 1) by lia.
      lia.
Qed.

(** A send puts one more descriptor into the window, with DD clear. *)
Lemma flow_send (N : Z) (s1 s' : State) (d : TxDescriptor) :
  ring_size N -> tx_wf N s1 -> (tx_tail_ s1 + 1) mod N <> tx_head_ s1 ->
  tx_head_ s' = tx_head_ s1 ->
  tx_tail_ s' = (tx_tail_ s1 + 1) mod N ->
  tx_descs s' = <[Z.to_nat (tx_tail_ s1) := d]> (tx_descs s1) ->
  txd_status d = 0 ->
  tx_completed_in_flight N s' = tx_completed_in_flight N s1 /\
  tx_in_flight N s' = tx_in_flight N s1 + 1.
Proof.
  intros HN (Hlen & Hh & Ht) Hroom Hhead Htail Hdescs Hd.
  pose proof (ring_size_pos N HN) as HNpos.
  assert (Hw : tx_in_flight N s' = tx_in_flight N s1 + 1).
  { unfold tx_in_flight. rewrite Hhead, Htail.
    rewrite succ_mod in * by lia. destruct (tx_tail_ s1 + 1 =? N) eqn:E;
      rewrite !sub_mod_cases by lia; split_ifs; lia. }
  split; [|exact Hw].
  unfold tx_completed_in_flight. apply count_in_ext. intros x Hx.
  unfold is_completed_in_flight. rewrite Hw, Hhead.
  unfold tx_status_at. rewrite Hdescs.
  destruct (Z.eq_dec x (tx_tail_ s1)) as [->|Hne].
  - rewrite list_lookup_insert_eq by lia. rewrite Hd.
    change (dd_set 0) with false. rewrite andb_false_r.
    symmetry. apply andb_false_intro1. unfold tx_in_flight. lia.
  - rewrite list_lookup_insert_ne by lia. f_equal.
    unfold tx_in_flight. rewrite !sub_mod_cases by lia. split_ifs; lia.
Qed.

(** A completion adds at most one completed descriptor to the window. *)
Lemma flow_complete (N i : Z) (s : State) :
  ring_size N -> tx_wf N s ->
  tx_completed_in_flight N (hw_complete_tx i s) <= tx_completed_in_flight N s + 1 /\
  tx_in_flight N (hw_complete_tx i s) = tx_in_flight N s.
Proof.
  intros HN Hwf. split; [|reflexivity].
  unfold tx_completed_in_flight.
  assert (Hsame : forall x, 0 <= x < N -> x <> Z.of_nat (Z.to_nat i) ->
            is_completed_in_flight N (hw_complete_tx i s) x
            = is_completed_in_flight N s x).
  { intros x Hx Hne. unfold is_completed_in_flight, tx_status_at, hw_complete_tx.
    cbn [tx_descs tx_head_ tx_tail_ set_tx_descs tx_in_flight].
    rewrite list_lookup_alter_ne by lia. reflexivity. }
  destruct (Z_lt_ge_dec (Z.of_nat (Z.to_nat i)) N) as [Hin|Hout].
  - pose proof (count_in_change _ _ N (Z.of_nat (Z.to_nat i)) ltac:(lia) Hsame) as Hc.
    destruct (is_completed_in_flight N (hw_complete_tx i s) (Z.of_nat (Z.to_nat i))),
             (is_completed_in_flight N s (Z.of_nat (Z.to_nat i))); lia.
  - rewrite (count_in_ext _ _ 0 N (fun x Hx => Hsame x Hx ltac:(lia))). lia.
Qed.

Lemma flow_unchanged (N : Z) (s s' : State) :
  same_tx s s' ->
  tx_completed_in_flight N s' = tx_completed_in_flight N s /\
  tx_in_flight N s' = tx_in_flight N s.
Proof.
  intros (Hh & Ht & _ & Hd).
  unfold tx_completed_in_flight, tx_in_flight. rewrite Hh, Ht. split; [|reflexivity].
  apply count_in_ext. intros x _.
  unfold is_completed_in_flight, tx_in_flight, tx_status_at. rewrite Hh, Ht, Hd.
  reflexivity.
Qed.

(** What a successful send does to the window, whether or not it had to
    reclaim first. *)
Lemma flow_send_packet (N data length : Z) (s s' : State) :
  ring_size N -> tx_wf N s ->
  send_packet N data length s = Ok (true, s') ->
  tx_completed_in_flight N s' - tx_in_flight N s'
  = tx_completed_in_flight N s - tx_in_flight N s - 1.
Proof.
  intros HN Hwf Hsend. pose proof (ring_size_pos N HN) as HNpos.
  pose proof Hwf as (Hlen & Hh & Ht).
  destruct (Z.eq_dec ((tx_tail_ s + 1) mod N) (tx_head_ s)) as [Hfull|Hroom].
  - destruct (send_packet_full N data length s HN Hwf Hfull)
      as (r & Hr & Hdd & _ & [(_ & H)|(Hpos & s'' & H & Hhead & Heff)]);
      rewrite H in Hsend; [discriminate Hsend|]. injection Hsend as <-.
    destruct Heff as (Htail & _ & Hdescs & _).
    assert (Hw : tx_in_flight N s = N - 1).
    { unfold tx_in_flight. rewrite succ_mod in Hfull by lia.
      rewrite sub_mod_cases by lia. split_ifs; lia. }
    destruct (flow_reclaim N s (Z.to_nat r) HN Hwf) as (RD & RW);
      [lia|intros j Hj; apply Hdd; lia|].
    rewrite Z2Nat.id in RD, RW by lia.
    set (s1 := set_tx_head ((tx_head_ s + r) mod N) s) in *.
    destruct (flow_send N s1 s''
                (mkTxDescriptor (get_physical_addr (tx_slot s (tx_tail_ s)))
                   (Z.lor length DESC_STATUS_EOP) 0) HN) as (SD & SW);
      try assumption; try reflexivity.
    + apply set_tx_head_wf; [exact Hwf|apply mod_range; lia].
    + subst s1. cbn [tx_head_ tx_tail_ set_tx_head]. rewrite Hfull.
      intros E. symmetry in E. revert E. apply ahead_is_elsewhere; lia.
    + lia.
  - destruct (send_packet_room N data length s HN Hwf Hroom)
      as (s'' & H & Hhead & Heff).
    rewrite H in Hsend. injection Hsend as <-.
    destruct Heff as (Htail & _ & Hdescs & _).
    destruct (flow_send N s s''
                (mkTxDescriptor (get_physical_addr (tx_slot s (tx_tail_ s)))
                   (Z.lor length DESC_STATUS_EOP) 0) HN Hwf Hroom Hhead Htail Hdescs
                eq_refl) as (SD & SW).
    lia.
Qed.

Lemma count_calls_cons (p : Call -> bool) (c : Call) (cs : list Call) :
  count_calls p (c :: cs) = (if p c then 1 else 0) + count_calls p cs.
Proof.
  unfold count_calls. cbn [List.filter]. destruct (p c); cbn [length]; lia.
Qed.

Lemma step_flow (RX TX : Z) (c : Call) (s : State) (a : Answer) (s' : State) :
  ring_size RX -> ring_size TX -> rx_wf RX s -> tx_wf TX s ->
  step RX TX c s = Ok (a, s') ->
  (if is_sent_ok a then 1 else 0)
  + (tx_completed_in_flight TX s' - tx_in_flight TX s')
  <= (if is_tx_completion c then 1 else 0)
     + (tx_completed_in_flight TX s - tx_in_flight TX s).
Proof.
  intros HRX HTX Hrx Htx Hs.
  destruct c as [data length| |i|i len]; cbn [step is_tx_completion] in *.
  - destruct (send_packet_outcome TX data length s HTX Htx) as [H|(s1 & H & _)];
      rewrite H in Hs; cbn [bind] in Hs; injection Hs as <- <-; cbn [is_sent_ok].
    + lia.
    + pose proof (flow_send_packet TX data length s s1 HTX Htx H). lia.
  - destruct (receive_packet_outcome RX s HRX Hrx)
      as (desc & _ & [(_ & H)|(_ & s1 & H & Heff)]);
      rewrite H in Hs; cbn [bind] in Hs; injection Hs as <- <-; cbn [is_sent_ok];
      [lia|].
    destruct Heff as (_ & _ & _ & _ & _ & _ & Hsame).
    destruct (flow_unchanged TX s s1 Hsame) as (E1 & E2). lia.
  - injection Hs as <- <-. cbn [is_sent_ok].
    destruct (flow_complete TX i s HTX Htx) as (E1 & E2). lia.
  - injection Hs as <- <-. cbn [is_sent_ok].
    destruct (flow_unchanged TX s (hw_complete_rx i len s)) as (E1 & E2);
      [repeat split|lia].
Qed.

Lemma run_flow (RX TX : Z) (cs : list Call) :
  ring_size RX -> ring_size TX ->
  forall s answers s',
    rx_wf RX s -> tx_wf TX s ->
    run RX TX cs s = Ok (answers, s') ->
    count_answers is_sent_ok answers
    + (tx_completed_in_flight TX s' - tx_in_flight TX s')
    <= count_calls is_tx_completion cs
       + (tx_completed_in_flight TX s - tx_in_flight TX s).
Proof.
  intros HRX HTX. induction cs as [|c cs IH]; intros s answers s' Hrx Htx Hrun.
  - cbn [run] in Hrun. injection Hrun as <- <-.
    unfold count_answers, count_calls. cbn [List.filter length]. lia.
  - cbn [run] in Hrun.
    destruct (step_wf RX TX c s HRX HTX Hrx Htx) as (a & s1 & Hs & Hrx1 & Htx1).
    rewrite Hs in Hrun. cbn [bind] in Hrun.
    destruct (run RX TX cs s1) as [[answers1 s2]| |] eqn:Hr; try discriminate Hrun.
    cbn [bind] in Hrun. injection Hrun as <- <-.
    rewrite count_answers_cons, count_calls_cons.
    pose proof (IH s1 answers1 s2 Hrx1 Htx1 Hr).
    pose proof (step_flow RX TX c s a s1 HRX HTX Hrx Htx Hs).
    lia.
Qed.

(** X20. The transmit ring exerts back-pressure.  From a successful
    [initialize] on, after any workload, the number of [send_packet] calls
    that returned [true] is at most the number of TX completions the
    device has signalled plus the number of descriptors still in flight
    (from [tx_head_] up to [tx_tail_]), and at most [TX_RING_SIZE - 1]
    descriptors are in flight: the driver never hands the device more than
    [TX_RING_SIZE - 1] packets it has not seen completed. *)
Theorem sends_wait_for_completions
        (RX TX : Z) (env : Env) (pci : string) (mem : memory) (s0 : State)
        (cs : list Call) (answers : list Answer) (s' : State) :
  ring_size RX -> ring_size TX ->
  initialize RX TX env (construct pci mem) = (true, s0) ->
  run RX TX cs s0 = Ok (answers, s') ->
  count_answers is_sent_ok answers
  <= count_calls is_tx_completion cs + tx_in_flight TX s' /\
  tx_in_flight TX s' <= TX - 1.
Proof.
  intros HRX HTX Hinit Hrun. pose proof (ring_size_pos TX HTX) as HTXpos.
  destruct (fresh_device_wf RX TX env pci mem s0 HRX HTX Hinit) as (Hrx & Htx).
  pose proof (run_flow RX TX cs HRX HTX s0 answers s' Hrx Htx Hrun) as Hflow.
  destruct (initialize_ok_state _ _ _ _ _ _ Hinit) as (_ & Hh & Ht & _).
  assert (H0 : tx_in_flight TX s0 = 0).
  { unfold tx_in_flight. rewrite Hh, Ht. apply Z.mod_0_l. lia. }
  assert (D0 : tx_completed_in_flight TX s0 = 0).
  { unfold tx_completed_in_flight. apply count_in_none. intros x _.
    unfold is_completed_in_flight. rewrite H0. apply andb_false_intro1.
    pose proof (mod_range TX (x - tx_head_ s0) ltac:(lia)). lia. }
  pose proof (count_in_nonneg (is_completed_in_flight TX s') (seqZ 0 TX)) as Dpos.
  fold (tx_completed_in_flight TX s') in Dpos.
  split; [lia|].
  unfold tx_in_flight. pose proof (mod_range TX (tx_tail_ s' - tx_head_ s') ltac:(lia)).
  lia.
Qed.

Lemma sends_wait_for_completions_witness :
  exists answers s',
    run 8 8 workload8 device8 = Ok (answers, s') /\
    count_answers is_sent_ok answers
    <= count_calls is_tx_completion workload8 + tx_in_flight 8 s' /\
    tx_in_flight 8 s' <= 8 - 1.
Proof.
  destruct workload8_runs as (answers & s' & Hrun).
  exists answers, s'. split; [exact Hrun|].
  exact (sends_wait_for_completions 8 8 env_ok "0000:01:00.0" pattern_memory device8
           workload8 answers s' ring_size_8 ring_size_8 initialize_device8 Hrun).
Defined.

(** X21. A send leaves the packets in flight alone.  With buffer blocks
    that fit a [uint32_t] byte count and a packet of at most
    [MAX_PACKET_SIZE] bytes, [send_packet] changes no byte of the slot of
    any descriptor that was in flight when it was called (from [tx_head_]
    up to [tx_tail_]), whether it returns [true] or [false]: the device
    can still be reading those buffers. *)
Theorem send_spares_packets_in_flight
        (N data length : Z) (s : State) (ok : bool) (s' : State) :
  ring_size N -> N * MAX_PACKET_SIZE < 2 ^ 32 -> tx_wf N s ->
  0 <= length <= MAX_PACKET_SIZE ->
  send_packet N data length s = Ok (ok, s') ->
  forall j a,
    0 <= j < tx_in_flight N s ->
    in_range (tx_slot s ((tx_head_ s + j) mod N)) MAX_PACKET_SIZE a ->
    bytes s' a = bytes s a.
Proof.
  intros HN Hfit Hwf Hlen Hsend j a Hj Ha.
  pose proof (ring_size_pos N HN) as HNpos. pose proof Hwf as (_ & Hh & Ht).
  destruct (send_packet_outcome N data length s HN Hwf) as [H|(s1 & H & Heff)];
    rewrite H in Hsend; injection Hsend as <- <-; [reflexivity|].
  destruct Heff as (_ & _ & _ & _ & Hframe & _).
  apply Hframe. clear Hframe H.
  pose proof (mod_range N (tx_head_ s + j) ltac:(lia)) as Hi.
  assert (Hne : (tx_head_ s + j) mod N <> tx_tail_ s).
  { unfold tx_in_flight in Hj. rewrite sub_mod_cases in Hj by lia.
    rewrite add_mod_cases by (split_ifs; lia). split_ifs; lia. }
  unfold in_range, tx_slot in *.
  rewrite (wrap32_small ((tx_head_ s + j) mod N * MAX_PACKET_SIZE)) in Ha
    by (unfold MAX_PACKET_SIZE in *; nia).
  rewrite (wrap32_small (tx_tail_ s * MAX_PACKET_SIZE))
    by (unfold MAX_PACKET_SIZE in *; nia).
  unfold MAX_PACKET_SIZE in *. nia.
Qed.

Lemma send_spares_packets_in_flight_witness :
  exists ok s',
    send_packet 8 0x1000 64 device8_full = Ok (ok, s') /\
    forall j a,
      0 <= j < tx_in_flight 8 device8_full ->
      in_range (tx_slot device8_full ((tx_head_ device8_full + j) mod 8))
               MAX_PACKET_SIZE a ->
      bytes s' a = bytes device8_full a.
Proof.
  destruct (send_packet_outcome 8 0x1000 64 device8_full ring_size_8 device8_full_wf)
    as [H|(s' & H & _)].
  - exists false, device8_full. split; [exact H|].
    apply (send_spares_packets_in_flight 8 0x1000 64 device8_full false device8_full
             ring_size_8); [reflexivity|exact device8_full_wf|vm_compute; split; congruence|exact H].
  - exists true, s'. split; [exact H|].
    apply (send_spares_packets_in_flight 8 0x1000 64 device8_full true s'
             ring_size_8); [reflexivity|exact device8_full_wf|vm_compute; split; congruence|exact H].
Defined.
